(** * SDLMA-Core: the TEDS bit-level codec ([sdlma_teds])

    A shallow embedding of [src/sdlma_teds/teds_element.py] and
    [src/sdlma_teds/teds.py], and the properties of the codec proved on it;
    then the callers of the codec in [src/sdlma_hardware/sdlma_hardware.py]
    and the helpers of [src/sdlma_modal_analysis] that work on plain data.

    Python objects are modelled by explicit data: a [Bits]/[BitStream] of the
    [bitstring] package is a list of booleans (most significant bit first,
    the order in which the package prints and indexes them) together with a
    read position; Python numbers are unbounded integers ([Z]) or binary64
    floats (Rocq's primitive [float], the same IEEE 754 format); a raised
    exception is the [Raise] branch of the [result] monad. *)

From Stdlib Require Import ZArith String Ascii List Bool Lia Floats.
Import ListNotations.
Open Scope string_scope.
Open Scope list_scope.
Open Scope Z_scope.

(* Decimal literals denote the nearest binary64, as they do in Python. *)
Set Warnings "-inexact-float".

(* ================================================================== *)
(** * Exceptions and the result monad *)

(** The exception classes the codec can raise, by their Python names.
    [ReadError] and [CreationError] are [bitstring]'s. *)
Inductive exn : Type :=
| ValueError (msg : string)
| NotImplementedError
| TypeError
| OverflowError
| ZeroDivisionError
| ReadError
| CreationError.

Inductive result (A : Type) : Type :=
| Ok (a : A)
| Raise (e : exn).

Arguments Ok {A} a.
Arguments Raise {A} e.

Definition bind {A B : Type} (m : result A) (k : A -> result B) : result B :=
  match m with
  | Ok a => k a
  | Raise e => Raise e
  end.

Declare Scope py_scope.
Delimit Scope py_scope with py.
Notation "x <- m ;; k" := (bind m (fun x => k))
  (at level 61, m at next level, right associativity) : py_scope.
Notation "' pat <- m ;; k" := (bind m (fun x => match x with pat => k end))
  (at level 61, pat pattern, m at next level, right associativity) : py_scope.
Open Scope py_scope.

(** The names the specification gives to the failures of the codec. *)
Definition InvalidPreamble : exn := ValueError "Preamble does not match the default".
Definition UnsupportedBranch : exn := NotImplementedError.

(* ================================================================== *)
(** * Python values *)

(** [datetime]: a day, as its proleptic Gregorian ordinal
    ([datetime.toordinal()], 0001-01-01 is day 1), and the microseconds
    elapsed within that day. *)
Record datetime : Type := mkDatetime { toordinal : Z; microsecond_of_day : Z }.

Definition is_leap (year : Z) : bool :=
  (year mod 4 =? 0) && (negb (year mod 100 =? 0) || (year mod 400 =? 0)).

Definition days_before_year (year : Z) : Z :=
  let y := year - 1 in y * 365 + y / 4 - y / 100 + y / 400.

Definition days_before_month (year month : Z) : Z :=
  nth (Z.to_nat month) [0; 0; 31; 59; 90; 120; 151; 181; 212; 243; 273; 304; 334] 0
  + (if (2 <? month) && is_leap year then 1 else 0).

Definition ymd2ord (year month day : Z) : Z :=
  days_before_year year + days_before_month year month + day.

(** [datetime.max.toordinal()], the last day of year 9999. *)
Definition max_ordinal : Z := ymd2ord 9999 12 31.

Definition datetime_ymd (year month day : Z) : datetime :=
  mkDatetime (ymd2ord year month day) 0.

(** [timedelta(days=...)] accepts at most 999999999 days either way. *)
Definition max_delta_days : Z := 999999999.

(** [d + timedelta(days=n)] *)
Definition datetime_add_days (d : datetime) (n : Z) : result datetime :=
  if Z.abs n >? max_delta_days then Raise OverflowError
  else
    let o := toordinal d + n in
    if (1 <=? o) && (o <=? max_ordinal)
    then Ok (mkDatetime o (microsecond_of_day d))
    else Raise OverflowError.

(** [(a - b).days]: a [timedelta] is normalised with its seconds and
    microseconds non-negative, so [days] is the floor of the difference. *)
Definition datetime_sub_days (a b : datetime) : Z :=
  let us_per_day := 86400000000 in
  ((toordinal a - toordinal b) * us_per_day
   + (microsecond_of_day a - microsecond_of_day b)) / us_per_day.

(** The values an element's [val] attribute holds. A [str] is a Rocq
    string: its characters are the code points below 256, which covers every
    string the codec produces (all below 128). *)
Inductive value : Type :=
| VNone
| VInt (z : Z)
| VFloat (f : float)
| VStr (s : string)
| VDatetime (d : datetime).

(* ------------------------------------------------------------------ *)
(** ** Arithmetic on Python numbers *)

(** [float(z)] for an [int]: the nearest binary64 (ties to even), and
    [OverflowError] when that is not finite. *)
Definition float_of_int (z : Z) : result float :=
  let f := SF2Prim (binary_normalize prec emax z 0 false) in
  if is_infinity f then Raise OverflowError else Ok f.

(** [a / b] on two [int]s: the correctly rounded quotient. *)
Definition SF_of_int (z : Z) : spec_float :=
  match z with
  | Z0 => S754_zero false
  | Zpos p => S754_finite false p 0
  | Zneg p => S754_finite true p 0
  end.

Definition int_truediv (a b : Z) : result float :=
  if b =? 0 then Raise ZeroDivisionError
  else
    let f := SF2Prim (SFdiv prec emax (SF_of_int a) (SF_of_int b)) in
    if is_infinity f then Raise OverflowError else Ok f.

(** [int(f)] for a [float]: truncation toward zero. *)
Definition int_of_float (f : float) : result Z :=
  match Prim2SF f with
  | S754_zero _ => Ok 0
  | S754_nan => Raise (ValueError "cannot convert float NaN to integer")
  | S754_infinity _ => Raise OverflowError
  | S754_finite s m e =>
      let mag := if 0 <=? e then Z.shiftl (Zpos m) e else Z.shiftr (Zpos m) (- e) in
      Ok (if s then - mag else mag)
  end.

(** A binary operator on numbers: [int] with [int] stays exact, anything
    with a [float] converts the [int] operand first. *)
Definition arith (fi : Z -> Z -> result value) (ff : float -> float -> result value)
           (a b : value) : result value :=
  match a, b with
  | VInt x, VInt y => fi x y
  | VInt x, VFloat y => x' <- float_of_int x ;; ff x' y
  | VFloat x, VInt y => y' <- float_of_int y ;; ff x y'
  | VFloat x, VFloat y => ff x y
  | _, _ => Raise TypeError
  end.

Definition py_add : value -> value -> result value :=
  arith (fun x y => Ok (VInt (x + y))) (fun x y => Ok (VFloat (x + y)%float)).

Definition py_mul : value -> value -> result value :=
  arith (fun x y => Ok (VInt (x * y))) (fun x y => Ok (VFloat (x * y)%float)).

Definition float_truediv (x y : float) : result value :=
  if (y =? 0)%float then Raise ZeroDivisionError else Ok (VFloat (x / y)%float).

Definition py_truediv : value -> value -> result value :=
  arith (fun x y => f <- int_truediv x y ;; Ok (VFloat f)) float_truediv.

(** [a - b]: numbers as above; two [datetime]s give a [timedelta], which
    the model keeps as its [days] (the only attribute the codec reads). *)
Inductive difference : Type :=
| DNum (v : value)
| DTimedelta (days : Z).

Definition py_sub (a b : value) : result difference :=
  match a, b with
  | VDatetime x, VDatetime y => Ok (DTimedelta (datetime_sub_days x y))
  | _, _ =>
      v <- arith (fun x y => Ok (VInt (x - y))) (fun x y => Ok (VFloat (x - y)%float)) a b ;;
      Ok (DNum v)
  end.


(** The two functions of the platform's C mathematics library that CPython
    calls for [x ** y] and [math.log(x)] on floats. They are not part of the
    repository and IEEE 754 does not fix their last bit, so the codec is
    modelled over any such pair. *)
Record libm : Type := mkLibm {
  c_pow : float -> float -> float;
  c_log : float -> float
}.

Section Libm.
Variable m : libm.

(** [x ** n] for a float [x] and an [int] [n] (CPython's [float_pow]):
    a zero exponent gives [1.0] without calling the library, a zero base
    with a negative exponent is an error, and an infinite result from a
    finite base is reported as [OverflowError]. For the remaining special
    operands CPython returns what C99 prescribes for [pow]. *)
Definition float_pow (x : float) (n : Z) : result value :=
  if n =? 0 then Ok (VFloat 1)
  else if (x =? 0)%float && (n <? 0) then Raise ZeroDivisionError
  else
    y <- float_of_int n ;;
    let r := c_pow m x y in
    if is_infinity r && is_finite x then Raise OverflowError else Ok (VFloat r).

(** [base ** n] with an [int] exponent [n]. *)
Definition py_pow (base : value) (n : Z) : result value :=
  match base with
  | VInt b =>
      if 0 <=? n then Ok (VInt (b ^ n))
      else if b =? 0 then Raise ZeroDivisionError
      else x <- float_of_int b ;; float_pow x n
  | VFloat x => float_pow x n
  | _ => Raise TypeError
  end.

(** [math.log(v)]: a domain error for arguments that are not positive;
    an [int] too large for a float is split into mantissa and exponent
    first (CPython's [loghelper]). *)
Definition int_frexp (z : Z) : float * Z :=
  let e := Z.log2 z + 1 in
  let f := SF2Prim (binary_normalize prec emax z (- e) false) in
  if (f =? 1)%float then (0.5%float, e + 1) else (f, e).

Definition math_log (v : value) : result value :=
  match v with
  | VFloat x =>
      if is_nan x then Ok (VFloat x)
      else if (x <=? 0)%float then Raise (ValueError "math domain error")
      else if is_infinity x then Ok (VFloat x)
      else Ok (VFloat (c_log m x))
  | VInt z =>
      if z <=? 0 then Raise (ValueError "math domain error")
      else
        match float_of_int z with
        | Ok x => Ok (VFloat (c_log m x))
        | Raise _ =>
            let '(x, e) := int_frexp z in
            match float_of_int e with
            | Ok e' => Ok (VFloat (c_log m x + c_log m 2 * e')%float)
            | Raise err => Raise err
            end
        end
  | _ => Raise TypeError
  end.
End Libm.

(* ================================================================== *)
(** * Bit strings ([bitstring.Bits] and [bitstring.BitStream]) *)

Definition bits : Type := list bool.

(** A [BitStream]: its bits and its read position. *)
Record BitStream : Type := mkBitStream { data : bits; pos : nat }.

(** [BitStream(b)]: a fresh stream, position 0. *)
Definition stream (b : bits) : BitStream := mkBitStream b 0.

(** [s.len - s.pos] *)
Definition remaining (s : BitStream) : Z := Z.of_nat (length (data s) - pos s).

(** [s.read(n)] for an integer [n]: the next [n] bits as a new bit string,
    the position advanced by [n]. *)
Definition read (s : BitStream) (n : Z) : result (bits * BitStream) :=
  if n <? 0 then Raise (ValueError "Cannot read negative amount.")
  else if n >? remaining s then Raise ReadError
  else
    Ok (firstn (Z.to_nat n) (skipn (pos s) (data s)),
        mkBitStream (data s) (pos s + Z.to_nat n)).

(** [Bits.tobytes()]: eight bits per byte, the last byte padded with zero
    bits on the right. *)
Fixpoint byte_of_bits (n : nat) (b : bits) : Z :=
  match n with
  | O => 0
  | S n' =>
      match b with
      | [] => 2 ^ Z.of_nat n' * 0 + byte_of_bits n' []
      | x :: b' => 2 ^ Z.of_nat n' * Z.b2z x + byte_of_bits n' b'
      end
  end.

Fixpoint tobytes_fuel (fuel : nat) (b : bits) : list Z :=
  match fuel with
  | O => []
  | S fuel' =>
      match b with
      | [] => []
      | _ => byte_of_bits 8 b :: tobytes_fuel fuel' (skipn 8 b)
      end
  end.

Definition tobytes (b : bits) : list Z := tobytes_fuel (length b) b.

(** [int.from_bytes(b, signed=False)], big-endian by default. *)
Definition int_from_bytes (b : list Z) : Z :=
  fold_left (fun acc byte => acc * 256 + byte) b 0.

(** [int.from_bytes(bitstream)]: the bit string is first turned into
    [bytes] through its [__bytes__] method, which is [tobytes]. *)
Definition int_from_bits (b : bits) : Z := int_from_bytes (tobytes b).

(** [int(v)], applied by [bitstring] to the argument of [Bits(uint=...)].
    Only numbers are modelled; [from_bits] produces no other argument. *)
Definition py_int (v : value) : result Z :=
  match v with
  | VInt z => Ok z
  | VFloat f => int_of_float f
  | _ => Raise TypeError
  end.

(** The [length] low bits of [z], most significant first. *)
Fixpoint uint_bits (length : nat) (z : Z) : bits :=
  match length with
  | O => []
  | S n => Z.testbit z (Z.of_nat n) :: uint_bits n z
  end.

(** [Bits(uint=v, length=length)]: [bitstring] refuses a zero length with
    its [CreationError]; a negative value and a value that does not fit
    [length] bits raise a plain [ValueError]. The text of a [ValueError]
    raised inside [bitstring] is not modelled: the second one quotes the
    numbers, and the model shortens it. *)
Definition Bits_uint (v : value) (length : Z) : result bits :=
  if length <=? 0 then Raise CreationError
  else
    z <- py_int v ;;
    if z <? 0
    then Raise (ValueError "uint cannot be initialised with a negative number.")
    else if 2 ^ length <=? z
    then Raise (ValueError "too large an unsigned integer for a bitstring of this length")
    else Ok (uint_bits (Z.to_nat length) z).

(** [a == b] on two bit strings. *)
Fixpoint bits_eqb (a b : bits) : bool :=
  match a, b with
  | [], [] => true
  | x :: a', y :: b' => Bool.eqb x y && bits_eqb a' b'
  | _, _ => false
  end.

(** [Bits(bin=s)] for a string [s] of binary digits; the model keeps such a
    string as the list of its digits. *)
Definition Bits_bin (digits : list bool) : bits := digits.

(** [bin(n)[2:]] for [n >= 0]: the binary digits of [n], most significant
    first, without leading zeros ([bin(0)] is ['0b0']). *)
Definition bin_digits (n : Z) : list bool :=
  if n =? 0 then [false] else uint_bits (Z.to_nat (Z.log2 n + 1)) n.

(** [s.zfill(width)] on a digit string. *)
Definition zfill (width : nat) (s : list bool) : list bool :=
  repeat false (width - length s) ++ s.

(** [s[-n:]]: the last [n] characters. *)
Definition last_n (n : nat) (s : list bool) : list bool :=
  skipn (length s - n) s.

(** [Bits(hex_string)]: four bits per hexadecimal digit after the ['0x']
    prefix. *)
Definition hex_digit (c : ascii) : option Z :=
  let n := Z.of_N (N_of_ascii c) in
  if (48 <=? n) && (n <=? 57) then Some (n - 48)
  else if (97 <=? n) && (n <=? 102) then Some (n - 87)
  else if (65 <=? n) && (n <=? 70) then Some (n - 55)
  else None.

Fixpoint Bits_hex_digits (s : string) : result bits :=
  match s with
  | EmptyString => Ok []
  | String c s' =>
      match hex_digit c with
      | Some d => rest <- Bits_hex_digits s' ;; Ok (uint_bits 4 d ++ rest)
      | None => Raise CreationError
      end
  end.

Definition Bits_hex (s : string) : result bits :=
  match s with
  | String "0" (String "x" s') => Bits_hex_digits s'
  | _ => Raise CreationError
  end.

(** [range(0, stop, step)] for a positive [step]. *)
Definition py_range (stop step : Z) : list Z :=
  map (fun i => Z.of_nat i * step) (seq 0 (Z.to_nat ((stop + step - 1) / step))).

(** [ord(c)] and [chr(i)]. Code points from 256 on are outside the string
    model; the codec never asks for one. *)
Definition ord (c : ascii) : Z := Z.of_N (N_of_ascii c).

Definition chr (i : Z) : result string :=
  if (0 <=? i) && (i <? 256) then Ok (String (ascii_of_N (Z.to_N i)) "")
  else Raise (ValueError "chr() arg not in range").


(* ================================================================== *)
(** * Field elements ([teds_element.py]) *)

(** The subclasses of [BasicTedsElement]; the scaled kinds carry their
    [start] and [step]. *)
Inductive kind : Type :=
| UnInt
| Chr5
| Ascii
| Date
| Single
| ConRes (start step : value)
| ConRelRes (start step : value)
| Enum
| Constant.

(** An element object: its class, its [len] attribute (in bits, [-1] for
    the rest of the stream) and its [val] attribute. *)
Record element : Type := mkElement { cls : kind; len : Z; val : value }.

(** The constructors, with the default [val] of each dataclass. *)
Definition UnIntTedsElement (n : Z) : element := mkElement UnInt n VNone.
Definition Chr5TedsElement (n : Z) : element := mkElement Chr5 n (VStr "").
Definition AsciiTedsElement (n : Z) : element := mkElement Ascii n (VStr "").
Definition DateTedsElement (n : Z) : element := mkElement Date n VNone.
Definition ConResTedsElement (n : Z) (start step : value) : element :=
  mkElement (ConRes start step) n VNone.
Definition ConRelResTedsElement (n : Z) (start step : value) : element :=
  mkElement (ConRelRes start step) n VNone.
Definition ConstantTedsElement (n : Z) (v : string) : element :=
  mkElement Constant n (VStr v).

Definition set_val (e : element) (v : value) : element :=
  mkElement (cls e) (len e) v.

(** [BasicTedsElement.zero_pad_bitstream]: zeros appended up to the next
    multiple of eight bits. *)
Definition zero_pad_bitstream (bitstream : bits) : bits :=
  let target_len := (Z.of_nat (length bitstream) + 7) / 8 * 8 in
  let pad := target_len - Z.of_nat (length bitstream) in
  bitstream ++ repeat false (Z.to_nat pad).

(** [BasicTedsElement.reverse_bitstream]: [bitstream[::-1]]. *)
Definition reverse_bitstream (bitstream : bits) : bits := rev bitstream.

(** [BasicTedsElement.to_bitstream]: the [len]-bit unsigned representation,
    reversed. *)
Definition to_bitstream (e : element) (int_val : value) : result bits :=
  b <- Bits_uint int_val (len e) ;; Ok (reverse_bitstream b).

(** The integer every numeric [from_bits] starts from:
    [int.from_bytes(reverse_bitstream(zero_pad_bitstream(bitstream)))]. *)
Definition raw_of_bits (bitstream : bits) : Z :=
  int_from_bits (reverse_bitstream (zero_pad_bitstream bitstream)).

(** The loop of [Chr5TedsElement.from_bits]: one five-bit read per index of
    [range(0, len(bitstream), 5)]. *)
Fixpoint chr5_loop (idx : list Z) (bitstream : BitStream) (acc : string)
  : result string :=
  match idx with
  | [] => Ok acc
  | _ :: idx' =>
      '(cur_val, bitstream') <- read bitstream 5 ;;
      let cur_char := reverse_bitstream (zero_pad_bitstream cur_val) in
      c <- chr (ord "`" + int_from_bits cur_char) ;;
      chr5_loop idx' bitstream' (String.append acc c)
  end.

(** The loop of [AsciiTedsElement.from_bits]: an index of
    [range(0, len(bitstream), 7)] reads seven bits only when seven are
    left. *)
Fixpoint ascii_loop (idx : list Z) (bitstream : BitStream) (acc : string)
  : result string :=
  match idx with
  | [] => Ok acc
  | _ :: idx' =>
      if remaining bitstream >=? 7 then
        '(cur_val, bitstream') <- read bitstream 7 ;;
        let cur_char := reverse_bitstream (zero_pad_bitstream cur_val) in
        c <- chr (int_from_bits cur_char) ;;
        ascii_loop idx' bitstream' (String.append acc c)
      else ascii_loop idx' bitstream acc
  end.

(** The loops of the two string [to_bits]: the binary digits of each
    character, filled to the group width and reversed. *)
Fixpoint chr5_digits (s : string) : list bool :=
  match s with
  | EmptyString => []
  | String char s' =>
      let char_val := bin_digits (ord char) in
      rev (last_n 5 (zfill 5 char_val)) ++ chr5_digits s'
  end.

Fixpoint ascii_digits (s : string) : list bool :=
  match s with
  | EmptyString => []
  | String char s' =>
      let char_val := bin_digits (ord char) in
      rev (zfill 7 char_val) ++ ascii_digits s'
  end.

(** [datetime(1998, 1, 1)] *)
Definition epoch : datetime := datetime_ymd 1998 1 1.

Section Elements.
Variable m : libm.

(** [from_bits]: the element with its [val] set from the bits read for
    it. [bitstream] is the window [process] has read, a stream of its own
    at position 0. *)
Definition from_bits (e : element) (bitstream : bits) : result element :=
  match cls e with
  | UnInt => Ok (set_val e (VInt (raw_of_bits bitstream)))
  | Chr5 =>
      s <- chr5_loop (py_range (Z.of_nat (length bitstream)) 5) (stream bitstream) "" ;;
      Ok (set_val e (VStr s))
  | Ascii =>
      s <- ascii_loop (py_range (Z.of_nat (length bitstream)) 7) (stream bitstream) "" ;;
      Ok (set_val e (VStr s))
  | Date =>
      d <- datetime_add_days epoch (raw_of_bits bitstream) ;;
      Ok (set_val e (VDatetime d))
  | Single => Raise NotImplementedError
  | ConRes start step =>
      t <- py_mul (VInt (raw_of_bits bitstream)) step ;;
      v <- py_add start t ;;
      Ok (set_val e v)
  | ConRelRes start step =>
      t <- py_mul (VInt 2) step ;;
      base <- py_add (VInt 1) t ;;
      p <- py_pow m base (raw_of_bits bitstream) ;;
      v <- py_mul start p ;;
      Ok (set_val e v)
  | Enum => Raise NotImplementedError
  | Constant => Ok e
  end.

(** [BasicTedsElement.to_bits], which the subclasses call first. *)
Definition super_to_bits (e : element) : result unit :=
  match val e with
  | VNone => Raise (ValueError "Cannot convert None to bits")
  | _ => Ok tt
  end.

(** [to_bits]: the bits of the element, or Python's [None] for a
    [ConstantTedsElement]. *)
Definition to_bits (e : element) : result (option bits) :=
  match cls e with
  | UnInt =>
      _ <- super_to_bits e ;;
      b <- to_bitstream e (val e) ;; Ok (Some b)
  | Chr5 =>
      _ <- super_to_bits e ;;
      match val e with
      | VStr s => Ok (Some (Bits_bin (chr5_digits s)))
      | _ => Raise TypeError
      end
  | Ascii =>
      _ <- super_to_bits e ;;
      match val e with
      | VStr s => Ok (Some (Bits_bin (ascii_digits s)))
      | _ => Raise TypeError
      end
  | Date =>
      _ <- super_to_bits e ;;
      date_val <- py_sub (val e) (VDatetime epoch) ;;
      match date_val with
      | DTimedelta days => b <- to_bitstream e (VInt days) ;; Ok (Some b)
      | DNum _ => Raise TypeError
      end
  | Single => Raise NotImplementedError
  | ConRes start step =>
      _ <- super_to_bits e ;;
      d <- py_sub (val e) start ;;
      match d with
      | DNum d' =>
          int_val <- py_truediv d' step ;;
          b <- to_bitstream e int_val ;; Ok (Some b)
      | DTimedelta _ => Raise TypeError
      end
  | ConRelRes start step =>
      _ <- super_to_bits e ;;
      q <- py_truediv (val e) start ;;
      num <- math_log m q ;;
      t <- py_mul (VInt 2) step ;;
      base <- py_add (VInt 1) t ;;
      den <- math_log m base ;;
      int_val <- py_truediv num den ;;
      b <- to_bitstream e int_val ;; Ok (Some b)
  | Enum => Raise NotImplementedError
  | Constant => Ok None
  end.
End Elements.

(* ================================================================== *)
(** * The template engine ([teds.py]) *)

(** A Python [dict] from field names to elements, in insertion order. *)
Definition dict : Type := list (string * element).

Fixpoint dict_get (d : dict) (key : string) : option element :=
  match d with
  | [] => None
  | (k, e) :: d' => if String.eqb k key then Some e else dict_get d' key
  end.

(** [d[key] = e]: an existing key keeps its place, a new one goes last. *)
Fixpoint dict_set (d : dict) (key : string) (e : element) : dict :=
  match d with
  | [] => [(key, e)]
  | (k, e0) :: d' =>
      if String.eqb k key then (k, e) :: d' else (k, e0) :: dict_set d' key e
  end.

(** [d.update(td)] *)
Definition dict_update (d td : dict) : dict :=
  fold_left (fun acc kv => dict_set acc (fst kv) (snd kv)) td d.

(** [d[key].val], [VNone] standing in for a missing key (the engine only
    looks up fields it has just read). *)
Definition field_val (d : dict) (key : string) : value :=
  match dict_get d key with
  | Some e => val e
  | None => VNone
  end.

(** [v == z] for an integer literal [z]. *)
Definition val_eq_int (v : value) (z : Z) : bool :=
  match v with
  | VInt x => x =? z
  | VFloat f =>
      match float_of_int z with
      | Ok f' => (f =? f')%float
      | Raise _ => false
      end
  | _ => false
  end.

(** [StandardTeds.ni_preamble = hex(0xDA6E0CCCBA)] *)
Definition ni_preamble : string := "0xda6e0cccba".

(** The preamble as bits, [BitStream(ni_preamble)]. *)
Definition ni_preamble_bits : bits :=
  match Bits_hex ni_preamble with
  | Ok b => b
  | Raise _ => []
  end.

(** A [StandardTeds] object under construction: [self.teds],
    [self.bitstream], and the lines printed so far. *)
Record StandardTeds : Type := mkStandardTeds {
  teds : dict;
  bitstream : BitStream;
  stdout : list string
}.

Section Templates.
Variable m : libm.

(** The loop of [process]: each element of [teds_dict], in order, reads
    its bits and is updated in place. *)
Fixpoint process_loop (teds_dict : dict) (bs : BitStream)
  : result (dict * BitStream) :=
  match teds_dict with
  | [] => Ok ([], bs)
  | (key, e) :: rest =>
      '(b, bs1) <- (if len e =? -1 then read bs (remaining bs)
                    else read bs (len e)) ;;
      e' <- from_bits m e b ;;
      '(rest', bs2) <- process_loop rest bs1 ;;
      Ok ((key, e') :: rest', bs2)
  end.

(** [StandardTeds.process] *)
Definition process (teds_dict : dict) (self : StandardTeds) : result StandardTeds :=
  '(td, bs) <- process_loop teds_dict (bitstream self) ;;
  Ok (mkStandardTeds (dict_update (teds self) td) bs (stdout self)).

Definition accelerometer_no_ext_template : StandardTeds -> result StandardTeds :=
  process
    [ ("sens_ref", ConRelResTedsElement 16 (VFloat 5e-7) (VFloat 0.00015));
      ("tf_hp_s", ConRelResTedsElement 8 (VFloat 0.005) (VFloat 0.03)) ].

Definition force_no_ext_template (self : StandardTeds) : result StandardTeds :=
  Raise NotImplementedError.

Definition accelerometer_ext_template : StandardTeds -> result StandardTeds :=
  process
    [ ("passive", ConstantTedsElement 0 "0");
      ("passive_ctrl_function_mask", ConstantTedsElement 0 "0b11");
      ("passive_read_write", ConstantTedsElement 0 "3");
      ("passive_function_type", ConstantTedsElement 0 "0");
      ("passive_function", ConstantTedsElement 0 "xx,00");
      ("sens_initialize", ConstantTedsElement 0 "0");
      ("sens_ctrl_function_mask", ConstantTedsElement 0 "0");
      ("sens_read_write", ConstantTedsElement 0 "3");
      ("sens_function_type", ConstantTedsElement 0 "1");
      ("sens_function_10", ConstantTedsElement 0 "10");
      ("sens_function_01", ConstantTedsElement 0 "10");
      ("default_fr", UnIntTedsElement 2);
      ("multiplexer_capable", UnIntTedsElement 1);
      ("sens_ref_01", ConRelResTedsElement 16 (VFloat 5e-7) (VInt 1));
      ("sens_ref_10", ConRelResTedsElement 16 (VFloat 5e-7) (VInt 1));
      ("tf_hp_s_01", ConRelResTedsElement 8 (VFloat 0.005) (VInt 1));
      ("tf_hp_s_10", ConRelResTedsElement 8 (VFloat 0.005) (VInt 1)) ].

Definition force_ext_template (self : StandardTeds) : result StandardTeds :=
  Raise NotImplementedError.

Definition transfer_function_template : StandardTeds -> result StandardTeds :=
  process
    [ ("tf_sp", ConRelResTedsElement 7 (VInt 10) (VFloat 0.05));
      ("tf_kpr", ConRelResTedsElement 9 (VInt 100) (VFloat 0.01));
      ("tf_kpq", ConRelResTedsElement 9 (VFloat 0.4) (VFloat 0.01));
      ("tf_sl", ConResTedsElement 7 (VFloat (-6.3)) (VFloat 0.1));
      ("temp_coef", ConResTedsElement 6 (VFloat (-0.8)) (VFloat 0.025)) ].

Definition thermocouple_template : StandardTeds -> result StandardTeds :=
  process
    [ ("elec_sig_type", ConstantTedsElement 0 "Voltage Sensor");
      ("minimum_temperature", ConResTedsElement 11 (VInt (-273)) (VInt 1));
      ("maximum_temperature", ConResTedsElement 11 (VInt (-273)) (VInt 1));
      ("minimum_electrical_output", ConResTedsElement 7 (VFloat (-0.025)) (VFloat 0.001));
      ("maximum_electrical_output", ConResTedsElement 7 (VFloat (-0.025)) (VFloat 0.001));
      ("mapping_method", ConstantTedsElement 0 "Voltage Sensor");
      ("thermocouple_type", UnIntTedsElement 4);
      ("cjc_required_or_compensated", UnIntTedsElement 1);
      ("thermocouple_resistance", ConRelResTedsElement 12 (VInt 1) (VInt 1));
      ("sensor_response_time", ConRelResTedsElement 6 (VFloat 1e-6) (VInt 1)) ].

Definition accelerometer_force_template (self : StandardTeds) : result StandardTeds :=
  self <- process
    [ ("acceleration_force", UnIntTedsElement 1);
      ("extended_functionality", UnIntTedsElement 1) ] self ;;
  let acceleration_force := field_val (teds self) "acceleration_force" in
  let extended_functionality := field_val (teds self) "extended_functionality" in
  self <-
    (if val_eq_int acceleration_force 0 && val_eq_int extended_functionality 0
     then accelerometer_no_ext_template self
     else if val_eq_int acceleration_force 1 && val_eq_int extended_functionality 0
     then force_no_ext_template self
     else if val_eq_int acceleration_force 0 && val_eq_int extended_functionality 1
     then accelerometer_ext_template self
     else if val_eq_int acceleration_force 1 && val_eq_int extended_functionality 1
     then force_ext_template self
     else Raise (ValueError "")) ;;
  self <- process
    [ ("direction", UnIntTedsElement 2);
      ("transducer_weight", ConRelResTedsElement 6 (VFloat 0.1) (VFloat 0.1));
      ("elec_sig_type", ConstantTedsElement 0 "Voltage Sensor");
      ("map_method", ConstantTedsElement 0 "Linear");
      ("ACDCCoupling", ConstantTedsElement 0 "AC");
      ("sign", UnIntTedsElement 1);
      ("transfer_function", UnIntTedsElement 1) ] self ;;
  self <-
    (if val_eq_int (field_val (teds self) "transfer_function") 1
     then transfer_function_template self
     else Ok self) ;;
  process
    [ ("ref_req", ConRelResTedsElement 8 (VFloat 0.35) (VFloat 0.0175));
      ("ref_temp", ConResTedsElement 5 (VInt 15) (VFloat 0.5)) ] self.

(** [load_template]: the [match] has the two cases and no default. *)
Definition load_template (template_id : value) (self : StandardTeds)
  : result StandardTeds :=
  if val_eq_int template_id 25 then accelerometer_force_template self
  else if val_eq_int template_id 36 then thermocouple_template self
  else Ok self.

Definition end_template : StandardTeds -> result StandardTeds :=
  process
    [ ("calibration_date", DateTedsElement 16);
      ("calibration_initals", Chr5TedsElement 15);
      ("calibration_period", UnIntTedsElement 12);
      ("measurement_location_id", UnIntTedsElement 11);
      ("end_selector", UnIntTedsElement 2);
      ("extended_end_selector", UnIntTedsElement 1);
      ("user_data", AsciiTedsElement (-1)) ].

(** [check_basic_teds] compares the element object itself (not its
    [val]) with [2]; an element never equals an [int], so the line is
    printed for every input. Nothing is raised. *)
Definition check_basic_teds (self : StandardTeds) : result StandardTeds :=
  Ok (mkStandardTeds (teds self) (bitstream self)
        (stdout self ++ ["Sensor utilizes legacy teds format!"])).

(** The header fields read by [__init__]. *)
Definition basic_teds : dict :=
  [ ("manufacturer_id", UnIntTedsElement 14);
    ("model_number", UnIntTedsElement 15);
    ("version_letter", UnIntTedsElement 5);
    ("version_number", UnIntTedsElement 6);
    ("serial_number", UnIntTedsElement 24);
    ("start_selector", UnIntTedsElement 2);
    ("template_id", UnIntTedsElement 8) ].

(** What [__init__] does once the preamble is dealt with. *)
Definition init_body (self : StandardTeds) : result StandardTeds :=
  self <- process basic_teds self ;;
  self <- check_basic_teds self ;;
  self <- load_template (field_val (teds self) "template_id") self ;;
  end_template self.

(** [StandardTeds.__init__(bitstream, has_preamble)] *)
Definition StandardTeds_init (bs : BitStream) (has_preamble : bool)
  : result StandardTeds :=
  let self := mkStandardTeds [] bs [] in
  self <-
    (if has_preamble then
       '(preamble, bs') <- read (bitstream self) 40 ;;
       if negb (bits_eqb preamble ni_preamble_bits)
       then Raise (ValueError "Preamble does not match the default")
       else Ok (mkStandardTeds (teds self) bs' (stdout self))
     else Ok self) ;;
  init_body self.

(** Decoding: the [teds] dictionary of a successfully constructed
    [StandardTeds] over a fresh stream of the given bits. *)
Definition decode (b : bits) (has_preamble : bool) : result dict :=
  self <- StandardTeds_init (stream b) has_preamble ;; Ok (teds self).

(** The loop of [write_teds_to_file]: every element that is not a
    [ConstantTedsElement] appends its [to_bits()]; appending [None]
    is a [TypeError]. *)
Fixpoint write_loop (d : dict) (out : bits) : result bits :=
  match d with
  | [] => Ok out
  | (key, e) :: d' =>
      match cls e with
      | Constant => write_loop d' out
      | _ =>
          r <- to_bits m e ;;
          match r with
          | Some b => write_loop d' (out ++ b)
          | None => Raise TypeError
          end
      end
  end.

(** The bit stream [write_teds_to_file] assembles: it starts from
    [BitStream(cls.ni_preamble)]. *)
Definition write_teds_bitstream (d : dict) : result bits :=
  write_loop d ni_preamble_bits.

(** [StandardTeds.write_teds_to_file]: the bytes written to the file,
    one byte ([0] or [1]) per bit. *)
Definition write_teds_to_file (d : dict) : result (list Z) :=
  b <- write_teds_bitstream d ;; Ok (map Z.b2z b).
End Templates.

(** [StandardTeds.convert_nidaqmax_list_to_bitstream]: each integer of the
    hardware list becomes its binary digits, reversed and then padded.
    [bin] of a negative integer starts with a sign, which [bitstring]
    rejects with a plain [ValueError] (its text is not modelled). *)
Fixpoint nidaqmax_loop (teds_data : list Z) (acc : bits) : result bits :=
  match teds_data with
  | [] => Ok acc
  | item :: rest =>
      if item <? 0 then Raise (ValueError "bitstring cannot read a signed literal")
      else
        let b := reverse_bitstream (Bits_bin (bin_digits item)) in
        nidaqmax_loop rest (acc ++ zero_pad_bitstream b)
  end.

Definition convert_nidaqmax_list_to_bitstream (teds_data : list Z) : result BitStream :=
  b <- nidaqmax_loop teds_data [] ;; Ok (stream b).

(* ================================================================== *)
(** * Virtual TEDS files ([StandardTeds.read_bitstream_from_file]) *)

(** The content of a file opened in binary mode is a [bytes] object, here
    the list of its bytes (each between 0 and 255). *)
Definition bytes : Type := list Z.

Definition ascii_of_Z (c : Z) : ascii := ascii_of_N (Z.to_N c).

Definition hexdigits : string := "0123456789abcdef".

Definition hexdigit (d : Z) : ascii :=
  match String.get (Z.to_nat d) hexdigits with
  | Some c => c
  | None => "0"%char
  end.

(** One byte in [repr(bytes)] (CPython's [PyBytes_Repr]): the quote and the
    backslash are escaped, tab, line feed and carriage return have their
    letters, the other bytes outside the printable ASCII range are written
    with a backslash, an x and two hexadecimal digits, a printable byte is
    its character. *)
Definition byte_repr (quote c : Z) : string :=
  if (c =? quote) || (c =? 92) then String (ascii_of_Z 92) (String (ascii_of_Z c) "")
  else if c =? 9 then String (ascii_of_Z 92) "t"
  else if c =? 10 then String (ascii_of_Z 92) "n"
  else if c =? 13 then String (ascii_of_Z 92) "r"
  else if (c <? 32) || (127 <=? c)
  then String (ascii_of_Z 92)
         (String "x" (String (hexdigit (c / 16)) (String (hexdigit (c mod 16)) "")))
  else String (ascii_of_Z c) "".

(** [str(b)] for a [bytes] object [b]: the letter b, a quote, the bytes, the
    quote again. The quote is the apostrophe (39) unless the bytes hold an
    apostrophe and no double quote (34). *)
Definition bytes_str (b : bytes) : string :=
  let squotes := existsb (Z.eqb 39) b in
  let dquotes := existsb (Z.eqb 34) b in
  let quote := if squotes && negb dquotes then 34 else 39 in
  String "b"
    (String (ascii_of_Z quote)
       (String.append (String.concat "" (map (byte_repr quote) b))
          (String (ascii_of_Z quote) ""))).

(** [s[n:]] *)
Fixpoint str_from (n : nat) (s : string) : string :=
  match n, s with
  | O, _ => s
  | S n', String _ s' => str_from n' s'
  | S _, EmptyString => ""
  end.

(** [s[start::step]] for a positive [step]: the character at index [start]
    and every [step]-th one after it. *)
Fixpoint str_step (start step : nat) (s : string) : string :=
  match s with
  | EmptyString => ""
  | String c s' =>
      match start with
      | O => String c (str_step (step - 1) step s')
      | S start' => str_step start' step s'
      end
  end.

(** The string [read_bitstream_from_file] hands to [BitStream]:
    ["0b" + str(teds_data)[2:][3::4]]. *)
Definition virtual_teds_literal (teds_data : bytes) : string :=
  let teds_data := str_from 2 (bytes_str teds_data) in
  String.append "0b" (str_step 3 4 teds_data).

(* ================================================================== *)
(** * Channels and tasks ([sdlma_hardware.py]) *)

(** The exceptions of this layer: those of the codec, [KeyError] and
    [OSError]. *)
Inductive error : Type :=
| TedsError (e : exn)
| KeyError (key : string)
| OSError.

(** What a channel knows about its sensor: the decoded TEDS, or the
    dictionary of numbers the user has given. *)
Inductive sensor_info : Type :=
| TedsInfo (d : dict)
| UserInfo (d : list (string * value)).

Fixpoint info_get (d : list (string * value)) (key : string) : option value :=
  match d with
  | [] => None
  | (k, v) :: d' => if String.eqb k key then Some v else info_get d' key
  end.

Fixpoint info_set (d : list (string * value)) (key : string) (v : value)
  : list (string * value) :=
  match d with
  | [] => [(key, v)]
  | (k, v0) :: d' =>
      if String.eqb k key then (k, v) :: d' else (k, v0) :: info_set d' key v
  end.

(** A channel object. [voltage_range] is the tuple given to the
    constructor; the code reads its entries 0 and 1. *)
Record SDLMAChannel : Type := mkSDLMAChannel {
  name : string;
  hw_teds : bool;
  channel_info : sensor_info;
  is_resp : bool;
  direction : string;
  voltage_range : value * value;
  disp_name : string
}.

(** [SDLMAChannel.__init__] *)
Definition SDLMAChannel_init (name : string) (hw_teds : bool)
           (voltage_range : value * value) : SDLMAChannel :=
  mkSDLMAChannel name hw_teds (UserInfo []) false "+Z" voltage_range "".

Definition set_info (self : SDLMAChannel) (i : sensor_info) : SDLMAChannel :=
  mkSDLMAChannel (name self) (hw_teds self) i (is_resp self) (direction self)
                 (voltage_range self) (disp_name self).

Definition set_is_resp (self : SDLMAChannel) (r : bool) : SDLMAChannel :=
  mkSDLMAChannel (name self) (hw_teds self) (channel_info self) r (direction self)
                 (voltage_range self) (disp_name self).

Section Hardware.
Variable m : libm.

(** The file system: the bytes of the file at a path, if it can be opened
    and read. *)
Variable file_bytes : string -> option bytes.

(** [BitStream(s)] for a string [s]: the string initialiser of
    [bitstring]. *)
Variable BitStream_of_str : string -> result bits.

(** [StandardTeds.read_bitstream_from_file] *)
Definition read_bitstream_from_file (file_path : string) : BitStream + error :=
  match file_bytes file_path with
  | None => inr OSError
  | Some teds_data =>
      match BitStream_of_str (virtual_teds_literal teds_data) with
      | Ok b => inl (stream b)
      | Raise e => inr (TedsError e)
      end
  end.

(** The two TEDS branches of [set_channel_info] end alike: the decoded
    dictionary becomes [channel_info], then [is_resp] is read from its
    [acceleration_force] entry. *)
Definition set_teds_info (self : SDLMAChannel) (bs : BitStream) (has_preamble : bool)
  : SDLMAChannel * option error :=
  match StandardTeds_init m bs has_preamble with
  | Raise e => (self, Some (TedsError e))
  | Ok st =>
      let self := set_info self (TedsInfo (teds st)) in
      match dict_get (teds st) "acceleration_force" with
      | None => (self, Some (KeyError "acceleration_force"))
      | Some e => (set_is_resp self (val_eq_int (val e) 0), None)
      end
  end.

(** [voltage_range[i] / channel_info["sens_ref"]], stored under [key]. *)
Definition set_limit (self : SDLMAChannel) (d : list (string * value)) (key : string)
           (v : value) : (SDLMAChannel * list (string * value)) + (SDLMAChannel * error) :=
  match info_get d "sens_ref" with
  | None => inr (self, KeyError "sens_ref")
  | Some s =>
      match py_truediv v s with
      | Raise e => inr (self, TedsError e)
      | Ok q => let d' := info_set d key q in inl (set_info self (UserInfo d'), d')
      end
  end.

(** [SDLMAChannel.set_channel_info]: the channel after the call, and the
    exception it raised, if any. An argument left out is [None]; [None],
    an empty list, an empty string and an empty dictionary are false. What
    the method prints is not modelled. *)
Definition set_channel_info (self : SDLMAChannel) (teds_list : option (list Z))
           (teds_file_path : option string)
           (teds_info : option (list (string * value)))
  : SDLMAChannel * option error :=
  match teds_list, teds_file_path, teds_info with
  | Some (item :: rest), _, _ =>
      match convert_nidaqmax_list_to_bitstream (item :: rest) with
      | Raise e => (self, Some (TedsError e))
      | Ok bs => set_teds_info self bs false
      end
  | _, Some (String c path), _ =>
      match read_bitstream_from_file (String c path) with
      | inr e => (self, Some e)
      | inl bs => set_teds_info self bs true
      end
  | _, _, Some (kv :: d) =>
      let self := set_info self (UserInfo (kv :: d)) in
      match set_limit self (kv :: d) "min_val" (fst (voltage_range self)) with
      | inr (self, e) => (self, Some e)
      | inl (self, d1) =>
          match set_limit self d1 "max_val" (snd (voltage_range self)) with
          | inr (self, e) => (self, Some e)
          | inl (self, d2) =>
              match info_get d2 "sens_ref" with
              | None => (self, Some (KeyError "sens_ref"))
              | Some _ => (self, None)
              end
          end
      end
  | _, _, _ =>
      (self, Some (TedsError (ValueError "No hw_teds, vi_teds or sensor info given")))
  end.
End Hardware.

(** [range(1, n + 1)] *)
Definition range_from_1 (n : Z) : list Z := map Z.of_nat (seq 1 (Z.to_nat n)).

(** [min(l, key=key)]: the first element with the least key; a
    [ValueError] for an empty sequence (its text varies with the Python
    version). *)
Definition min_by (key : Z -> Z) (l : list Z) : result Z :=
  match l with
  | [] => Raise (ValueError "min() arg is an empty sequence")
  | x :: l' => Ok (fold_left (fun best y => if key y <? key best then y else best) l' x)
  end.

(** [nearest_even_divisor] *)
Definition nearest_even_divisor (n target : Z) : result Z :=
  let divisors := filter (fun i => n mod i =? 0) (range_from_1 n) in
  closest <- min_by (fun x => Z.abs (x - target)) divisors ;;
  Ok closest.

(* ================================================================== *)
(** * Directions and signal names ([sdlma_uff.py], [sdlma_ema.py]) *)

(** [direction_to_int]: the last branch builds a [ValueError] and does not
    raise it, so that the function returns [None] there. *)
Definition direction_to_int (direction_str : string) : option Z :=
  if String.eqb direction_str "Scalar" then Some 0
  else if String.eqb direction_str "+X" then Some 1
  else if String.eqb direction_str "-X" then Some (-1)
  else if String.eqb direction_str "+Y" then Some 2
  else if String.eqb direction_str "-Y" then Some (-2)
  else if String.eqb direction_str "+Z" then Some 3
  else if String.eqb direction_str "-Z" then Some (-3)
  else None.

Module Measurement.

(** A time series as [asdict(SDLMATimeSeriesSEP005(...))] gives it; [data]
    is a one-dimensional array. *)
Record time_series : Type := mkTimeSeries {
  data : list float;
  unit_str : string;
  fs : Z;
  quantity : string;
  name : string;
  direction : string
}.

(** The loop of [SDLMATimeSeriesSEP005.from_array] over the rows of [arr];
    [names[i]] and [directions[i]] raise [IndexError] past the end. *)
Fixpoint from_array_loop (rows : list (list float)) (i : nat) (unit_str : string)
         (fs : Z) (quantity : string) (names directions : list string)
  : option (list time_series) :=
  match rows with
  | [] => Some []
  | row :: rows' =>
      match nth_error names i, nth_error directions i with
      | Some n, Some d =>
          match from_array_loop rows' (S i) unit_str fs quantity names directions with
          | Some l => Some (mkTimeSeries row unit_str fs quantity n d :: l)
          | None => None
          end
      | _, _ => None
      end
  end.

(** [SDLMATimeSeriesSEP005.from_array], [None] standing for [IndexError]. *)
Definition from_array (arr : list (list float)) (unit_str : string) (fs : Z)
           (quantity : string) (names directions : list string)
  : option (list time_series) :=
  from_array_loop arr 0 unit_str fs quantity names directions.

(** The signals of a [SDLMAMeasurement]. *)
Record SDLMAMeasurement : Type := mkMeasurement {
  exc : list time_series;
  resp : list time_series
}.

(** [SDLMAMeasurement.get_names] *)
Definition get_names (self : SDLMAMeasurement) : list string * list string :=
  (map name (exc self), map name (resp self)).

(** The inner loop of [SDLMAEMA.get_unique_names]. *)
Definition add_names (unique_names names : list string) : list string :=
  fold_left
    (fun unique_names name =>
       if existsb (String.eqb name) unique_names then unique_names
       else unique_names ++ [name])
    names unique_names.

(** [SDLMAEMA.get_unique_names] over [self.measurements]. *)
Definition get_unique_names (measurements : list SDLMAMeasurement) : list string :=
  fold_left
    (fun unique_names measurement =>
       let '(exc_names, resp_names) := get_names measurement in
       add_names unique_names (exc_names ++ resp_names))
    measurements [].

End Measurement.

(* ================================================================== *)
(** * A reference mathematics library

    One concrete [libm], so that the codec can be run on examples: powers
    by repeated squaring, logarithms by range reduction and the series of
    the inverse hyperbolic tangent. It approximates the C library (its last
    digits differ) and, like it, gives [0] for the logarithm of [1]. *)

Fixpoint pow_pos (x : float) (p : positive) : float :=
  match p with
  | xH => x
  | xO p' => let y := pow_pos x p' in (y * y)%float
  | xI p' => let y := pow_pos x p' in (x * (y * y))%float
  end.

Definition ref_pow (x y : float) : float :=
  match int_of_float y with
  | Ok Z0 => 1%float
  | Ok (Zpos p) => pow_pos x p
  | Ok (Zneg p) => (1 / pow_pos x p)%float
  | Raise _ => nan
  end.

Definition ln2 : float := 0.6931471805599453%float.

Fixpoint atanh_series (n : nat) (k : Z) (t2 : float) : float :=
  match n with
  | O => 0%float
  | S n' =>
      match float_of_int k with
      | Ok k' => (1 / k' + t2 * atanh_series n' (k + 2) t2)%float
      | Raise _ => nan
      end
  end.

Definition ref_log (x : float) : float :=
  let '(mant, e) := Z.frexp x in
  let '(mant, e) :=
    if (mant <? 0.70710678118654757)%float then ((2 * mant)%float, e - 1) else (mant, e) in
  let t := ((mant - 1) / (mant + 1))%float in
  match float_of_int e with
  | Ok e' => (e' * ln2 + 2 * t * atanh_series 14 1 (t * t))%float
  | Raise _ => nan
  end.

Definition ref_libm : libm := mkLibm ref_pow ref_log.

(* ================================================================== *)
(** * Specification-level definitions

    The vocabulary of the statements below: the numeric reading of a bit
    string, the windows of a stream, the fields of the header and of the
    trailer as functions of the unread bits, and sample bit streams. *)

(** The value of a bit string sent least significant bit first. *)
Fixpoint lsb_value (b : bits) : Z :=
  match b with
  | [] => 0
  | x :: b' => Z.b2z x + 2 * lsb_value b'
  end.

(** The value of a bit string read most significant bit first. *)
Definition msb_step (acc : Z) (x : bool) : Z := 2 * acc + Z.b2z x.
Definition msb_value (b : bits) : Z := fold_left msb_step b 0.

(** The characters of the first [k] groups of a window, as the two string
    decoders build them. *)
Fixpoint chr5_chars (k : nat) (b : bits) : string :=
  match k with
  | O => ""
  | S k' =>
      String (ascii_of_N (Z.to_N (96 + lsb_value (firstn 5 b))))
             (chr5_chars k' (skipn 5 b))
  end.

Fixpoint ascii_chars (k : nat) (b : bits) : string :=
  match k with
  | O => ""
  | S k' =>
      String (ascii_of_N (Z.to_N (lsb_value (firstn 7 b))))
             (ascii_chars k' (skipn 7 b))
  end.

Definition last_day_code : Z := max_ordinal - toordinal epoch.

Definition chr5_group (c : ascii) : bits :=
  rev (last_n 5 (zfill 5 (bin_digits (ord c)))).

Definition ascii_group (c : ascii) : bits :=
  rev (zfill 7 (bin_digits (ord c))).

Definition is_chr5 (c : ascii) : bool := (96 <=? ord c) && (ord c <? 128).
Definition is_ascii7 (c : ascii) : bool := ord c <? 128.

Fixpoint all_chars (p : ascii -> bool) (s : string) : bool :=
  match s with
  | EmptyString => true
  | String c s' => p c && all_chars p s'
  end.

(** The elements of a field list decoded from the unread bits [b], window
    after window. *)
Fixpoint fields_decode (m : libm) (td : dict) (b : bits) : result dict :=
  match td with
  | [] => Ok []
  | (key, e) :: rest =>
      let n := Z.to_nat (len e) in
      e' <- from_bits m e (firstn n b) ;;
      rest' <- fields_decode m rest (skipn n b) ;;
      Ok ((key, e') :: rest')
  end.

Fixpoint fields_bits (td : dict) : Z :=
  match td with
  | [] => 0
  | (_, e) :: rest => len e + fields_bits rest
  end.

Definition fixed_width (td : dict) : bool :=
  forallb (fun kv => 0 <=? len (snd kv)) td.

(** Two streams with the same unread bits. *)
Definition same_rest (s1 s2 : BitStream) : Prop :=
  skipn (pos s1) (data s1) = skipn (pos s2) (data s2).

(** Two results that raise the same exception or return related values. *)
Definition rel_result {A : Type} (R : A -> A -> Prop) (r1 r2 : result A) : Prop :=
  match r1, r2 with
  | Ok a, Ok b => R a b
  | Raise e1, Raise e2 => e1 = e2
  | _, _ => False
  end.

Definition same_read {A : Type} (x y : A * BitStream) : Prop :=
  fst x = fst y /\ same_rest (snd x) (snd y).

Definition same_self (a b : StandardTeds) : Prop :=
  teds a = teds b /\ stdout a = stdout b /\ same_rest (bitstream a) (bitstream b).

(** The [n] bits of [b] from offset [off]. *)
Definition window (b : bits) (off n : nat) : bits := firstn n (skipn off b).

Definition uint_field (n : Z) (w : bits) : element :=
  mkElement UnInt n (VInt (lsb_value w)).

(** The header decoded from the unread bits [b]. *)
Definition header_fields (b : bits) : dict :=
  [ ("manufacturer_id", uint_field 14 (window b 0 14));
    ("model_number", uint_field 15 (window b 14 15));
    ("version_letter", uint_field 5 (window b 29 5));
    ("version_number", uint_field 6 (window b 34 6));
    ("serial_number", uint_field 24 (window b 40 24));
    ("start_selector", uint_field 2 (window b 64 2));
    ("template_id", uint_field 8 (window b 66 8)) ].

(** The trailer decoded from the unread bits [b]. *)
Definition trailer_fields (b : bits) : dict :=
  [ ("calibration_date",
     mkElement Date 16
       (VDatetime (mkDatetime (toordinal epoch + lsb_value (window b 0 16)) 0)));
    ("calibration_initals", mkElement Chr5 15 (VStr (chr5_chars 3 (window b 16 15))));
    ("calibration_period", uint_field 12 (window b 31 12));
    ("measurement_location_id", uint_field 11 (window b 43 11));
    ("end_selector", uint_field 2 (window b 54 2));
    ("extended_end_selector", uint_field 1 (window b 56 1));
    ("user_data",
     mkElement Ascii (-1) (VStr (ascii_chars ((length b - 57) / 7) (skipn 57 b)))) ].

(** [__init__] up to, and without, its last call [self.end_template()]. *)
Definition before_trailer (m : libm) (bs : BitStream) (has_preamble : bool)
  : result StandardTeds :=
  let self := mkStandardTeds [] bs [] in
  self <-
    (if has_preamble then
       '(preamble, bs') <- read (bitstream self) 40 ;;
       if negb (bits_eqb preamble ni_preamble_bits)
       then Raise (ValueError "Preamble does not match the default")
       else Ok (mkStandardTeds (teds self) bs' (stdout self))
     else Ok self) ;;
  self <- process m basic_teds self ;;
  self <- check_basic_teds self ;;
  load_template m (field_val (teds self) "template_id") self.

(** The state after the header of a stream that starts at bit 0. *)
Definition after_header (b : bits) : StandardTeds :=
  mkStandardTeds (dict_update [] (header_fields b)) (mkBitStream b 74)
                 ["Sensor utilizes legacy teds format!"].

(** A computation that does not raise the preamble error. *)
Definition quiet {A : Type} (r : result A) : Prop := r <> Raise InvalidPreamble.

Definition has_key (key : string) (td : dict) : bool :=
  existsb (String.eqb key) (map fst td).

(** Decoding the window [w] as field [e] and encoding the result gives
    [w] back. *)
Definition reencodes (m : libm) (e : element) (w : bits) : Prop :=
  (e' <- from_bits m e w ;; to_bits m e') = Ok (Some w).

(** What each field of a document contributes to the encoded stream:
    nothing for a constant, its [to_bits] otherwise. *)
Fixpoint fields_encode_to (m : libm) (d : dict) (ws : list bits) : Prop :=
  match d, ws with
  | [], [] => True
  | (_, e) :: d', w :: ws' =>
      ((cls e = Constant /\ w = []) \/
       (cls e <> Constant /\ to_bits m e = Ok (Some w)))
      /\ fields_encode_to m d' ws'
  | _, _ => False
  end.

(** The raw code of an element's value: the integer that
    [Bits(uint=int_val, ...)] stores for the [int_val] its [to_bits]
    computes, which is the value itself (UnsignedInt), the days since
    1998-01-01 (Date), [(val - start) / step] (linear) or
    [log(val / start) / log(1 + 2 * step)] (exponential), cut to an integer
    by [int]. The other kinds have none. *)
Definition raw_code (m : libm) (e : element) : result Z :=
  match cls e with
  | UnInt => py_int (val e)
  | Date =>
      date_val <- py_sub (val e) (VDatetime epoch) ;;
      match date_val with
      | DTimedelta days => Ok days
      | DNum _ => Raise TypeError
      end
  | ConRes start step =>
      d <- py_sub (val e) start ;;
      match d with
      | DNum d' => int_val <- py_truediv d' step ;; py_int int_val
      | DTimedelta _ => Raise TypeError
      end
  | ConRelRes start step =>
      q <- py_truediv (val e) start ;;
      num <- math_log m q ;;
      t <- py_mul (VInt 2) step ;;
      base <- py_add (VInt 1) t ;;
      den <- math_log m base ;;
      int_val <- py_truediv num den ;;
      py_int int_val
  | _ => Raise TypeError
  end.

Definition sens_ref : element := ConRelResTedsElement 16 (VFloat 5e-7) (VFloat 0.00015).
Definition tf_hp_s : element := ConRelResTedsElement 8 (VFloat 0.005) (VFloat 0.03).
Definition transducer_weight : element := ConRelResTedsElement 6 (VFloat 0.1) (VFloat 0.1).
Definition ref_req : element := ConRelResTedsElement 8 (VFloat 0.35) (VFloat 0.0175).
Definition ref_temp : element := ConResTedsElement 5 (VInt 15) (VFloat 0.5).

(** The document of a basic accelerometer without transfer function,
    given the decoded scaled elements. *)
Definition accelerometer_body (b : bits) (e1 e2 e3 e4 e5 : element) : dict :=
  [ ("acceleration_force", uint_field 1 (window b 74 1));
    ("extended_functionality", uint_field 1 (window b 75 1));
    ("sens_ref", e1);
    ("tf_hp_s", e2);
    ("direction", uint_field 2 (window b 100 2));
    ("transducer_weight", e3);
    ("elec_sig_type", ConstantTedsElement 0 "Voltage Sensor");
    ("map_method", ConstantTedsElement 0 "Linear");
    ("ACDCCoupling", ConstantTedsElement 0 "AC");
    ("sign", uint_field 1 (window b 108 1));
    ("transfer_function", uint_field 1 (window b 109 1));
    ("ref_req", e4);
    ("ref_temp", e5) ].

Definition accelerometer_doc (b : bits) (e1 e2 e3 e4 e5 : element) : dict :=
  header_fields b ++ accelerometer_body b e1 e2 e3 e4 e5
  ++ trailer_fields (skipn 123 b).

(** The [n] bits of a field holding the raw code [z], as they travel. *)
Definition field (n : nat) (z : Z) : bits := rev (uint_bits n z).

(** A header: manufacturer 17, model 1234, version letter 1, version
    number 2, serial number 99999, and the given template id. *)
Definition sample_header (template_id : Z) : bits :=
  field 14 17 ++ field 15 1234 ++ field 5 1 ++ field 6 2 ++ field 24 99999
  ++ field 2 0 ++ field 8 template_id.

(** A trailer without user data: calibrated 8000 days after 1998-01-01 by
    "abc", period 365 days, location 7. *)
Definition sample_trailer : bits :=
  field 16 8000 ++ field 5 1 ++ field 5 2 ++ field 5 3 ++ field 12 365
  ++ field 11 7 ++ field 2 0 ++ field 1 1.

(** The body of a basic accelerometer without transfer function. *)
Definition sample_body : bits :=
  [false; false] ++ field 16 1 ++ field 8 100 ++ field 2 1 ++ field 6 5
  ++ [true; false] ++ field 8 3 ++ field 5 10.

(** A basic accelerometer with the user data "Hi". *)
Definition sample_accelerometer : bits :=
  sample_header 25 ++ sample_body ++ sample_trailer ++ field 7 72 ++ field 7 105.

(** The same without user data: 180 bits. *)
Definition sample_accelerometer_bare : bits :=
  sample_header 25 ++ sample_body ++ sample_trailer.

(** A force sensor: template 25 with the [acceleration_force] bit set. *)
Definition sample_force : bits := sample_header 25 ++ [true; false].

(** A header with the unassigned template id 99, followed by a trailer. *)
Definition sample_unknown : bits := sample_header 99 ++ sample_trailer.

(** The character a five-bit group stands for, given the character that
    was encoded: only the five low bits of its code point travel. *)
Definition chr5_fold (c : ascii) : ascii := ascii_of_N (Z.to_N (96 + ord c mod 32)).

Fixpoint string_map (f : ascii -> ascii) (s : string) : string :=
  match s with
  | EmptyString => ""
  | String c s' => String (f c) (string_map f s')
  end.

(** A [datetime] object: a day between 0001-01-01 and 9999-12-31 and a time
    within the day. *)
Definition valid_datetime (d : datetime) : Prop :=
  1 <= toordinal d <= max_ordinal /\ 0 <= microsecond_of_day d < 86400000000.

(** Every bit string of a given length. *)
Fixpoint all_windows (n : nat) : list bits :=
  match n with
  | O => [[]]
  | S n' => flat_map (fun w => [false :: w; true :: w]) (all_windows n')
  end.

(** Decoding the window and encoding the result gives the window back. *)
Definition encodes_back (m : libm) (e : element) (w : bits) : bool :=
  match (e' <- from_bits m e w ;; to_bits m e') with
  | Ok (Some b) => bits_eqb b w
  | _ => false
  end.

(** The scaled fields of the thermocouple template. *)
Definition temperature : element := ConResTedsElement 11 (VInt (-273)) (VInt 1).
Definition electrical_output : element :=
  ConResTedsElement 7 (VFloat (-0.025)) (VFloat 0.001).
Definition thermocouple_resistance : element :=
  ConRelResTedsElement 12 (VInt 1) (VInt 1).
Definition sensor_response_time : element :=
  ConRelResTedsElement 6 (VFloat 1e-6) (VInt 1).

(** The thermocouple part of a document, given its decoded scaled
    elements. *)
Definition thermocouple_body (b : bits) (e1 e2 e3 e4 e5 e6 : element) : dict :=
  [ ("elec_sig_type", ConstantTedsElement 0 "Voltage Sensor");
    ("minimum_temperature", e1);
    ("maximum_temperature", e2);
    ("minimum_electrical_output", e3);
    ("maximum_electrical_output", e4);
    ("mapping_method", ConstantTedsElement 0 "Voltage Sensor");
    ("thermocouple_type", uint_field 4 (window b 110 4));
    ("cjc_required_or_compensated", uint_field 1 (window b 114 1));
    ("thermocouple_resistance", e5);
    ("sensor_response_time", e6) ].

Definition thermocouple_doc (b : bits) (e1 e2 e3 e4 e5 e6 : element) : dict :=
  header_fields b ++ thermocouple_body b e1 e2 e3 e4 e5 e6
  ++ trailer_fields (skipn 133 b).

(** A thermocouple: 20 to 100 degrees Celsius, resistance code 700. *)
Definition sample_thermocouple : bits :=
  sample_header 36 ++ field 11 293 ++ field 11 373 ++ field 7 25 ++ field 7 75
  ++ field 4 3 ++ field 1 1 ++ field 12 700 ++ field 6 10 ++ sample_trailer.

(** The two linear fields of the transfer-function block. *)
Definition tf_sl : element := ConResTedsElement 7 (VFloat (-6.3)) (VFloat 0.1).
Definition temp_coef : element := ConResTedsElement 6 (VFloat (-0.8)) (VFloat 0.025).

(** The raw codes of the linear float fields that come back one lower
    after a decode and an encode. *)
Definition lost_electrical_output : list Z :=
  [3; 6; 7; 105; 106; 107; 108; 109; 110; 111; 112; 113; 114; 115; 116; 117; 118; 119].
Definition lost_tf_sl : list Z := [1; 3; 8; 13; 18; 43; 81; 86; 91].
Definition lost_temp_coef : list Z := [3; 4; 8; 9; 43].

Definition reencoded_code (lost : list Z) (raw : Z) : Z :=
  if existsb (Z.eqb raw) lost then raw - 1 else raw.

(** Decoding the window and encoding the result gives the bits of the
    code [reencoded_code lost raw]. *)
Definition reencodes_as (m : libm) (e : element) (n : nat) (lost : list Z) (w : bits)
  : bool :=
  match (e' <- from_bits m e w ;; to_bits m e') with
  | Ok (Some b) => bits_eqb b (field n (reencoded_code lost (lsb_value w)))
  | _ => false
  end.

(** An extended accelerometer whose first sensitivity has the code 30000. *)
Definition sample_extended : bits :=
  sample_header 25 ++ [false; true] ++ field 2 0 ++ field 1 0 ++ field 16 30000.

(** The exceptions a decode lets through, the preamble error apart. *)
Definition decode_error (e : exn) : Prop :=
  e = ReadError \/ e = NotImplementedError \/ e = OverflowError.

(** A computation that raises nothing else. *)
Definition tame {A : Type} (r : result A) : Prop :=
  forall e, r = Raise e -> decode_error e.

Definition is_num (v : value) : bool :=
  match v with
  | VInt _ | VFloat _ => true
  | _ => false
  end.

(** A field as the templates declare them: numbers for [start] and
    [step], and a width that is a number of bits or [-1]. *)
Definition declared_field (e : element) : bool :=
  (-1 <=? len e) &&
  match cls e with
  | ConRes start step | ConRelRes start step => is_num start && is_num step
  | _ => true
  end.

Definition is_UnInt (e : element) : bool :=
  match cls e with
  | UnInt => true
  | _ => false
  end.

(** The number of bits the template of a document takes between header
    and trailer, read off the document. *)
Definition template_bits (d : dict) : Z :=
  if val_eq_int (field_val d "template_id") 25 then
    2 + (if val_eq_int (field_val d "extended_functionality") 1 then 51 else 24)
    + 10 + (if val_eq_int (field_val d "transfer_function") 1 then 38 else 0) + 13
  else if val_eq_int (field_val d "template_id") 36 then 59
  else 0.

(** The binary digits of a bit string, as text. *)
Fixpoint bin_string (b : bits) : string :=
  match b with
  | [] => ""
  | x :: b' => String (if x then "1" else "0")%char (bin_string b')
  end.

(** A reading of binary literals, for examples: the bits of a string made
    of the prefix 0b and binary digits. *)
Fixpoint bin_digits_bits (s : string) : result bits :=
  match s with
  | EmptyString => Ok []
  | String c s' =>
      rest <- bin_digits_bits s' ;;
      if Ascii.eqb c "0" then Ok (false :: rest)
      else if Ascii.eqb c "1" then Ok (true :: rest)
      else Raise CreationError
  end.

Definition bin_literal_bits (s : string) : result bits :=
  match s with
  | String "0" (String "b" s') => bin_digits_bits s'
  | _ => Raise CreationError
  end.

(** What one integer of the hardware list contributes to the stream. *)
Definition nidaqmax_chunk (item : Z) : bits :=
  zero_pad_bitstream (reverse_bitstream (Bits_bin (bin_digits item))).

(** A list in strictly increasing order. *)
Fixpoint ascending (l : list Z) : Prop :=
  match l with
  | [] => True
  | x :: l' => (forall y, In y l' -> x < y) /\ ascending l'
  end.

(** The directions [direction_to_int] knows. *)
Definition known_directions : list string :=
  ["Scalar"; "+X"; "-X"; "+Y"; "-Y"; "+Z"; "-Z"].

(** The elements of a list in the order of their first occurrence. *)
Fixpoint first_occurrences (l : list string) : list string :=
  match l with
  | [] => []
  | x :: l' => x :: filter (fun y => negb (String.eqb x y)) (first_occurrences l')
  end.

(** All the signal names of a list of measurements, excitations before
    responses within each measurement. *)
Definition all_names (measurements : list Measurement.SDLMAMeasurement) : list string :=
  flat_map (fun ms => let '(exc_names, resp_names) := Measurement.get_names ms in
                      exc_names ++ resp_names) measurements.

(* ================================================================== *)
(** * Properties *)

(** ** Numeric reading of a bit string *)

Lemma lsb_value_bounds (b : bits) : 0 <= lsb_value b < 2 ^ Z.of_nat (length b).
Proof.
  induction b as [|x b IH]; [simpl; lia|].
  change (length (x :: b)) with (S (length b)).
  rewrite Nat2Z.inj_succ, Z.pow_succ_r by lia.
  cbn [lsb_value]. destruct x; cbn [Z.b2z]; lia.
Qed.

Lemma lsb_value_app (a b : bits) :
  lsb_value (a ++ b) = lsb_value a + 2 ^ Z.of_nat (length a) * lsb_value b.
Proof.
  induction a as [|x a IH].
  { change (lsb_value ([] ++ b)) with (lsb_value b).
    change (2 ^ Z.of_nat (length (@nil bool))) with 1. cbn [lsb_value]. lia. }
  change (length (x :: a)) with (S (length a)).
  rewrite Nat2Z.inj_succ, Z.pow_succ_r by lia.
  cbn [app lsb_value]. rewrite IH. ring.
Qed.

Lemma lsb_value_zeros (n : nat) : lsb_value (repeat false n) = 0.
Proof.
  induction n as [|n IH]; [reflexivity|].
  cbn [repeat lsb_value Z.b2z]. rewrite IH. reflexivity.
Qed.

Lemma lsb_value_pad (b : bits) (n : nat) : lsb_value (b ++ repeat false n) = lsb_value b.
Proof. rewrite lsb_value_app, lsb_value_zeros. lia. Qed.

Lemma msb_value_rev (b : bits) : msb_value (rev b) = lsb_value b.
Proof.
  unfold msb_value. induction b as [|x b IH]; [reflexivity|].
  cbn [rev lsb_value]. rewrite fold_left_app. cbn [fold_left].
  rewrite IH. unfold msb_step. lia.
Qed.

Lemma lsb_value_inj (a b : bits) :
  length a = length b -> lsb_value a = lsb_value b -> a = b.
Proof.
  revert b. induction a as [|x a IH]; intros [|y b] Hl Hv; try discriminate; [reflexivity|].
  cbn [lsb_value] in Hv. injection Hl as Hl.
  assert (x = y) by (destruct x, y; cbn [Z.b2z] in Hv; try reflexivity; lia).
  subst y. f_equal. apply IH; [assumption|]. lia.
Qed.

(** ** [tobytes] and [int.from_bytes] *)

Lemma byte_of_bits_8 (x1 x2 x3 x4 x5 x6 x7 x8 : bool) (c : bits) (acc : Z) :
  acc * 256 + byte_of_bits 8 (x1 :: x2 :: x3 :: x4 :: x5 :: x6 :: x7 :: x8 :: c)
  = fold_left msb_step [x1; x2; x3; x4; x5; x6; x7; x8] acc.
Proof.
  unfold msb_step. cbn [byte_of_bits fold_left].
  repeat match goal with
         | |- context [2 ^ Z.of_nat ?n] =>
             let v := eval compute in (2 ^ Z.of_nat n) in
             change (2 ^ Z.of_nat n) with v
         end.
  lia.
Qed.

Lemma from_bytes_fuel (k : nat) :
  forall (fuel : nat) (c : bits) (acc : Z),
    length c = (8 * k)%nat -> (k <= fuel)%nat ->
    fold_left (fun a byte => a * 256 + byte) (tobytes_fuel fuel c) acc
    = fold_left msb_step c acc.
Proof.
  induction k as [|k IH]; intros fuel c acc Hlen Hfuel.
  - destruct c; [|discriminate]. destruct fuel; reflexivity.
  - destruct fuel as [|fuel]; [lia|].
    do 8 (destruct c as [|? c]; [simpl in Hlen; lia|]).
    cbn [tobytes_fuel skipn fold_left].
    rewrite byte_of_bits_8.
    rewrite IH by (simpl in Hlen; lia).
    reflexivity.
Qed.

Lemma int_from_bits_msb (c : bits) (k : nat) :
  length c = (8 * k)%nat -> int_from_bits c = msb_value c.
Proof.
  intros H. unfold int_from_bits, int_from_bytes, tobytes, msb_value.
  apply from_bytes_fuel with (k := k); lia.
Qed.

Lemma zero_pad_length (b : bits) :
  exists k, length (zero_pad_bitstream b) = (8 * k)%nat.
Proof.
  unfold zero_pad_bitstream.
  exists (Z.to_nat ((Z.of_nat (length b) + 7) / 8)).
  rewrite length_app, repeat_length.
  pose proof (Z.div_mod (Z.of_nat (length b) + 7) 8 ltac:(lia)).
  pose proof (Z.mod_pos_bound (Z.of_nat (length b) + 7) 8 ltac:(lia)).
  lia.
Qed.

(** The integer read from a field's window is the window's value with its
    first bit least significant. *)
Lemma raw_of_bits_lsb (b : bits) : raw_of_bits b = lsb_value b.
Proof.
  unfold raw_of_bits, reverse_bitstream.
  destruct (zero_pad_length b) as [k Hk].
  rewrite int_from_bits_msb with (k := k) by (rewrite length_rev; exact Hk).
  rewrite msb_value_rev. unfold zero_pad_bitstream. apply lsb_value_pad.
Qed.

(** ** [Bits(uint=..., length=...)] *)

Lemma uint_bits_length (n : nat) (z : Z) : length (uint_bits n z) = n.
Proof. induction n; simpl; congruence. Qed.

Lemma lsb_value_uint_bits (n : nat) (z : Z) :
  lsb_value (rev (uint_bits n z)) = z mod 2 ^ Z.of_nat n.
Proof.
  induction n as [|n IH]; [simpl; now rewrite Z.mod_1_r|].
  cbn [uint_bits rev]. rewrite lsb_value_app, IH, length_rev, uint_bits_length.
  cbn [lsb_value]. rewrite Z.testbit_spec' by lia.
  rewrite Nat2Z.inj_succ, Z.pow_succ_r by lia.
  rewrite (Z.mul_comm 2 (2 ^ Z.of_nat n)).
  rewrite Z.rem_mul_r by lia. lia.
Qed.

Lemma uint_bits_of_lsb_value (b : bits) :
  rev (uint_bits (length b) (lsb_value b)) = b.
Proof.
  apply lsb_value_inj.
  - now rewrite length_rev, uint_bits_length.
  - rewrite lsb_value_uint_bits. apply Z.mod_small, lsb_value_bounds.
Qed.


(** ** Reading from a stream *)

Lemma remaining_eq (d : bits) (p : nat) :
  remaining (mkBitStream d p) = Z.of_nat (length d - p).
Proof. reflexivity. Qed.

Lemma read_ok (s : BitStream) (n : Z) :
  0 <= n <= remaining s ->
  read s n = Ok (firstn (Z.to_nat n) (skipn (pos s) (data s)),
                 mkBitStream (data s) (pos s + Z.to_nat n)).
Proof.
  intros H. unfold read.
  destruct (Z.ltb_spec n 0); [lia|].
  destruct (Z.gtb_spec n (remaining s)); [lia|]. reflexivity.
Qed.

Lemma read_short (s : BitStream) (n : Z) :
  remaining s < n -> 0 <= n -> read s n = Raise ReadError.
Proof.
  intros H H0. unfold read.
  destruct (Z.ltb_spec n 0); [lia|].
  destruct (Z.gtb_spec n (remaining s)); [reflexivity|lia].
Qed.

Lemma window_length (d : bits) (p n : nat) :
  (p + n <= length d)%nat -> length (firstn n (skipn p d)) = n.
Proof. intros H. rewrite length_firstn, length_skipn. lia. Qed.

Lemma skipn_skipn_add (A : Type) (a b : nat) (l : list A) :
  skipn a (skipn b l) = skipn (b + a) l.
Proof. rewrite skipn_skipn. f_equal. lia. Qed.

(** ** Unsigned integers *)

Lemma Bits_uint_ok (n z : Z) :
  0 < n -> 0 <= z < 2 ^ n ->
  Bits_uint (VInt z) n = Ok (uint_bits (Z.to_nat n) z).
Proof.
  intros Hn Hz. unfold Bits_uint.
  destruct (Z.leb_spec n 0); [lia|]. cbn [py_int bind].
  destruct (Z.ltb_spec z 0); [lia|].
  destruct (Z.leb_spec (2 ^ n) z); [lia|]. reflexivity.
Qed.

Lemma to_bitstream_value (e : element) (z : Z) :
  0 < len e -> 0 <= z < 2 ^ len e ->
  to_bitstream e (VInt z) = Ok (rev (uint_bits (Z.to_nat (len e)) z)).
Proof.
  intros Hn Hz. unfold to_bitstream. rewrite Bits_uint_ok by assumption.
  reflexivity.
Qed.

Lemma to_bitstream_window (e : element) (b : bits) :
  0 < len e -> Z.of_nat (length b) = len e ->
  to_bitstream e (VInt (lsb_value b)) = Ok b.
Proof.
  intros Hn Hl. rewrite to_bitstream_value.
  - rewrite <- Hl, Nat2Z.id, uint_bits_of_lsb_value. reflexivity.
  - assumption.
  - rewrite <- Hl. apply lsb_value_bounds.
Qed.

Lemma from_bits_UnInt (m : libm) (n : Z) (v : value) (b : bits) :
  from_bits m (mkElement UnInt n v) b = Ok (mkElement UnInt n (VInt (lsb_value b))).
Proof. unfold from_bits, set_val. cbn. now rewrite raw_of_bits_lsb. Qed.

Lemma to_bits_UnInt (m : libm) (n z : Z) :
  to_bits m (mkElement UnInt n (VInt z))
  = (b <- to_bitstream (mkElement UnInt n (VInt z)) (VInt z) ;; Ok (Some b)).
Proof. reflexivity. Qed.

(** ** Dates *)

Lemma epoch_ordinal : toordinal epoch = 729390.
Proof. reflexivity. Qed.

Lemma from_bits_Date (m : libm) (n : Z) (v : value) (b : bits) :
  lsb_value b <= last_day_code ->
  from_bits m (mkElement Date n v) b
  = Ok (mkElement Date n (VDatetime (mkDatetime (toordinal epoch + lsb_value b) 0))).
Proof.
  intros H. unfold from_bits, set_val. cbn [cls len bind].
  rewrite raw_of_bits_lsb. unfold datetime_add_days.
  pose proof (lsb_value_bounds b) as Hb.
  change last_day_code with 2922669 in H.
  change max_delta_days with 999999999. change max_ordinal with 3652059.
  rewrite epoch_ordinal.
  destruct (Z.gtb_spec (Z.abs (lsb_value b)) 999999999); [lia|].
  destruct (Z.leb_spec 1 (729390 + lsb_value b)); [|lia].
  destruct (Z.leb_spec (729390 + lsb_value b) 3652059); [|lia].
  reflexivity.
Qed.

Lemma days_since_epoch (z : Z) :
  datetime_sub_days (mkDatetime (toordinal epoch + z) 0) epoch = z.
Proof.
  unfold datetime_sub_days. cbn [toordinal microsecond_of_day].
  change (microsecond_of_day epoch) with 0.
  replace ((toordinal epoch + z - toordinal epoch) * 86400000000 + (0 - 0))
    with (z * 86400000000) by lia.
  apply Z.div_mul. lia.
Qed.

Lemma to_bits_Date (m : libm) (n z : Z) :
  to_bits m (mkElement Date n (VDatetime (mkDatetime (toordinal epoch + z) 0)))
  = (b <- to_bitstream (mkElement Date n VNone) (VInt z) ;; Ok (Some b)).
Proof.
  unfold to_bits. cbn [cls val super_to_bits bind py_sub].
  rewrite days_since_epoch. reflexivity.
Qed.


(** ** Strings *)

Lemma append_assoc (a b c : string) :
  String.append (String.append a b) c = String.append a (String.append b c).
Proof. induction a as [|x a IH]; cbn; [reflexivity|now rewrite IH]. Qed.

Lemma chr_small (i : Z) :
  0 <= i < 256 -> chr i = Ok (String (ascii_of_N (Z.to_N i)) "").
Proof.
  intros H. unfold chr.
  destruct (Z.leb_spec 0 i); [|lia]. destruct (Z.ltb_spec i 256); [|lia].
  reflexivity.
Qed.

Lemma group_value (d : bits) (p n : nat) :
  raw_of_bits (firstn n (skipn p d)) = lsb_value (firstn n (skipn p d))
  /\ 0 <= lsb_value (firstn n (skipn p d)) < 2 ^ Z.of_nat n.
Proof.
  split; [apply raw_of_bits_lsb|].
  pose proof (lsb_value_bounds (firstn n (skipn p d))) as H.
  split; [lia|]. eapply Z.lt_le_trans; [apply H|].
  apply Z.pow_le_mono_r; [lia|]. rewrite length_firstn. lia.
Qed.

(** The loop of the five-bit decoder over a window made of whole groups. *)
Lemma chr5_loop_chars (idx : list Z) :
  forall (d : bits) (p : nat) (acc : string),
    (length d - p = 5 * length idx)%nat ->
    chr5_loop idx (mkBitStream d p) acc
    = Ok (String.append acc (chr5_chars (length idx) (skipn p d))).
Proof.
  induction idx as [|i idx IH]; intros d p acc H.
  - cbn. f_equal. induction acc; cbn; congruence.
  - cbn [chr5_loop length chr5_chars].
    rewrite read_ok by (rewrite remaining_eq; cbn [length] in H; lia).
    cbn [bind data pos].
    change (int_from_bits (reverse_bitstream (zero_pad_bitstream ?w)))
      with (raw_of_bits w).
    change (Z.to_nat 5) with 5%nat.
    destruct (group_value d p 5) as [-> Hb].
    change (ord "`") with 96. change (2 ^ Z.of_nat 5) with 32 in Hb.
    rewrite chr_small by lia. cbn [bind].
    rewrite IH by (cbn [length] in H; lia).
    rewrite append_assoc, skipn_skipn_add. reflexivity.
Qed.

Lemma py_range_length (stop step : Z) :
  length (py_range stop step) = Z.to_nat ((stop + step - 1) / step).
Proof. unfold py_range. now rewrite length_map, length_seq. Qed.

Lemma from_bits_Chr5 (m : libm) (n : Z) (v : value) (b : bits) (k : nat) :
  length b = (5 * k)%nat ->
  from_bits m (mkElement Chr5 n v) b = Ok (mkElement Chr5 n (VStr (chr5_chars k b))).
Proof.
  intros H. unfold from_bits, set_val, stream. cbn [cls len].
  assert (Hk : length (py_range (Z.of_nat (length b)) 5) = k).
  { rewrite py_range_length, H. 
    replace (Z.of_nat (5 * k) + 5 - 1) with (4 + Z.of_nat k * 5) by lia.
    rewrite Z.div_add by lia. change (4 / 5) with 0. lia. }
  rewrite chr5_loop_chars by (rewrite Hk; lia).
  rewrite Hk. reflexivity.
Qed.

(** The loop of the seven-bit decoder: it stops reading when fewer than
    seven bits are left, whatever indices remain. *)
Lemma ascii_loop_chars (idx : list Z) :
  forall (d : bits) (p : nat) (acc : string),
    ((length d - p) / 7 <= length idx)%nat ->
    ascii_loop idx (mkBitStream d p) acc
    = Ok (String.append acc (ascii_chars ((length d - p) / 7) (skipn p d))).
Proof.
  induction idx as [|i idx IH]; intros d p acc H.
  - cbn [length] in H. assert (E : ((length d - p) / 7 = 0)%nat) by lia.
    rewrite E. cbn. f_equal. induction acc; cbn; congruence.
  - cbn [ascii_loop]. rewrite remaining_eq.
    destruct (Z.geb_spec (Z.of_nat (length d - p)) 7) as [Hge|Hlt].
    + rewrite read_ok by (rewrite remaining_eq; lia).
      cbn [bind data pos].
      change (int_from_bits (reverse_bitstream (zero_pad_bitstream ?w)))
        with (raw_of_bits w).
      change (Z.to_nat 7) with 7%nat.
      destruct (group_value d p 7) as [-> Hb].
      change (2 ^ Z.of_nat 7) with 128 in Hb.
      rewrite chr_small by lia. cbn [bind].
      assert (E : ((length d - p) / 7 = S ((length d - (p + 7)) / 7))%nat).
      { replace (length d - p)%nat with (1 * 7 + (length d - (p + 7)))%nat by lia.
        rewrite Nat.div_add_l by lia. lia. }
      rewrite IH by (cbn [length] in H; lia).
      rewrite E. cbn [ascii_chars].
      rewrite append_assoc, skipn_skipn_add. reflexivity.
    + assert (E : ((length d - p) / 7 = 0)%nat) by (apply Nat.div_small; lia).
      rewrite IH by lia. reflexivity.
Qed.

Lemma from_bits_Ascii (m : libm) (n : Z) (v : value) (b : bits) :
  from_bits m (mkElement Ascii n v) b
  = Ok (mkElement Ascii n (VStr (ascii_chars (length b / 7) b))).
Proof.
  unfold from_bits, set_val, stream. cbn [cls len].
  rewrite ascii_loop_chars.
  - cbn [bind skipn]. now rewrite Nat.sub_0_r.
  - rewrite py_range_length, Nat.sub_0_r.
    apply Nat2Z.inj_le. rewrite Nat2Z.inj_div, Z2Nat.id.
    + change (Z.of_nat 7) with 7.
      apply Z.div_le_mono; lia.
    + apply Z.div_pos; lia.
Qed.

Lemma chr5_chars_length (k : nat) (b : bits) : String.length (chr5_chars k b) = k.
Proof. revert b. induction k as [|k IH]; intros b; cbn; [reflexivity|now rewrite IH]. Qed.

Lemma ascii_chars_length (k : nat) (b : bits) : String.length (ascii_chars k b) = k.
Proof. revert b. induction k as [|k IH]; intros b; cbn; [reflexivity|now rewrite IH]. Qed.

(** Bits after the last whole group do not reach the decoded string. *)
Lemma ascii_chars_firstn (k : nat) :
  forall (b : bits) (n : nat), (7 * k <= n)%nat ->
    ascii_chars k (firstn n b) = ascii_chars k b.
Proof.
  induction k as [|k IH]; intros b n H; [reflexivity|].
  cbn [ascii_chars]. rewrite firstn_firstn, Nat.min_l by lia.
  rewrite skipn_firstn_comm, IH by lia. reflexivity.
Qed.


(** ** One group of a string field, both ways *)

Lemma chr5_group_of_bits (x0 x1 x2 x3 x4 : bool) :
  chr5_group (ascii_of_N (Z.to_N (96 + lsb_value [x0; x1; x2; x3; x4])))
  = [x0; x1; x2; x3; x4].
Proof. destruct x0, x1, x2, x3, x4; reflexivity. Qed.

Lemma ascii_group_of_bits (x0 x1 x2 x3 x4 x5 x6 : bool) :
  ascii_group (ascii_of_N (Z.to_N (lsb_value [x0; x1; x2; x3; x4; x5; x6])))
  = [x0; x1; x2; x3; x4; x5; x6].
Proof. destruct x0, x1, x2, x3, x4, x5, x6; reflexivity. Qed.

Lemma chr5_group_length (c : ascii) : length (chr5_group c) = 5%nat.
Proof. destruct c as [[] [] [] [] [] [] [] []]; reflexivity. Qed.

Lemma chr5_group_char (c : ascii) :
  is_chr5 c = true ->
  ascii_of_N (Z.to_N (96 + lsb_value (chr5_group c))) = c.
Proof.
  destruct c as [[] [] [] [] [] [] [] []]; intros H;
    vm_compute in H; try discriminate H; reflexivity.
Qed.

Lemma ascii_group_length (c : ascii) :
  is_ascii7 c = true -> length (ascii_group c) = 7%nat.
Proof.
  destruct c as [[] [] [] [] [] [] [] []]; intros H;
    vm_compute in H; try discriminate H; reflexivity.
Qed.

Lemma ascii_group_char (c : ascii) :
  is_ascii7 c = true ->
  ascii_of_N (Z.to_N (lsb_value (ascii_group c))) = c.
Proof.
  destruct c as [[] [] [] [] [] [] [] []]; intros H;
    vm_compute in H; try discriminate H; reflexivity.
Qed.

Lemma chr5_digits_cons (c : ascii) (s : string) :
  chr5_digits (String c s) = chr5_group c ++ chr5_digits s.
Proof. reflexivity. Qed.

Lemma ascii_digits_cons (c : ascii) (s : string) :
  ascii_digits (String c s) = ascii_group c ++ ascii_digits s.
Proof. reflexivity. Qed.

(** ** Whole strings: bits to string to bits *)

Lemma chr5_digits_of_chars (k : nat) :
  forall b : bits, (5 * k <= length b)%nat ->
    chr5_digits (chr5_chars k b) = firstn (5 * k) b.
Proof.
  induction k as [|k IH]; intros b H; [reflexivity|].
  do 5 (destruct b as [|? b]; [cbn [length] in H; lia|]).
  cbn [chr5_chars]. rewrite chr5_digits_cons.
  cbn [firstn skipn]. rewrite chr5_group_of_bits.
  rewrite IH by (cbn [length] in H; lia).
  replace (5 * S k)%nat with (S (S (S (S (S (5 * k)))))) by lia.
  reflexivity.
Qed.

Lemma ascii_digits_of_chars (k : nat) :
  forall b : bits, (7 * k <= length b)%nat ->
    ascii_digits (ascii_chars k b) = firstn (7 * k) b.
Proof.
  induction k as [|k IH]; intros b H; [reflexivity|].
  do 7 (destruct b as [|? b]; [cbn [length] in H; lia|]).
  cbn [ascii_chars]. rewrite ascii_digits_cons.
  cbn [firstn skipn]. rewrite ascii_group_of_bits.
  rewrite IH by (cbn [length] in H; lia).
  replace (7 * S k)%nat with (S (S (S (S (S (S (S (7 * k)))))))) by lia.
  reflexivity.
Qed.

(** ** Whole strings: string to bits to string *)

Lemma firstn_app_exact (A : Type) (a b : list A) (n : nat) :
  length a = n -> firstn n (a ++ b) = a.
Proof. intros <-. rewrite firstn_app, Nat.sub_diag, firstn_all. cbn. apply app_nil_r. Qed.

Lemma skipn_app_exact (A : Type) (a b : list A) (n : nat) :
  length a = n -> skipn n (a ++ b) = b.
Proof. intros <-. rewrite skipn_app, Nat.sub_diag, skipn_all. reflexivity. Qed.

Lemma chr5_digits_length (s : string) :
  length (chr5_digits s) = (5 * String.length s)%nat.
Proof.
  induction s as [|c s IH]; [reflexivity|].
  rewrite chr5_digits_cons, length_app, chr5_group_length, IH.
  cbn [String.length]. lia.
Qed.

Lemma chr5_chars_of_digits (s : string) :
  all_chars is_chr5 s = true ->
  chr5_chars (String.length s) (chr5_digits s) = s.
Proof.
  induction s as [|c s IH]; intros H; [reflexivity|].
  cbn [all_chars] in H. apply andb_prop in H as [Hc Hs].
  cbn [String.length chr5_chars]. rewrite chr5_digits_cons.
  rewrite firstn_app_exact, skipn_app_exact by apply chr5_group_length.
  rewrite chr5_group_char, IH by assumption. reflexivity.
Qed.

Lemma ascii_digits_length (s : string) :
  all_chars is_ascii7 s = true ->
  length (ascii_digits s) = (7 * String.length s)%nat.
Proof.
  induction s as [|c s IH]; intros H; [reflexivity|].
  cbn [all_chars] in H. apply andb_prop in H as [Hc Hs].
  rewrite ascii_digits_cons, length_app, ascii_group_length, IH by assumption.
  cbn [String.length]. lia.
Qed.

Lemma ascii_chars_of_digits (s : string) :
  all_chars is_ascii7 s = true ->
  ascii_chars (String.length s) (ascii_digits s) = s.
Proof.
  induction s as [|c s IH]; intros H; [reflexivity|].
  cbn [all_chars] in H. apply andb_prop in H as [Hc Hs].
  cbn [String.length ascii_chars]. rewrite ascii_digits_cons.
  rewrite firstn_app_exact, skipn_app_exact by (apply ascii_group_length; assumption).
  rewrite ascii_group_char, IH by assumption. reflexivity.
Qed.


(** C7: an UnsignedInt of any width [width >= 1] and value [v] in
    [[0, 2^width)] encodes to [width] bits that decode to [v] again (value 5 in
    a 4-bit field encodes to 1010 and decodes back to 5); so do a Date whose
    day count fits the width and the calendar, a Chr5String of characters
    0x60..0x7F and an Ascii7String of characters below 128. Conversely every
    window of the field's width re-encodes, after decoding, to itself. *)
Theorem field_round_trips (m : libm) :
  (forall width v, 0 < width -> 0 <= v < 2 ^ width ->
     exists b,
       to_bits m (mkElement UnInt width (VInt v)) = Ok (Some b) /\
       Z.of_nat (length b) = width /\
       from_bits m (UnIntTedsElement width) b = Ok (mkElement UnInt width (VInt v)))
  /\ (to_bits m (mkElement UnInt 4 (VInt 5)) = Ok (Some [true; false; true; false]) /\
      from_bits m (UnIntTedsElement 4) [true; false; true; false]
      = Ok (mkElement UnInt 4 (VInt 5)))
  /\ (forall width days, 0 < width -> 0 <= days < 2 ^ width -> days <= last_day_code ->
        let d := VDatetime (mkDatetime (toordinal epoch + days) 0) in
        exists b,
          to_bits m (mkElement Date width d) = Ok (Some b) /\
          Z.of_nat (length b) = width /\
          from_bits m (DateTedsElement width) b = Ok (mkElement Date width d))
  /\ (forall s, all_chars is_chr5 s = true ->
        let width := Z.of_nat (5 * String.length s) in
        exists b,
          to_bits m (mkElement Chr5 width (VStr s)) = Ok (Some b) /\
          Z.of_nat (length b) = width /\
          from_bits m (Chr5TedsElement width) b = Ok (mkElement Chr5 width (VStr s)))
  /\ (forall s, all_chars is_ascii7 s = true ->
        let width := Z.of_nat (7 * String.length s) in
        exists b,
          to_bits m (mkElement Ascii width (VStr s)) = Ok (Some b) /\
          Z.of_nat (length b) = width /\
          from_bits m (AsciiTedsElement width) b = Ok (mkElement Ascii width (VStr s)))
  /\ (forall width b, 0 < width -> Z.of_nat (length b) = width ->
        (exists e, from_bits m (UnIntTedsElement width) b = Ok e /\
                   to_bits m e = Ok (Some b))
        /\ (lsb_value b <= last_day_code ->
            exists e, from_bits m (DateTedsElement width) b = Ok e /\
                      to_bits m e = Ok (Some b))
        /\ (width mod 5 = 0 ->
            exists e, from_bits m (Chr5TedsElement width) b = Ok e /\
                      to_bits m e = Ok (Some b))
        /\ (width mod 7 = 0 ->
            exists e, from_bits m (AsciiTedsElement width) b = Ok e /\
                      to_bits m e = Ok (Some b))).
Proof.
  repeat apply conj.
  - intros n v Hlen Hv. eexists. rewrite to_bits_UnInt, to_bitstream_value by assumption.
    cbn [bind len]. split; [reflexivity|]. split.
    + rewrite length_rev, uint_bits_length. lia.
    + unfold UnIntTedsElement. rewrite from_bits_UnInt, lsb_value_uint_bits.
      rewrite Z2Nat.id, Z.mod_small by lia. reflexivity.
  - reflexivity.
  - reflexivity.
  - intros n days Hlen Hd Hmax d. subst d. eexists.
    rewrite to_bits_Date, to_bitstream_value by assumption.
    cbn [bind len]. split; [reflexivity|]. split.
    + rewrite length_rev, uint_bits_length. lia.
    + unfold DateTedsElement.
      assert (E : lsb_value (rev (uint_bits (Z.to_nat n) days)) = days).
      { rewrite lsb_value_uint_bits, Z2Nat.id, Z.mod_small by lia. reflexivity. }
      rewrite from_bits_Date by (rewrite E; assumption).
      rewrite E. reflexivity.
  - intros s Hs n. eexists. split; [reflexivity|]. unfold Bits_bin. split.
    + rewrite chr5_digits_length. reflexivity.
    + unfold Chr5TedsElement.
      rewrite from_bits_Chr5 with (k := String.length s) by apply chr5_digits_length.
      rewrite chr5_chars_of_digits by assumption. reflexivity.
  - intros s Hs n. eexists. split; [reflexivity|]. unfold Bits_bin. split.
    + rewrite ascii_digits_length by assumption. reflexivity.
    + unfold AsciiTedsElement. rewrite from_bits_Ascii.
      rewrite ascii_digits_length by assumption.
      rewrite Nat.mul_comm, Nat.div_mul by lia.
      rewrite ascii_chars_of_digits by assumption. reflexivity.
  - intros n b Hlen Hb. repeat apply conj.
    + unfold UnIntTedsElement. rewrite from_bits_UnInt. eexists. split; [reflexivity|].
      rewrite to_bits_UnInt, to_bitstream_window by (cbn [len]; lia). reflexivity.
    + intros Hmax. unfold DateTedsElement. rewrite from_bits_Date by assumption.
      eexists. split; [reflexivity|].
      rewrite to_bits_Date, to_bitstream_window by (cbn [len]; lia). reflexivity.
    + intros Hmod. unfold Chr5TedsElement.
      assert (Hk : length b = (5 * Z.to_nat (n / 5))%nat).
      { pose proof (Z.div_mod n 5 ltac:(lia)). lia. }
      rewrite from_bits_Chr5 with (k := Z.to_nat (n / 5)) by exact Hk.
      eexists. split; [reflexivity|].
      unfold to_bits, Bits_bin. cbn [cls val super_to_bits bind].
      rewrite chr5_digits_of_chars by lia. rewrite <- Hk, firstn_all. reflexivity.
    + intros Hmod. unfold AsciiTedsElement. rewrite from_bits_Ascii.
      eexists. split; [reflexivity|].
      unfold to_bits, Bits_bin. cbn [cls val super_to_bits bind].
      assert (Hk : length b = (7 * (length b / 7))%nat).
      { apply Nat2Z.inj. rewrite Nat2Z.inj_mul, Nat2Z.inj_div, Hb.
        change (Z.of_nat 7) with 7.
        pose proof (Z.div_mod n 7 ltac:(lia)) as E. rewrite Hmod in E. lia. }
      rewrite ascii_digits_of_chars by apply Nat.Div0.mul_div_le.
      rewrite <- Hk, firstn_all. reflexivity.
Qed.


(** ** Dictionaries *)

Lemma dict_get_set_same (d : dict) (key : string) (e : element) :
  dict_get (dict_set d key e) key = Some e.
Proof.
  induction d as [|[k e0] d IH]; cbn [dict_set dict_get].
  - now rewrite String.eqb_refl.
  - destruct (String.eqb k key) eqn:E; cbn [dict_get]; rewrite E; [reflexivity|exact IH].
Qed.

Lemma dict_get_set_other (d : dict) (key key' : string) (e : element) :
  key <> key' -> dict_get (dict_set d key e) key' = dict_get d key'.
Proof.
  intros Hne. induction d as [|[k e0] d IH]; cbn [dict_set dict_get].
  - destruct (String.eqb_spec key key'); [contradiction|reflexivity].
  - destruct (String.eqb_spec k key) as [->|Hk]; cbn [dict_get].
    + destruct (String.eqb_spec key key'); [contradiction|reflexivity].
    + destruct (String.eqb k key'); [reflexivity|exact IH].
Qed.

(** ** Field lists of fixed width *)

Lemma fields_bits_nonneg (td : dict) : fixed_width td = true -> 0 <= fields_bits td.
Proof.
  induction td as [|[k e] td IH]; cbn [fixed_width forallb fields_bits snd]; [lia|].
  intros H. apply andb_prop in H as [H1 H2]. apply IH in H2. lia.
Qed.

(** With enough bits left, [process_loop] reads no further than the
    widths add up to and decodes each window in turn. *)
Lemma process_loop_fixed (m : libm) (td : dict) :
  forall (d : bits) (p : nat),
    fixed_width td = true ->
    fields_bits td <= remaining (mkBitStream d p) ->
    process_loop m td (mkBitStream d p)
    = (td' <- fields_decode m td (skipn p d) ;;
       Ok (td', mkBitStream d (p + Z.to_nat (fields_bits td)))).
Proof.
  induction td as [|[key e] td IH]; intros d p Hfix Hrem.
  - cbn. now rewrite Nat.add_0_r.
  - cbn [fixed_width forallb snd] in Hfix. apply andb_prop in Hfix as [He Hfix].
    pose proof (fields_bits_nonneg td Hfix) as Hnn. apply Z.leb_le in He.
    cbn [fields_bits] in Hrem |- *. cbn [process_loop fields_decode].
    destruct (Z.eqb_spec (len e) (-1)); [lia|].
    rewrite read_ok by lia. cbn [bind data pos].
    destruct (from_bits m e _) as [e'|err]; [|reflexivity]. cbn [bind].
    rewrite IH; [|exact Hfix|rewrite remaining_eq in *; lia].
    rewrite skipn_skipn_add.
    destruct (fields_decode m td _) as [td'|err]; [|reflexivity]. cbn [bind].
    rewrite Z2Nat.inj_add, Nat.add_assoc by assumption. reflexivity.
Qed.

Lemma process_fixed (m : libm) (td : dict) (self : StandardTeds) :
  fixed_width td = true ->
  fields_bits td <= remaining (bitstream self) ->
  process m td self
  = (td' <- fields_decode m td (skipn (pos (bitstream self)) (data (bitstream self))) ;;
     Ok (mkStandardTeds (dict_update (teds self) td')
           (mkBitStream (data (bitstream self))
              (pos (bitstream self) + Z.to_nat (fields_bits td)))
           (stdout self))).
Proof.
  intros Hfix Hrem. unfold process. destruct (bitstream self) as [d p] eqn:E.
  rewrite process_loop_fixed by assumption. cbn [data pos].
  destruct (fields_decode m td _); reflexivity.
Qed.

Lemma process_short (m : libm) (n : Z) (key : string) (e : element) (rest : dict)
      (self : StandardTeds) :
  0 <= len e -> remaining (bitstream self) < len e ->
  process m ((key, e) :: rest) self = Raise ReadError.
Proof.
  intros H0 H. unfold process. cbn [process_loop].
  destruct (Z.eqb_spec (len e) (-1)); [lia|].
  rewrite read_short by lia. reflexivity.
Qed.


(** ** The decoder only depends on the unread bits *)

Lemma rel_bind {A B : Type} (R : A -> A -> Prop) (S : B -> B -> Prop)
      (m1 m2 : result A) (k1 k2 : A -> result B) :
  rel_result R m1 m2 ->
  (forall a b, R a b -> rel_result S (k1 a) (k2 b)) ->
  rel_result S (bind m1 k1) (bind m2 k2).
Proof.
  destruct m1, m2; cbn; intros H Hk; try contradiction; auto.
Qed.

Lemma remaining_rest (s : BitStream) :
  remaining s = Z.of_nat (length (skipn (pos s) (data s))).
Proof. unfold remaining. now rewrite length_skipn. Qed.

Lemma read_rel (s1 s2 : BitStream) (n : Z) :
  same_rest s1 s2 -> rel_result same_read (read s1 n) (read s2 n).
Proof.
  intros H. unfold same_rest in H. unfold read.
  rewrite (remaining_rest s1), (remaining_rest s2), H.
  destruct (n <? 0); [reflexivity|].
  destruct (n >? _); [reflexivity|].
  cbn. split; cbn [fst snd].
  - reflexivity.
  - unfold same_rest. cbn [data pos].
    rewrite <- !skipn_skipn_add. now rewrite H.
Qed.

Lemma process_loop_rel (m : libm) (td : dict) :
  forall s1 s2, same_rest s1 s2 ->
    rel_result same_read (process_loop m td s1) (process_loop m td s2).
Proof.
  induction td as [|[key e] td IH]; intros s1 s2 H.
  - cbn. split; [reflexivity|exact H].
  - cbn [process_loop].
    rewrite (remaining_rest s1), (remaining_rest s2).
    replace (skipn (pos s1) (data s1)) with (skipn (pos s2) (data s2)) by (symmetry; exact H).
    destruct (len e =? -1); (eapply rel_bind; [apply read_rel; exact H|]);
    intros [b1 t1] [b2 t2] [Hb Ht]; cbn [fst snd] in Hb, Ht; subst b2;
    (destruct (from_bits m e b1) as [e'|err]; [|reflexivity]); cbn [bind];
    (eapply rel_bind; [apply IH; exact Ht|]);
    intros [r1 u1] [r2 u2] [Hr Hu]; cbn [fst snd] in Hr, Hu; subst r2;
    (split; [reflexivity|exact Hu]).
Qed.

Lemma process_rel (m : libm) (td : dict) (a b : StandardTeds) :
  same_self a b -> rel_result same_self (process m td a) (process m td b).
Proof.
  intros (Ht & Ho & Hs). unfold process.
  eapply rel_bind; [apply process_loop_rel; exact Hs|].
  intros [r1 u1] [r2 u2] [Hr Hu]. cbn [fst snd] in Hr, Hu. subst r2.
  cbn. repeat split; cbn; congruence.
Qed.

Ltac rel_solve :=
  lazymatch goal with
  | |- rel_result _ (bind _ _) (bind _ _) =>
      eapply rel_bind;
      [ rel_solve
      | let a := fresh "a" in
        let b := fresh "b" in
        let H := fresh "Hab" in
        let Ht := fresh "Ht" in
        intros a b H; pose proof (proj1 H) as Ht; try rewrite Ht; rel_solve ]
  | |- rel_result _ (process _ _ _) (process _ _ _) => apply process_rel; assumption
  | |- rel_result _ (Raise _) (Raise _) => reflexivity
  | |- rel_result _ (Ok _) (Ok _) => assumption
  | |- rel_result _ (if ?c then _ else _) (if ?c then _ else _) =>
      destruct c; rel_solve
  | _ => idtac
  end.

Lemma accelerometer_force_template_rel (m : libm) (a b : StandardTeds) :
  same_self a b ->
  rel_result same_self (accelerometer_force_template m a)
                       (accelerometer_force_template m b).
Proof.
  intros H. unfold accelerometer_force_template, accelerometer_no_ext_template,
    accelerometer_ext_template, transfer_function_template,
    force_no_ext_template, force_ext_template.
  rel_solve.
Qed.

Lemma check_basic_teds_rel (a b : StandardTeds) :
  same_self a b -> rel_result same_self (check_basic_teds a) (check_basic_teds b).
Proof.
  intros (Ht & Ho & Hs). unfold check_basic_teds.
  cbn. repeat split; cbn; congruence.
Qed.

Lemma load_template_rel (m : libm) (v : value) (a b : StandardTeds) :
  same_self a b ->
  rel_result same_self (load_template m v a) (load_template m v b).
Proof.
  intros H. unfold load_template, thermocouple_template.
  destruct (val_eq_int v 25); [apply accelerometer_force_template_rel; assumption|].
  rel_solve.
Qed.

Lemma init_body_rel (m : libm) (a b : StandardTeds) :
  same_self a b -> rel_result same_self (init_body m a) (init_body m b).
Proof.
  intros H. unfold init_body, end_template.
  eapply rel_bind; [rel_solve|]. intros a1 b1 H1.
  eapply rel_bind; [apply check_basic_teds_rel; exact H1|]. intros a2 b2 H2.
  rewrite (proj1 H2).
  eapply rel_bind; [apply load_template_rel; exact H2|]. intros a3 b3 H3.
  rel_solve.
Qed.

(** Decoding with a matching preamble in front is decoding the rest
    without one. *)
Lemma bits_eqb_refl (b : bits) : bits_eqb b b = true.
Proof. induction b as [|[] b IH]; cbn; auto. Qed.

Lemma bits_eqb_eq (a b : bits) : bits_eqb a b = true -> a = b.
Proof.
  revert b. induction a as [|x a IH]; intros [|y b] H; cbn in H; try discriminate; auto.
  apply andb_prop in H as [H1 H2]. apply Bool.eqb_prop in H1. f_equal; auto.
Qed.

Lemma ni_preamble_length : length ni_preamble_bits = 40%nat.
Proof. reflexivity. Qed.

Lemma decode_after_preamble (m : libm) (payload : bits) :
  decode m (ni_preamble_bits ++ payload) true = decode m payload false.
Proof.
  unfold decode, StandardTeds_init, stream. cbn [bitstream teds stdout].
  rewrite read_ok by (rewrite remaining_eq, length_app, ni_preamble_length; lia).
  cbn [bind data pos skipn]. change (Z.to_nat 40) with 40%nat.
  rewrite firstn_app_exact by apply ni_preamble_length.
  rewrite bits_eqb_refl. cbn [negb bind].
  assert (R : rel_result same_self
                (init_body m (mkStandardTeds [] (mkBitStream (ni_preamble_bits ++ payload) 40) []))
                (init_body m (mkStandardTeds [] (mkBitStream payload 0) []))).
  { apply init_body_rel. repeat split. }
  destruct (init_body m _) as [a|e1], (init_body m _) as [b|e2];
    cbn in R |- *; try contradiction; [|congruence].
  destruct R as [-> _]. reflexivity.
Qed.


(** ** The header and the trailer, field by field *)

Lemma window_nested (b : bits) (off off' n : nat) :
  firstn n (skipn off' (skipn off b)) = window b (off + off') n.
Proof. unfold window. now rewrite skipn_skipn_add. Qed.

Lemma window_0 (b : bits) (n : nat) : firstn n b = window b 0 n.
Proof. reflexivity. Qed.

Lemma window_bits (b : bits) (off n : nat) :
  (off + n <= length b)%nat -> length (window b off n) = n.
Proof. apply window_length. Qed.

Lemma window_value_bound (b : bits) (off n : nat) :
  0 <= lsb_value (window b off n) < 2 ^ Z.of_nat n.
Proof. apply group_value. Qed.

Ltac nat_literal v :=
  lazymatch v with
  | O => idtac
  | S ?n => nat_literal n
  end.

(** Turn [Z.to_nat] of a literal into the literal, and nested windows into
    windows at their offset. *)
Ltac windows :=
  repeat match goal with
         | |- context [Z.to_nat ?z] =>
             let v := eval vm_compute in (Z.to_nat z) in
             nat_literal v; change (Z.to_nat z) with v
         end;
  repeat rewrite skipn_skipn_add; cbn [Nat.add];
  repeat match goal with
         | |- context [firstn ?n (skipn ?off ?b)] =>
             change (firstn n (skipn off b)) with (window b off n)
         end.

Lemma header_ok (m : libm) (self : StandardTeds) :
  74 <= remaining (bitstream self) ->
  process m basic_teds self
  = Ok (mkStandardTeds
          (dict_update (teds self)
             (header_fields (skipn (pos (bitstream self)) (data (bitstream self)))))
          (mkBitStream (data (bitstream self)) (pos (bitstream self) + 74))
          (stdout self)).
Proof.
  intros H. rewrite process_fixed by (try reflexivity; exact H).
  unfold basic_teds, UnIntTedsElement. cbn [fields_decode len].
  rewrite !from_bits_UnInt. cbn [bind].
  set (b := skipn _ _). windows. rewrite (window_0 b 14). windows. reflexivity.
Qed.

Lemma process_loop_app (m : libm) (td1 td2 : dict) :
  forall s,
    process_loop m (td1 ++ td2) s
    = ('(r1, s1) <- process_loop m td1 s ;;
       '(r2, s2) <- process_loop m td2 s1 ;;
       Ok (r1 ++ r2, s2)).
Proof.
  induction td1 as [|[key e] td1 IH]; intros s.
  - cbn. destruct (process_loop m td2 s) as [[r2 s2]|]; reflexivity.
  - cbn [app process_loop].
    destruct (if len e =? -1 then _ else _) as [[b s1]|]; [|reflexivity]. cbn [bind].
    destruct (from_bits m e b); [|reflexivity]. cbn [bind].
    rewrite IH. destruct (process_loop m td1 s1) as [[r1 s1']|]; [|reflexivity].
    cbn [bind]. destruct (process_loop m td2 s1') as [[r2 s2]|]; reflexivity.
Qed.

Lemma trailer_ok (m : libm) (self : StandardTeds) :
  57 <= remaining (bitstream self) ->
  end_template m self
  = Ok (mkStandardTeds
          (dict_update (teds self)
             (trailer_fields (skipn (pos (bitstream self)) (data (bitstream self)))))
          (mkBitStream (data (bitstream self)) (length (data (bitstream self))))
          (stdout self)).
Proof.
  intros H. unfold end_template, process.
  destruct (bitstream self) as [d p] eqn:E. cbn [data pos].
  change [("calibration_date", DateTedsElement 16);
          ("calibration_initals", Chr5TedsElement 15);
          ("calibration_period", UnIntTedsElement 12);
          ("measurement_location_id", UnIntTedsElement 11);
          ("end_selector", UnIntTedsElement 2);
          ("extended_end_selector", UnIntTedsElement 1);
          ("user_data", AsciiTedsElement (-1))]
    with ([("calibration_date", DateTedsElement 16);
           ("calibration_initals", Chr5TedsElement 15);
           ("calibration_period", UnIntTedsElement 12);
           ("measurement_location_id", UnIntTedsElement 11);
           ("end_selector", UnIntTedsElement 2);
           ("extended_end_selector", UnIntTedsElement 1)]
          ++ [("user_data", AsciiTedsElement (-1))]).
  rewrite process_loop_app.
  rewrite process_loop_fixed by (try reflexivity; exact H).
  unfold DateTedsElement, Chr5TedsElement, UnIntTedsElement, AsciiTedsElement.
  cbn [fields_decode len fields_bits].
  set (b := skipn p d).
  assert (Hb : (57 <= length b)%nat).
  { subst b. rewrite length_skipn. rewrite remaining_eq in H. lia. }
  windows.
  rewrite !from_bits_UnInt.
  rewrite from_bits_Date.
  2:{ pose proof (window_value_bound b 0 16) as Hw. unfold window in Hw.
      cbn [skipn] in Hw.
      change last_day_code with 2922669. change (2 ^ Z.of_nat 16) with 65536 in Hw. lia. }
  rewrite from_bits_Chr5 with (k := 3%nat) by (apply window_length; lia).
  cbn [bind process_loop len]. change (-1 =? -1) with true. cbv iota.
  rewrite read_ok by (rewrite remaining_eq in *; lia).
  cbn [bind data pos]. rewrite from_bits_Ascii. cbn [bind app].
  f_equal. f_equal.
  - f_equal. unfold trailer_fields, uint_field.
    rewrite (window_0 b 16). windows.
    rewrite remaining_eq.
    assert (Hrest : window d (p + 57) (Z.to_nat (Z.of_nat (length d - (p + 57))))
                    = skipn 57 b).
    { unfold window. subst b. rewrite skipn_skipn_add.
      apply firstn_all2. rewrite length_skipn. lia. }
    rewrite Hrest, length_skipn. reflexivity.
  - f_equal. rewrite remaining_eq.
    rewrite remaining_eq in H. lia.
Qed.


Lemma init_then_trailer (m : libm) (bs : BitStream) (has_preamble : bool) :
  StandardTeds_init m bs has_preamble
  = (self <- before_trailer m bs has_preamble ;; end_template m self).
Proof.
  unfold StandardTeds_init, before_trailer, init_body.
  destruct (if has_preamble then _ else _) as [self|]; [|reflexivity]. cbn [bind].
  destruct (process m basic_teds self) as [self1|]; [|reflexivity]. cbn [bind].
  destruct (check_basic_teds self1) as [self2|]; reflexivity.
Qed.

Lemma dict_update_last (d td : dict) (key : string) (e : element) :
  field_val (dict_update d (td ++ [(key, e)])) key = val e.
Proof.
  unfold field_val, dict_update. rewrite fold_left_app. cbn [fold_left fst snd].
  now rewrite dict_get_set_same.
Qed.

Lemma trailer_user_data (d : dict) (b : bits) :
  field_val (dict_update d (trailer_fields b)) "user_data"
  = VStr (ascii_chars ((length b - 57) / 7) (skipn 57 b)).
Proof.
  unfold trailer_fields.
  match goal with
  | |- field_val (dict_update d [?a; ?b; ?c; ?e; ?f; ?g; (?k, ?u)]) _ = _ =>
      change [a; b; c; e; f; g; (k, u)] with ([a; b; c; e; f; g] ++ [(k, u)])
  end.
  now rewrite dict_update_last.
Qed.

(** C10: whatever the length of the bits handed to the seven-bit string
    decoder, it does not fail; the string has one character per complete
    group of seven bits, here [length b / 7] of them, each the value of its
    group; the bits after the last complete group are discarded, so that
    decoding the complete groups alone gives the same string. *)
Theorem ascii_decodes_complete_groups (m : libm) (n : Z) (b : bits) :
  exists s,
    from_bits m (AsciiTedsElement n) b = Ok (mkElement Ascii n (VStr s)) /\
    String.length s = (length b / 7)%nat /\
    s = ascii_chars (length b / 7) b /\
    from_bits m (AsciiTedsElement n) (firstn (7 * (length b / 7)) b)
    = Ok (mkElement Ascii n (VStr s)).
Proof.
  exists (ascii_chars (length b / 7) b). unfold AsciiTedsElement.
  rewrite !from_bits_Ascii. repeat split.
  - apply ascii_chars_length.
  - assert (E : length (firstn (7 * (length b / 7)) b) = (7 * (length b / 7))%nat).
    { rewrite length_firstn. apply Nat.min_l, Nat.Div0.mul_div_le. }
    rewrite E, Nat.mul_comm, Nat.div_mul by lia.
    rewrite ascii_chars_firstn by lia. reflexivity.
Qed.

(** C9: when exactly the 57 bits of the trailer's fixed-width fields are
    left, [end_template] succeeds, [user_data] is the empty string and the
    stream is exhausted; hence a decode that reaches the trailer with 57
    bits left returns a document whose [user_data] is empty. *)
Theorem user_data_empty_without_bits (m : libm) :
  (forall self, remaining (bitstream self) = 57 ->
     exists self',
       end_template m self = Ok self' /\
       field_val (teds self') "user_data" = VStr "" /\
       remaining (bitstream self') = 0)
  /\ (forall b has_preamble self,
        before_trailer m (stream b) has_preamble = Ok self ->
        remaining (bitstream self) = 57 ->
        exists d,
          decode m b has_preamble = Ok d /\ field_val d "user_data" = VStr "").
Proof.
  assert (Hend : forall self, remaining (bitstream self) = 57 ->
     exists self',
       end_template m self = Ok self' /\
       field_val (teds self') "user_data" = VStr "" /\
       remaining (bitstream self') = 0).
  { intros self H. rewrite trailer_ok by lia. eexists. split; [reflexivity|].
    cbn [teds bitstream]. split.
    - rewrite trailer_user_data, length_skipn.
      unfold remaining in H.
      replace (length (data (bitstream self)) - pos (bitstream self) - 57)%nat
        with 0%nat by lia.
      reflexivity.
    - rewrite remaining_eq. lia. }
  split; [exact Hend|].
  intros b hp self Hhead Hrem. unfold decode.
  rewrite init_then_trailer, Hhead. cbn [bind].
  destruct (Hend self Hrem) as (self' & -> & Hval & _).
  exists (teds self'). split; [reflexivity|exact Hval].
Qed.


(** ** Dispatch on the template id *)

Ltac enough_bits :=
  unfold remaining; cbn [bitstream data pos];
  repeat match goal with
         | |- context [fields_bits ?td] =>
             let v := eval vm_compute in (fields_bits td) in
             change (fields_bits td) with v
         end;
  lia.

Lemma header_template_id (b : bits) :
  field_val (dict_update [] (header_fields b)) "template_id"
  = VInt (lsb_value (window b 66 8)).
Proof. reflexivity. Qed.

Lemma header_then_trailer (b t : bits) :
  dict_update (dict_update [] (header_fields b)) (trailer_fields t)
  = header_fields b ++ trailer_fields t.
Proof. reflexivity. Qed.

Lemma decode_from_header (m : libm) (b : bits) :
  (74 <= length b)%nat ->
  decode m b false
  = (self <- load_template m (VInt (lsb_value (window b 66 8))) (after_header b) ;;
     self <- end_template m self ;; Ok (teds self)).
Proof.
  intros H. unfold decode, StandardTeds_init, init_body, stream. cbn [bind].
  rewrite header_ok by enough_bits.
  cbn [bind bitstream data pos teds stdout skipn Nat.add check_basic_teds app].
  rewrite header_template_id. fold (after_header b).
  destruct (load_template m _ (after_header b)); reflexivity.
Qed.

(** C1 (what the code does): a header whose template id is neither 25
    nor 36 is followed directly by the trailer. With the 74 header bits and
    at least the 57 fixed trailer bits present, decoding succeeds and
    returns the header fields followed by the trailer fields read from bit
    74 on; no exception is raised for the unknown template. *)
Theorem unknown_template_is_decoded (m : libm) (b : bits) :
  (131 <= length b)%nat ->
  lsb_value (window b 66 8) <> 25 ->
  lsb_value (window b 66 8) <> 36 ->
  decode m b false = Ok (header_fields b ++ trailer_fields (skipn 74 b)).
Proof.
  intros Hlen H25 H36. rewrite decode_from_header by lia.
  unfold load_template. cbn [val_eq_int].
  destruct (Z.eqb_spec (lsb_value (window b 66 8)) 25); [contradiction|].
  destruct (Z.eqb_spec (lsb_value (window b 66 8)) 36); [contradiction|].
  cbn [bind]. unfold after_header.
  rewrite trailer_ok by enough_bits.
  cbn [bind teds bitstream data pos]. now rewrite header_then_trailer.
Qed.

Lemma window_one (b : bits) (off : nat) :
  (off < length b)%nat -> window b off 1 = [nth off b false].
Proof.
  intros H. unfold window. revert b H.
  induction off as [|off IH]; intros [|x b] H; cbn [length] in H; try lia.
  - reflexivity.
  - cbn [skipn nth]. apply IH. lia.
Qed.

Lemma selectors_read (m : libm) (b : bits) :
  (76 <= length b)%nat ->
  process m
    [ ("acceleration_force", UnIntTedsElement 1);
      ("extended_functionality", UnIntTedsElement 1) ] (after_header b)
  = Ok (mkStandardTeds
          (dict_update (dict_update [] (header_fields b))
             [ ("acceleration_force", uint_field 1 [nth 74 b false]);
               ("extended_functionality", uint_field 1 [nth 75 b false]) ])
          (mkBitStream b 76)
          ["Sensor utilizes legacy teds format!"]).
Proof.
  intros H. unfold after_header.
  rewrite process_fixed by (try reflexivity; enough_bits).
  unfold UnIntTedsElement. cbn [fields_decode len bitstream data pos teds stdout].
  rewrite !from_bits_UnInt. cbn [bind]. windows.
  rewrite !window_one by lia. reflexivity.
Qed.

(** C8: a template-25 bit stream whose [acceleration_force] bit (bit 74
    of the payload) is 1 makes the constructor raise [NotImplementedError],
    whichever the [extended_functionality] bit is and with or without the
    preamble in front; no document is returned. *)
Theorem force_branch_is_unsupported (m : libm) (payload : bits) :
  (76 <= length payload)%nat ->
  lsb_value (window payload 66 8) = 25 ->
  nth 74 payload false = true ->
  decode m payload false = Raise UnsupportedBranch /\
  decode m (ni_preamble_bits ++ payload) true = Raise UnsupportedBranch.
Proof.
  intros Hlen Htid Hforce.
  assert (H : decode m payload false = Raise UnsupportedBranch).
  { rewrite decode_from_header by lia. rewrite Htid.
    unfold load_template. cbn [val_eq_int Z.eqb Pos.eqb].
    unfold accelerometer_force_template.
    rewrite selectors_read by lia. cbn [bind teds].
    rewrite Hforce.
    destruct (nth 75 payload false); reflexivity. }
  split; [exact H|]. now rewrite decode_after_preamble.
Qed.


(** ** The preamble error comes from the preamble check only *)

Lemma quiet_bind {A B : Type} (r : result A) (k : A -> result B) :
  quiet r -> (forall a, quiet (k a)) -> quiet (bind r k).
Proof.
  destruct r as [a|e]; cbn [bind]; intros Hr Hk; [apply Hk|].
  unfold quiet in *. intros E. apply Hr. congruence.
Qed.

Lemma quiet_ok {A : Type} (a : A) : quiet (Ok a).
Proof. discriminate. Qed.

Ltac quiet_cases :=
  unfold quiet;
  repeat match goal with
         | |- context [match ?x with _ => _ end] => destruct x
         end;
  cbn; try discriminate.

Lemma quiet_read (s : BitStream) (n : Z) : quiet (read s n).
Proof. unfold read. quiet_cases. Qed.

Lemma quiet_float_of_int (z : Z) : quiet (float_of_int z).
Proof. unfold float_of_int. quiet_cases. Qed.

Lemma quiet_arith (fi : Z -> Z -> result value) (ff : float -> float -> result value)
      (a b : value) :
  (forall x y, quiet (fi x y)) -> (forall x y, quiet (ff x y)) ->
  quiet (arith fi ff a b).
Proof.
  intros Hi Hf. destruct a, b; cbn [arith]; try discriminate; auto;
    apply quiet_bind; auto using quiet_float_of_int.
Qed.

Lemma quiet_py_add (a b : value) : quiet (py_add a b).
Proof. apply quiet_arith; intros; apply quiet_ok. Qed.

Lemma quiet_py_mul (a b : value) : quiet (py_mul a b).
Proof. apply quiet_arith; intros; apply quiet_ok. Qed.

Lemma quiet_float_pow (m : libm) (x : float) (n : Z) : quiet (float_pow m x n).
Proof.
  unfold float_pow.
  destruct (n =? 0); [apply quiet_ok|].
  destruct (_ && _); [discriminate|].
  apply quiet_bind; [apply quiet_float_of_int|]. intros y.
  destruct (_ && _); [discriminate|apply quiet_ok].
Qed.

Lemma quiet_py_pow (m : libm) (base : value) (n : Z) : quiet (py_pow m base n).
Proof.
  destruct base; cbn [py_pow]; try discriminate.
  - destruct (0 <=? n); [apply quiet_ok|].
    destruct (z =? 0); [discriminate|].
    apply quiet_bind; [apply quiet_float_of_int|]. intros; apply quiet_float_pow.
  - apply quiet_float_pow.
Qed.

Lemma quiet_chr (i : Z) : quiet (chr i).
Proof. unfold chr. quiet_cases. Qed.

Lemma quiet_chr5_loop (idx : list Z) :
  forall s acc, quiet (chr5_loop idx s acc).
Proof.
  induction idx as [|i idx IH]; intros s acc; cbn [chr5_loop]; [apply quiet_ok|].
  apply quiet_bind; [apply quiet_read|]. intros [w s'].
  apply quiet_bind; [apply quiet_chr|]. intros c. apply IH.
Qed.

Lemma quiet_ascii_loop (idx : list Z) :
  forall s acc, quiet (ascii_loop idx s acc).
Proof.
  induction idx as [|i idx IH]; intros s acc; cbn [ascii_loop]; [apply quiet_ok|].
  destruct (remaining s >=? 7); [|apply IH].
  apply quiet_bind; [apply quiet_read|]. intros [w s'].
  apply quiet_bind; [apply quiet_chr|]. intros c. apply IH.
Qed.

Lemma quiet_datetime_add_days (d : datetime) (n : Z) : quiet (datetime_add_days d n).
Proof. unfold datetime_add_days. quiet_cases. Qed.

Lemma quiet_from_bits (m : libm) (e : element) (b : bits) : quiet (from_bits m e b).
Proof.
  unfold from_bits. destruct (cls e); try discriminate;
    repeat (first [ apply quiet_ok | apply quiet_bind; [|intros ?] ]);
    auto using quiet_chr5_loop, quiet_ascii_loop, quiet_datetime_add_days,
               quiet_py_mul, quiet_py_add, quiet_py_pow.
Qed.

Lemma quiet_process_loop (m : libm) (td : dict) :
  forall s, quiet (process_loop m td s).
Proof.
  induction td as [|[key e] td IH]; intros s; cbn [process_loop]; [apply quiet_ok|].
  apply quiet_bind; [destruct (len e =? -1); apply quiet_read|]. intros [w s1].
  apply quiet_bind; [apply quiet_from_bits|]. intros e'.
  apply quiet_bind; [apply IH|]. intros [r s2]. apply quiet_ok.
Qed.

Lemma quiet_process (m : libm) (td : dict) (self : StandardTeds) :
  quiet (process m td self).
Proof.
  unfold process. apply quiet_bind; [apply quiet_process_loop|].
  intros [r s]. apply quiet_ok.
Qed.

Ltac quiet_solve :=
  repeat first
    [ apply quiet_ok
    | apply quiet_process
    | discriminate
    | apply quiet_bind; [|intros ?]
    | match goal with |- quiet (if ?c then _ else _) => destruct c end ].

Lemma quiet_init_body (m : libm) (self : StandardTeds) : quiet (init_body m self).
Proof.
  unfold init_body, check_basic_teds, load_template, end_template,
    thermocouple_template, accelerometer_force_template,
    accelerometer_no_ext_template, accelerometer_ext_template,
    transfer_function_template, force_no_ext_template, force_ext_template.
  quiet_solve.
Qed.

Lemma decode_without_preamble_quiet (m : libm) (b : bits) :
  decode m b false <> Raise InvalidPreamble.
Proof.
  unfold decode, StandardTeds_init. cbn [bind].
  change (quiet (self <- init_body m (mkStandardTeds [] (stream b) []) ;; Ok (teds self))).
  apply quiet_bind; [apply quiet_init_body|]. intros; apply quiet_ok.
Qed.


(** ** A field, once decoded, is kept *)

Lemma bind_ok_inv {A B : Type} (r : result A) (k : A -> result B) (b : B) :
  bind r k = Ok b -> exists a, r = Ok a /\ k a = Ok b.
Proof. destruct r as [a|]; cbn; [eauto|discriminate]. Qed.

Lemma process_loop_keys (m : libm) (td : dict) :
  forall s td' s', process_loop m td s = Ok (td', s') -> map fst td' = map fst td.
Proof.
  induction td as [|[key e] td IH]; intros s td' s' H; cbn [process_loop] in H.
  - now inversion H.
  - apply bind_ok_inv in H as ([w s1] & _ & H).
    apply bind_ok_inv in H as (e' & _ & H).
    apply bind_ok_inv in H as ([r s2] & Hr & H).
    inversion H; subst. cbn [map fst]. f_equal. eapply IH; eassumption.
Qed.

Lemma dict_update_other (td : dict) :
  forall (d : dict) (key : string),
    has_key key td = false ->
    dict_get (dict_update d td) key = dict_get d key.
Proof.
  unfold has_key, dict_update.
  induction td as [|[k e] td IH]; intros d key H; [reflexivity|].
  cbn [map fst existsb] in H. apply orb_false_elim in H as [Hk H].
  cbn [fold_left fst snd]. rewrite IH by exact H.
  apply dict_get_set_other. intros ->. now rewrite String.eqb_refl in Hk.
Qed.

Lemma process_keeps (m : libm) (td : dict) (key : string) (self self' : StandardTeds) :
  has_key key td = false ->
  process m td self = Ok self' ->
  field_val (teds self') key = field_val (teds self) key.
Proof.
  intros Hkey H. unfold process in H.
  apply bind_ok_inv in H as ([td' s'] & Hl & H). inversion H; subst. cbn [teds].
  unfold field_val. rewrite dict_update_other; [reflexivity|].
  unfold has_key in *. now rewrite (process_loop_keys m td _ _ _ Hl).
Qed.

(** Follow a successful run of the engine and collect what each [process]
    call keeps. *)
Ltac keeps_tac key :=
  repeat match goal with
         | H : bind _ _ = Ok _ |- _ =>
             let s := fresh "s" in
             let Hs := fresh "Hs" in
             apply bind_ok_inv in H as (s & Hs & H)
         | H : (if ?c then _ else _) = Ok _ |- _ => destruct c
         | H : Raise _ = Ok _ |- _ => discriminate H
         | H : Ok _ = Ok _ |- _ => inversion H; subst; clear H
         | H : process _ ?td _ = Ok _ |- _ =>
             apply (process_keeps _ td key) in H; [|reflexivity]
         end.

Lemma manufacturer_id_kept (m : libm) (v : value) (self s1 s2 : StandardTeds) :
  load_template m v self = Ok s1 ->
  end_template m s1 = Ok s2 ->
  field_val (teds s2) "manufacturer_id" = field_val (teds self) "manufacturer_id".
Proof.
  unfold load_template, end_template, thermocouple_template,
    accelerometer_force_template, accelerometer_no_ext_template,
    accelerometer_ext_template, transfer_function_template,
    force_no_ext_template, force_ext_template.
  intros H1 H2. keeps_tac "manufacturer_id"; congruence.
Qed.

(** C5: with [has_preamble = true], a buffer of at least 40 bits whose
    first 40 bits are not the constant 0xDA6E0CCCBA makes the constructor
    raise the preamble [ValueError]; when they are the constant, decoding
    goes on exactly as a decode of the remaining bits without preamble.
    With [has_preamble = false] the preamble error is never raised and the
    header is read from bit 0: [manufacturer_id] is the value of the first
    14 bits. *)
Theorem preamble_check (m : libm) :
  (forall b, (40 <= length b)%nat -> firstn 40 b <> ni_preamble_bits ->
     decode m b true = Raise InvalidPreamble)
  /\ (forall payload,
        decode m (ni_preamble_bits ++ payload) true = decode m payload false)
  /\ (forall b, decode m b false <> Raise InvalidPreamble)
  /\ (forall b d, decode m b false = Ok d ->
        (74 <= length b)%nat ->
        field_val d "manufacturer_id" = VInt (lsb_value (firstn 14 b)))
  /\ ni_preamble_bits = uint_bits 40 0xDA6E0CCCBA.
Proof.
  repeat apply conj.
  - intros b Hlen Hne. unfold decode, StandardTeds_init, stream.
    cbn [bitstream]. rewrite read_ok by enough_bits.
    cbn [bind data pos skipn]. change (Z.to_nat 40) with 40%nat.
    destruct (bits_eqb (firstn 40 b) ni_preamble_bits) eqn:E.
    + apply bits_eqb_eq in E. contradiction.
    + reflexivity.
  - apply decode_after_preamble.
  - apply decode_without_preamble_quiet.
  - intros b d H Hlen. rewrite decode_from_header in H by exact Hlen.
    apply bind_ok_inv in H as (s1 & H1 & H).
    apply bind_ok_inv in H as (s2 & H2 & H). inversion H; subst d.
    rewrite (manufacturer_id_kept _ _ _ _ _ H1 H2). reflexivity.
  - reflexivity.
Qed.


(** ** Encoding *)

Lemma write_loop_extends (m : libm) (d : dict) :
  forall acc out, write_loop m d acc = Ok out -> exists rest, out = acc ++ rest.
Proof.
  induction d as [|[key e] d IH]; intros acc out H; cbn [write_loop] in H.
  - inversion H. exists []. now rewrite app_nil_r.
  - assert (Hskip : write_loop m d acc = Ok out -> exists rest, out = acc ++ rest)
      by apply IH.
    destruct (cls e); try exact (Hskip H);
      apply bind_ok_inv in H as ([b|] & _ & H); try discriminate H;
      apply IH in H as [rest ->]; exists (b ++ rest); now rewrite app_assoc.
Qed.

(** C6 (as the code has it): [write_teds_to_file] starts its bit stream
    from the preamble constant in every case, so whatever document it is
    given, and whether that document was decoded with [has_preamble] true
    or false, the encoded bits begin with the 40 preamble bits. *)
Theorem encode_always_prefixes_preamble (m : libm) (b : bits) (has_preamble : bool)
        (d : dict) (out : bits) :
  decode m b has_preamble = Ok d ->
  write_teds_bitstream m d = Ok out ->
  exists rest, out = ni_preamble_bits ++ rest.
Proof.
  intros _ H. unfold write_teds_bitstream in H.
  now apply write_loop_extends in H.
Qed.

Lemma to_bitstream_inv (e : element) (v : value) (b : bits) :
  to_bitstream e v = Ok b ->
  exists z, py_int v = Ok z /\ 0 < len e /\ 0 <= z < 2 ^ len e /\
            b = reverse_bitstream (uint_bits (Z.to_nat (len e)) z).
Proof.
  unfold to_bitstream, Bits_uint. intros H.
  destruct (Z.leb_spec (len e) 0); [discriminate H|]. cbn [bind] in H.
  destruct (py_int v) as [z|]; [|discriminate H]. cbn [bind] in H.
  destruct (Z.ltb_spec z 0); [discriminate H|].
  destruct (Z.leb_spec (2 ^ len e) z); [discriminate H|].
  cbn in H. inversion H. exists z. repeat split; auto; lia.
Qed.

(** C4 (as the code has it): a field that packs an integer (UnsignedInt,
    Date and the two scaled kinds) emits exactly [len] bits, the [len]-bit
    unsigned representation of the raw code of its value reversed, that is
    the raw code least significant bit first, with no padding; the padding
    to a byte boundary is what the decoder applies to such a window before
    reading its value, and it reads the raw code back. A string field emits
    five bits per character (Chr5) or the reversed binary digits of each
    character filled to seven (Ascii). *)
Theorem encoded_field_has_its_width (m : libm) (e : element) (b : bits) :
  to_bits m e = Ok (Some b) ->
  match cls e with
  | UnInt | Date | ConRes _ _ | ConRelRes _ _ =>
      Z.of_nat (length b) = len e /\
      exists z, raw_code m e = Ok z /\
                0 <= z < 2 ^ len e /\
                b = reverse_bitstream (uint_bits (Z.to_nat (len e)) z) /\
                lsb_value b = z /\
                int_from_bits (reverse_bitstream (zero_pad_bitstream b)) = z
  | Chr5 => exists s, val e = VStr s /\ b = chr5_digits s /\
                      length b = (5 * String.length s)%nat
  | Ascii => exists s, val e = VStr s /\ b = ascii_digits s
  | _ => False
  end.
Proof.
  assert (Hpack : forall v, (b' <- to_bitstream e v ;; Ok (Some b')) = Ok (Some b) ->
    Z.of_nat (length b) = len e /\
    exists z, py_int v = Ok z /\
              0 <= z < 2 ^ len e /\
              b = reverse_bitstream (uint_bits (Z.to_nat (len e)) z) /\
              lsb_value b = z /\
              int_from_bits (reverse_bitstream (zero_pad_bitstream b)) = z).
  { intros v H. apply bind_ok_inv in H as (b' & H & Hb). inversion Hb; subst b'.
    apply to_bitstream_inv in H as (z & Hint & Hlen & Hz & ->).
    assert (Hv : lsb_value (rev (uint_bits (Z.to_nat (len e)) z)) = z).
    { rewrite lsb_value_uint_bits, Z2Nat.id by lia. apply Z.mod_small. lia. }
    unfold reverse_bitstream at 1 2 3. split.
    - rewrite length_rev, uint_bits_length. lia.
    - exists z. split; [exact Hint|]. split; [lia|]. split; [reflexivity|].
      split; [exact Hv|].
      change (int_from_bits (reverse_bitstream (zero_pad_bitstream ?w)))
        with (raw_of_bits w).
      now rewrite raw_of_bits_lsb. }
  unfold to_bits, raw_code. intros H. destruct (cls e).
  - apply bind_ok_inv in H as (_ & _ & H). eauto.
  - apply bind_ok_inv in H as (_ & _ & H).
    destruct (val e) as [| | |s|]; try discriminate H. inversion H; subst b.
    exists s. unfold Bits_bin. repeat split. apply chr5_digits_length.
  - apply bind_ok_inv in H as (_ & _ & H).
    destruct (val e) as [| | |s|]; try discriminate H. inversion H; subst b.
    exists s. unfold Bits_bin. repeat split.
  - apply bind_ok_inv in H as (_ & _ & H).
    apply bind_ok_inv in H as ([v|days] & Hsub & H); [discriminate H|].
    rewrite Hsub. cbn [bind]. apply (Hpack (VInt days)). exact H.
  - discriminate H.
  - apply bind_ok_inv in H as (_ & _ & H).
    apply bind_ok_inv in H as ([v|days] & Hsub & H); [|discriminate H].
    apply bind_ok_inv in H as (int_val & Hq & H).
    rewrite Hsub. cbn [bind]. rewrite Hq. cbn [bind]. apply Hpack. exact H.
  - apply bind_ok_inv in H as (_ & _ & H).
    apply bind_ok_inv in H as (q & Hq & H). rewrite Hq. cbn [bind].
    apply bind_ok_inv in H as (num & Hnum & H). rewrite Hnum. cbn [bind].
    apply bind_ok_inv in H as (t & Ht & H). rewrite Ht. cbn [bind].
    apply bind_ok_inv in H as (base & Hbase & H). rewrite Hbase. cbn [bind].
    apply bind_ok_inv in H as (den & Hden & H). rewrite Hden. cbn [bind].
    apply bind_ok_inv in H as (int_val & Hint & H). rewrite Hint. cbn [bind].
    apply Hpack. exact H.
  - discriminate H.
  - discriminate H.
Qed.

(** The file holds one byte, 0 or 1, for each bit of the stream. *)
Lemma file_has_one_byte_per_bit (m : libm) (d : dict) (file : list Z) :
  write_teds_to_file m d = Ok file ->
  exists b, write_teds_bitstream m d = Ok b /\ file = map Z.b2z b /\
            length file = length b.
Proof.
  unfold write_teds_to_file. intros H. apply bind_ok_inv in H as (b & Hb & H).
  inversion H. exists b. repeat split; [exact Hb|apply length_map].
Qed.

(** Padding to whole bytes happens where a stream is built from the
    hardware's integer list: each integer is reversed and then padded. *)
Example nidaqmax_item_is_padded :
  convert_nidaqmax_list_to_bitstream [5; 1]
  = Ok (stream [true; false; true; false; false; false; false; false;
                true; false; false; false; false; false; false; false]).
Proof. reflexivity. Qed.

(** C3 (evaluation at failing inputs): [to_bits] of a scaled field hands
    the quotient to [Bits(uint=...)] unrounded, and [bitstring] truncates
    it. The ConstantLinear field [tf_sl] (7 bits, start -6.3, step 0.1)
    decodes raw code 1 to -6.2 and encodes -6.2 as raw code 0, because
    (-6.2 + 6.3) / 0.1 is 0.9999999999999964 in binary64; and [ref_temp]
    (5 bits, start 15, step 0.5) encodes the value 15.4, whose nearest code
    is 1, as raw code 0. *)
Theorem scaled_encode_truncates (m : libm) :
  (let tf_sl := ConResTedsElement 7 (VFloat (-6.3)) (VFloat 0.1) in
   from_bits m tf_sl (rev (uint_bits 7 1)) = Ok (set_val tf_sl (VFloat (-6.2))) /\
   to_bits m (set_val tf_sl (VFloat (-6.2))) = Ok (Some (rev (uint_bits 7 0))))
  /\ (let ref_temp := ConResTedsElement 5 (VInt 15) (VFloat 0.5) in
      to_bits m (set_val ref_temp (VFloat 15.4)) = Ok (Some (rev (uint_bits 5 0)))).
Proof.
  split; [split|]; vm_compute; reflexivity.
Qed.


(** ** Re-encoding a decoded accelerometer document *)

Lemma from_bits_shape (m : libm) (e e' : element) (w : bits) :
  from_bits m e w = Ok e' -> cls e' = cls e /\ len e' = len e.
Proof.
  unfold from_bits. intros H.
  destruct (cls e) eqn:E;
    repeat match type of H with
           | bind _ _ = Ok _ => apply bind_ok_inv in H as (? & _ & H)
           end;
    try discriminate H; inversion H; subst e'; cbn [set_val cls len]; auto.
Qed.

Lemma reencodes_inv (m : libm) (e : element) (w : bits) :
  reencodes m e w ->
  exists e', from_bits m e w = Ok e' /\ to_bits m e' = Ok (Some w) /\
             cls e' = cls e.
Proof.
  unfold reencodes. intros H. apply bind_ok_inv in H as (e' & H1 & H2).
  exists e'. repeat split; auto. now apply from_bits_shape in H1.
Qed.

Lemma write_loop_concat (m : libm) (d : dict) :
  forall ws acc, fields_encode_to m d ws ->
    write_loop m d acc = Ok (acc ++ concat ws).
Proof.
  induction d as [|[key e] d IH]; intros [|w ws] acc H; cbn [fields_encode_to] in H;
    try contradiction.
  - cbn. now rewrite app_nil_r.
  - destruct H as [[[Hc ->]|[Hc Hw]] H]; cbn [write_loop concat].
    + rewrite Hc. cbn [app]. now apply IH.
    + rewrite Hw. cbn [bind].
      rewrite (IH ws (acc ++ w) H), app_assoc.
      destruct (cls e); try reflexivity. contradiction.
Qed.

Lemma to_bits_uint_field (m : libm) (n : Z) (w : bits) :
  0 < n -> Z.of_nat (length w) = n ->
  to_bits m (uint_field n w) = Ok (Some w).
Proof.
  intros Hn Hw. unfold uint_field.
  rewrite to_bits_UnInt, to_bitstream_window by (cbn [len]; lia). reflexivity.
Qed.

Lemma window_then_rest (b : bits) (off n : nat) :
  window b off n ++ skipn (off + n) b = skipn off b.
Proof. unfold window. rewrite <- skipn_skipn_add. apply firstn_skipn. Qed.

(** [ref_temp] (5 bits, start 15, step 0.5) is exact in binary64: all 32
    windows re-encode to themselves. *)
Lemma ref_temp_reencodes (m : libm) (w : bits) :
  length w = 5%nat ->
  reencodes m (ConResTedsElement 5 (VInt 15) (VFloat 0.5)) w.
Proof.
  intros H. do 5 (destruct w as [|? w]; [discriminate H|]).
  destruct w; [|discriminate H]. clear H.
  destruct b, b0, b1, b2, b3; vm_compute; reflexivity.
Qed.


Lemma from_bits_Constant (m : libm) (n : Z) (s : string) (w : bits) :
  from_bits m (ConstantTedsElement n s) w = Ok (ConstantTedsElement n s).
Proof. reflexivity. Qed.

Section AccelerometerBasic.
Variable m : libm.
Variable b : bits.
Variables e1 e2 e3 e4 e5 : element.
Hypothesis Hlen : (180 <= length b)%nat.
Hypothesis Htid : lsb_value (window b 66 8) = 25.
Hypothesis Hforce : nth 74 b false = false.
Hypothesis Hext : nth 75 b false = false.
Hypothesis Htf : nth 109 b false = false.
Hypothesis H1 : from_bits m sens_ref (window b 76 16) = Ok e1.
Hypothesis H2 : from_bits m tf_hp_s (window b 92 8) = Ok e2.
Hypothesis H3 : from_bits m transducer_weight (window b 102 6) = Ok e3.
Hypothesis H4 : from_bits m ref_req (window b 110 8) = Ok e4.
Hypothesis H5 : from_bits m ref_temp (window b 118 5) = Ok e5.

Lemma decode_accelerometer_basic :
  decode m b false = Ok (accelerometer_doc b e1 e2 e3 e4 e5).
Proof.
  rewrite decode_from_header by lia. rewrite Htid.
  unfold load_template. cbn [val_eq_int Z.eqb Pos.eqb].
  unfold accelerometer_force_template.
  rewrite selectors_read by lia. cbn [bind teds].
  rewrite Hforce, Hext.
  match goal with
  | |- context [if ?c then accelerometer_no_ext_template _ _ else _] =>
      replace c with true by reflexivity
  end.
  unfold accelerometer_no_ext_template.
  rewrite process_fixed by (try reflexivity; enough_bits).
  cbn [fields_decode bitstream data pos teds stdout].
  change (len (ConRelResTedsElement 16 _ _)) with 16.
  change (len (ConRelResTedsElement 8 _ _)) with 8.
  windows. fold sens_ref tf_hp_s. rewrite H1, H2. cbn [bind].
  rewrite process_fixed by (try reflexivity; enough_bits).
  cbn [fields_decode bitstream data pos teds stdout].
  unfold UnIntTedsElement. cbn [len].
  change (len (ConRelResTedsElement 6 _ _)) with 6.
  change (len (ConstantTedsElement 0 _)) with 0.
  windows. rewrite !from_bits_UnInt, !from_bits_Constant.
  fold transducer_weight. rewrite H3. cbn [bind].
  rewrite (window_one b 109) by lia. rewrite Htf.
  match goal with
  | |- context [if ?c then transfer_function_template _ _ else _] =>
      replace c with false by reflexivity
  end.
  cbn [bind].
  rewrite process_fixed by (try reflexivity; enough_bits).
  cbn [fields_decode bitstream data pos teds stdout].
  change (len (ConRelResTedsElement 8 _ _)) with 8.
  change (len (ConResTedsElement 5 _ _)) with 5.
  windows. fold ref_req ref_temp. rewrite H4, H5. cbn [bind].
  rewrite trailer_ok by enough_bits.
  cbn [bind teds bitstream data pos]. f_equal.
  unfold accelerometer_doc, accelerometer_body.
  rewrite (window_one b 74), (window_one b 75), (window_one b 109) by lia.
  rewrite Hforce, Hext, Htf. reflexivity.
Qed.
End AccelerometerBasic.


Lemma to_bits_date_field (m : libm) (n : Z) (w : bits) :
  0 < n -> Z.of_nat (length w) = n ->
  to_bits m (mkElement Date n (VDatetime (mkDatetime (toordinal epoch + lsb_value w) 0)))
  = Ok (Some w).
Proof.
  intros Hn Hw. rewrite to_bits_Date, to_bitstream_window by (cbn [len]; lia).
  reflexivity.
Qed.

Lemma to_bits_chr5_field (m : libm) (n : Z) (k : nat) (w : bits) :
  length w = (5 * k)%nat ->
  to_bits m (mkElement Chr5 n (VStr (chr5_chars k w))) = Ok (Some w).
Proof.
  intros Hw. unfold to_bits, Bits_bin. cbn [cls val super_to_bits bind].
  rewrite chr5_digits_of_chars by lia. rewrite <- Hw, firstn_all. reflexivity.
Qed.

Lemma to_bits_ascii_field (m : libm) (n : Z) (w : bits) :
  (length w mod 7 = 0)%nat ->
  to_bits m (mkElement Ascii n (VStr (ascii_chars (length w / 7) w))) = Ok (Some w).
Proof.
  intros Hw. unfold to_bits, Bits_bin. cbn [cls val super_to_bits bind].
  rewrite ascii_digits_of_chars by apply Nat.Div0.mul_div_le.
  assert (E : (7 * (length w / 7) = length w)%nat).
  { pose proof (Nat.div_mod_eq (length w) 7). lia. }
  rewrite E, firstn_all. reflexivity.
Qed.

Lemma window_skipn (b : bits) (k off n : nat) :
  window (skipn k b) off n = window b (k + off) n.
Proof. unfold window. now rewrite skipn_skipn_add. Qed.

(** C2 (as the code has it): for a basic accelerometer bit stream without
    transfer-function block that is decoded with its preamble, whose user
    data is a whole number of seven-bit groups, and whose four exponential
    fields re-encode to their windows, encoding the decoded document
    reproduces the input bits, preamble included. The linear field
    [ref_temp] and every unscaled field re-encode exactly. *)
Theorem accelerometer_basic_round_trip (m : libm) (payload : bits) :
  (180 <= length payload)%nat ->
  lsb_value (window payload 66 8) = 25 ->
  nth 74 payload false = false ->
  nth 75 payload false = false ->
  nth 109 payload false = false ->
  ((length payload - 180) mod 7 = 0)%nat ->
  reencodes m sens_ref (window payload 76 16) ->
  reencodes m tf_hp_s (window payload 92 8) ->
  reencodes m transducer_weight (window payload 102 6) ->
  reencodes m ref_req (window payload 110 8) ->
  (d <- decode m (ni_preamble_bits ++ payload) true ;; write_teds_bitstream m d)
  = Ok (ni_preamble_bits ++ payload).
Proof.
  intros Hlen Htid Hforce Hext Htf Huser R1 R2 R3 R4.
  apply reencodes_inv in R1 as (e1 & D1 & E1 & C1).
  apply reencodes_inv in R2 as (e2 & D2 & E2 & C2).
  apply reencodes_inv in R3 as (e3 & D3 & E3 & C3).
  apply reencodes_inv in R4 as (e4 & D4 & E4 & C4).
  destruct (reencodes_inv m ref_temp (window payload 118 5)) as (e5 & D5 & E5 & C5).
  { apply ref_temp_reencodes, window_bits. lia. }
  rewrite decode_after_preamble.
  rewrite (decode_accelerometer_basic m payload e1 e2 e3 e4 e5) by assumption.
  cbn [bind]. unfold write_teds_bitstream, accelerometer_doc.
  set (t := skipn 123 payload).
  assert (Ht : length t = (length payload - 123)%nat) by (subst t; apply length_skipn).
  rewrite write_loop_concat with
    (ws := [ window payload 0 14; window payload 14 15; window payload 29 5;
             window payload 34 6; window payload 40 24; window payload 64 2;
             window payload 66 8;
             window payload 74 1; window payload 75 1; window payload 76 16;
             window payload 92 8; window payload 100 2; window payload 102 6;
             []; []; [];
             window payload 108 1; window payload 109 1; window payload 110 8;
             window payload 118 5;
             window t 0 16; window t 16 15; window t 31 12; window t 43 11;
             window t 54 2; window t 56 1; skipn 57 t ]).
  - f_equal. f_equal. cbn [concat app]. rewrite app_nil_r.
    subst t. rewrite !window_skipn, skipn_skipn_add. cbn [Nat.add].
    repeat (rewrite window_then_rest; cbn [Nat.add]).
    reflexivity.
  - unfold accelerometer_body, header_fields, trailer_fields.
    cbn [app fields_encode_to].
    repeat match goal with
           | |- _ /\ _ => split
           | |- True => exact I
           | |- (cls (ConstantTedsElement _ _) = Constant /\ _) \/ _ =>
               left; split; reflexivity
           | |- _ \/ (_ /\ to_bits m (uint_field _ _) = _) =>
               right; split; [discriminate|];
               apply to_bits_uint_field; [lia|rewrite window_bits; lia]
           | |- _ \/ (_ /\ to_bits m (mkElement Date _ _) = _) =>
               right; split; [discriminate|];
               apply to_bits_date_field; [lia|rewrite window_bits; lia]
           | |- _ \/ (_ /\ to_bits m (mkElement Chr5 _ _) = _) =>
               right; split; [discriminate|];
               apply to_bits_chr5_field with (k := 3%nat); rewrite window_bits; lia
           | |- _ \/ (_ /\ to_bits m ?e = Ok (Some _)) =>
               right; split; [|eassumption]
           end.
    + rewrite C1. discriminate.
    + rewrite C2. discriminate.
    + rewrite C3. discriminate.
    + rewrite C4. discriminate.
    + rewrite C5. discriminate.
    + right. split; [discriminate|].
      assert (El : (length t - 57 = length (skipn 57 t))%nat)
        by now rewrite length_skipn.
      rewrite El. apply to_bits_ascii_field.
      rewrite <- El, Ht.
      replace (length payload - 123 - 57)%nat with (length payload - 180)%nat by lia.
      exact Huser.
Qed.


(** C1 (witness): the sample with template id 99. *)
Lemma unknown_template_99_decodes :
  (131 <= length sample_unknown)%nat /\
  lsb_value (window sample_unknown 66 8) = 99 /\
  decode ref_libm sample_unknown false
  = Ok (header_fields sample_unknown ++ trailer_fields (skipn 74 sample_unknown)).
Proof.
  split; [vm_compute; lia|]. split; [reflexivity|].
  apply (unknown_template_is_decoded ref_libm sample_unknown);
    vm_compute; [lia|discriminate|discriminate].
Defined.

(** C2 (counterexample): two valid basic accelerometer streams that are
    not reproduced. Decoded without preamble, the sample is encoded with the
    preamble in front; decoded with its preamble and three stray bits after
    the user data, it is encoded without the stray bits. *)
Lemma accelerometer_not_reproduced :
  (d <- decode ref_libm sample_accelerometer false ;; write_teds_bitstream ref_libm d)
  = Ok (ni_preamble_bits ++ sample_accelerometer)
  /\ ni_preamble_bits ++ sample_accelerometer <> sample_accelerometer
  /\ (d <- decode ref_libm (ni_preamble_bits ++ sample_accelerometer ++ [true; true; true]) true ;;
      write_teds_bitstream ref_libm d)
     = Ok (ni_preamble_bits ++ sample_accelerometer)
  /\ ni_preamble_bits ++ sample_accelerometer
     <> ni_preamble_bits ++ sample_accelerometer ++ [true; true; true].
Proof.
  split; [vm_compute; reflexivity|].
  split; [intros H; apply (f_equal (@length bool)) in H; vm_compute in H; discriminate H|].
  split; [vm_compute; reflexivity|].
  intros H; apply (f_equal (@length bool)) in H; vm_compute in H; discriminate H.
Qed.

(** C2 (witness): the sample accelerometer, decoded with its preamble. *)
Lemma sample_accelerometer_round_trip :
  (d <- decode ref_libm (ni_preamble_bits ++ sample_accelerometer) true ;;
   write_teds_bitstream ref_libm d)
  = Ok (ni_preamble_bits ++ sample_accelerometer).
Proof.
  apply (accelerometer_basic_round_trip ref_libm sample_accelerometer);
    vm_compute; first [reflexivity | lia].
Defined.

(** C4 (counterexample): the 4-bit field holding 5 is emitted as the four
    bits 1010; padding to a byte boundary and then reversing would give the
    eight bits 00001010. *)
Lemma four_bit_field_is_not_padded :
  to_bits ref_libm (mkElement UnInt 4 (VInt 5)) = Ok (Some [true; false; true; false])
  /\ reverse_bitstream (zero_pad_bitstream (uint_bits 4 5))
     = [false; false; false; false; true; false; true; false]
  /\ Z.of_nat (length [true; false; true; false]) mod 8 <> 0.
Proof.
  split; [reflexivity|]. split; [reflexivity|]. vm_compute. discriminate.
Qed.

(** C4 (witness): the 4-bit field holding 5. *)
Lemma four_bit_field_has_four_bits :
  Z.of_nat (length [true; false; true; false]) = 4 /\
  exists z, raw_code ref_libm (mkElement UnInt 4 (VInt 5)) = Ok z /\
            0 <= z < 2 ^ 4 /\
            [true; false; true; false] = reverse_bitstream (uint_bits (Z.to_nat 4) z) /\
            lsb_value [true; false; true; false] = z /\
            int_from_bits (reverse_bitstream (zero_pad_bitstream [true; false; true; false])) = z.
Proof.
  exact (encoded_field_has_its_width ref_libm (mkElement UnInt 4 (VInt 5))
           [true; false; true; false] eq_refl).
Defined.

(** C5 (witness): the sample accelerometer, which does not start with the
    preamble. *)
Lemma preamble_check_on_sample :
  decode ref_libm sample_accelerometer true = Raise InvalidPreamble
  /\ (exists d, decode ref_libm sample_accelerometer false = Ok d /\
                field_val d "manufacturer_id"
                = VInt (lsb_value (firstn 14 sample_accelerometer))).
Proof.
  destruct (preamble_check ref_libm) as (Hbad & _ & _ & Hid & _). split.
  - apply Hbad; [vm_compute; lia|vm_compute; discriminate].
  - eexists. split.
    + vm_compute. reflexivity.
    + apply Hid; [vm_compute; reflexivity|vm_compute; lia].
Defined.

(** C6 (counterexample): the sample accelerometer is decoded without
    preamble, and its encoding starts with the 40 preamble bits. *)
Lemma preamble_added_after_decode_without :
  (d <- decode ref_libm sample_accelerometer false ;;
   out <- write_teds_bitstream ref_libm d ;; Ok (firstn 40 out))
  = Ok ni_preamble_bits.
Proof. vm_compute. reflexivity. Qed.

(** C6 (witness): the sample accelerometer decoded without preamble. *)
Lemma sample_encoding_has_preamble :
  exists rest, ni_preamble_bits ++ sample_accelerometer = ni_preamble_bits ++ rest.
Proof.
  eapply (encode_always_prefixes_preamble ref_libm sample_accelerometer false).
  - vm_compute. reflexivity.
  - vm_compute. reflexivity.
Defined.


(** C7 (witness): the serial number 99999 in 24 bits, day 8000 in 16
    bits, the initials "abc", the text "Hi", and a 35-bit window. *)
Lemma field_round_trips_on_samples :
  (exists b,
     to_bits ref_libm (mkElement UnInt 24 (VInt 99999)) = Ok (Some b) /\
     Z.of_nat (length b) = 24 /\
     from_bits ref_libm (UnIntTedsElement 24) b = Ok (mkElement UnInt 24 (VInt 99999)))
  /\ (exists b,
        to_bits ref_libm
          (mkElement Date 16 (VDatetime (mkDatetime (toordinal epoch + 8000) 0)))
        = Ok (Some b) /\
        Z.of_nat (length b) = 16 /\
        from_bits ref_libm (DateTedsElement 16) b
        = Ok (mkElement Date 16 (VDatetime (mkDatetime (toordinal epoch + 8000) 0))))
  /\ (exists b,
        to_bits ref_libm (mkElement Chr5 15 (VStr "abc")) = Ok (Some b) /\
        Z.of_nat (length b) = 15 /\
        from_bits ref_libm (Chr5TedsElement 15) b = Ok (mkElement Chr5 15 (VStr "abc")))
  /\ (exists b,
        to_bits ref_libm (mkElement Ascii 14 (VStr "Hi")) = Ok (Some b) /\
        Z.of_nat (length b) = 14 /\
        from_bits ref_libm (AsciiTedsElement 14) b = Ok (mkElement Ascii 14 (VStr "Hi")))
  /\ (exists e, from_bits ref_libm (UnIntTedsElement 35) (field 35 12345) = Ok e /\
                to_bits ref_libm e = Ok (Some (field 35 12345)))
  /\ (exists e, from_bits ref_libm (DateTedsElement 35) (field 35 12345) = Ok e /\
                to_bits ref_libm e = Ok (Some (field 35 12345)))
  /\ (exists e, from_bits ref_libm (Chr5TedsElement 35) (field 35 12345) = Ok e /\
                to_bits ref_libm e = Ok (Some (field 35 12345)))
  /\ (exists e, from_bits ref_libm (AsciiTedsElement 35) (field 35 12345) = Ok e /\
                to_bits ref_libm e = Ok (Some (field 35 12345))).
Proof.
  destruct (field_round_trips ref_libm) as (Hu & _ & Hd & Hc & Ha & Hw).
  destruct (Hw 35 (field 35 12345) ltac:(lia) eq_refl) as (Wu & Wd & Wc & Wa).
  repeat apply conj.
  - apply Hu; [lia|split; [discriminate|reflexivity]].
  - apply (Hd 16 8000); [lia|split; [discriminate|reflexivity]|discriminate].
  - apply (Hc "abc"). reflexivity.
  - apply (Ha "Hi"). reflexivity.
  - exact Wu.
  - apply Wd. discriminate.
  - apply Wc. reflexivity.
  - apply Wa. reflexivity.
Defined.

(** C8 (witness): the sample force sensor, without and with preamble. *)
Lemma sample_force_is_unsupported :
  decode ref_libm sample_force false = Raise UnsupportedBranch /\
  decode ref_libm (ni_preamble_bits ++ sample_force) true = Raise UnsupportedBranch.
Proof.
  apply (force_branch_is_unsupported ref_libm sample_force);
    [vm_compute; lia|reflexivity|reflexivity].
Defined.

(** C9 (witness): the sample trailer alone, and the 180-bit sample
    accelerometer. *)
Lemma sample_without_user_data :
  (exists self',
     end_template ref_libm (mkStandardTeds [] (stream sample_trailer) []) = Ok self' /\
     field_val (teds self') "user_data" = VStr "" /\
     remaining (bitstream self') = 0)
  /\ (exists d,
        decode ref_libm sample_accelerometer_bare false = Ok d /\
        field_val d "user_data" = VStr "").
Proof.
  destruct (user_data_empty_without_bits ref_libm) as [Hend Hdec]. split.
  - apply Hend. reflexivity.
  - eapply Hdec.
    + vm_compute. reflexivity.
    + reflexivity.
Defined.

(* ================================================================== *)
(** * Further properties of the codec and of its callers *)

(** ** Padding *)

(** X1: [zero_pad_bitstream] appends fewer than eight zero bits, as many as
    bring the length to a multiple of eight; a bit string of whole bytes is
    returned as it is. *)
Theorem zero_pad_is_minimal (b : bits) :
  exists k : nat,
    zero_pad_bitstream b = b ++ repeat false k /\
    (k < 8)%nat /\
    ((length b + k) mod 8 = 0)%nat /\
    ((length b mod 8 = 0)%nat -> zero_pad_bitstream b = b) /\
    zero_pad_bitstream (zero_pad_bitstream b) = zero_pad_bitstream b.
Proof.
  assert (Hpad : forall c : bits,
             exists k : nat, zero_pad_bitstream c = c ++ repeat false k /\
                             (k < 8)%nat /\ ((length c + k) mod 8 = 0)%nat).
  { intros c. unfold zero_pad_bitstream.
    set (n := Z.of_nat (length c)).
    exists (Z.to_nat ((n + 7) / 8 * 8 - n)).
    pose proof (Z.div_mod (n + 7) 8 ltac:(lia)) as Hd.
    pose proof (Z.mod_pos_bound (n + 7) 8 ltac:(lia)) as Hm.
    assert (Hn : 0 <= n) by (unfold n; lia).
    split; [reflexivity|]. split; [lia|].
    apply Nat2Z.inj. rewrite Nat2Z.inj_mod, Nat2Z.inj_add, Z2Nat.id by lia.
    fold n. replace (n + ((n + 7) / 8 * 8 - n)) with ((n + 7) / 8 * 8) by lia.
    now rewrite Z.mod_mul by lia. }
  assert (Hfix : forall c : bits, (length c mod 8 = 0)%nat -> zero_pad_bitstream c = c).
  { intros c Hc. destruct (Hpad c) as (k & -> & Hk & Hm).
    assert (k = 0%nat) as ->.
    { pose proof (Nat.div_mod_eq (length c) 8) as E1.
      pose proof (Nat.div_mod_eq (length c + k) 8) as E2. lia. }
    cbn. now rewrite app_nil_r. }
  destruct (Hpad b) as (k & E & Hk & Hm).
  exists k. repeat split; try assumption.
  - apply Hfix.
  - apply Hfix. rewrite E, length_app, repeat_length. exact Hm.
Qed.

(** ** Five-bit strings *)

Lemma chr5_loop_short (idx : list Z) :
  forall (d : bits) (p : nat) (acc : string),
    (length d - p < 5 * length idx)%nat ->
    chr5_loop idx (mkBitStream d p) acc = Raise ReadError.
Proof.
  induction idx as [|i idx IH]; intros d p acc H; [cbn in H; lia|].
  cbn [chr5_loop].
  destruct (Z_lt_le_dec (remaining (mkBitStream d p)) 5) as [Hs|Hs].
  - rewrite read_short by lia. reflexivity.
  - rewrite read_ok by lia. cbn [bind data pos].
    change (int_from_bits (reverse_bitstream (zero_pad_bitstream ?w)))
      with (raw_of_bits w).
    change (Z.to_nat 5) with 5%nat.
    destruct (group_value d p 5) as [-> Hb].
    change (ord "`") with 96. change (2 ^ Z.of_nat 5) with 32 in Hb.
    rewrite chr_small by lia. cbn [bind].
    apply IH. rewrite remaining_eq in Hs. cbn [length] in H. lia.
Qed.

(** X2: [Chr5TedsElement.from_bits] on a window whose length is not a
    multiple of five raises [ReadError]: the loop runs once per started
    group and the last read asks for five bits that are not there. *)
Theorem chr5_partial_group_is_a_read_error (m : libm) (n : Z) (v : value) (w : bits) :
  (length w mod 5 <> 0)%nat ->
  from_bits m (mkElement Chr5 n v) w = Raise ReadError.
Proof.
  intros H. unfold from_bits, stream. cbn [cls].
  rewrite chr5_loop_short; [reflexivity|].
  rewrite py_range_length, Nat.sub_0_r.
  pose proof (Nat.div_mod_eq (length w) 5) as E.
  pose proof (Nat.mod_upper_bound (length w) 5 ltac:(lia)) as Hm.
  set (q := (length w / 5)%nat) in *. set (r := (length w mod 5)%nat) in *.
  replace (Z.of_nat (length w) + 5 - 1) with ((Z.of_nat r + 4) + (Z.of_nat q) * 5) by lia.
  rewrite Z.div_add by lia.
  assert ((Z.of_nat r + 4) / 5 = 1) as ->.
  { symmetry. apply (Z.div_unique _ _ 1 (Z.of_nat r - 1)); lia. }
  lia.
Qed.

Lemma chr5_group_value (c : ascii) : lsb_value (chr5_group c) = ord c mod 32.
Proof. destruct c as [[] [] [] [] [] [] [] []]; reflexivity. Qed.

Lemma chr5_chars_of_any_digits (s : string) :
  chr5_chars (String.length s) (chr5_digits s) = string_map chr5_fold s.
Proof.
  induction s as [|c s IH]; [reflexivity|].
  cbn [String.length chr5_chars string_map]. rewrite chr5_digits_cons.
  rewrite firstn_app_exact, skipn_app_exact by apply chr5_group_length.
  rewrite IH, chr5_group_value. reflexivity.
Qed.

(** X3: [Chr5TedsElement.to_bits] accepts any string (of code points below
    256) and sends the five low bits of each character; decoding the result
    gives, for every character [c], the character with code
    [96 + ord c mod 32]. Upper-case letters come back in lower case. *)
Theorem chr5_keeps_five_bits_per_character (m : libm) (n : Z) (s : string) :
  exists b,
    to_bits m (mkElement Chr5 n (VStr s)) = Ok (Some b) /\
    length b = (5 * String.length s)%nat /\
    from_bits m (Chr5TedsElement n) b
    = Ok (mkElement Chr5 n (VStr (string_map chr5_fold s))) /\
    string_map chr5_fold "ABC" = "abc".
Proof.
  exists (chr5_digits s). split; [reflexivity|].
  split; [apply chr5_digits_length|]. split; [|reflexivity].
  unfold Chr5TedsElement.
  rewrite (from_bits_Chr5 m n (VStr "") _ (String.length s)) by apply chr5_digits_length.
  now rewrite chr5_chars_of_any_digits.
Qed.

Lemma chr5_partial_group_sample :
  (length [true; false; true; true; false; true] mod 5 <> 0)%nat /\
  from_bits ref_libm (mkElement Chr5 6 (VStr "")) [true; false; true; true; false; true]
  = Raise ReadError.
Proof.
  split; [cbn; lia|].
  apply (chr5_partial_group_is_a_read_error ref_libm 6 (VStr "")). cbn. lia.
Defined.

(** ** Dates *)

(** X4: [DateTedsElement.to_bits] sends the whole days since 1998-01-01 and
    drops the time of day, so that decoding gives midnight of the same day;
    a date before 1998-01-01 raises [ValueError] (a negative number of days
    is handed to [Bits(uint=...)]), and a date [2 ^ len] days or more after
    1998-01-01 is not encoded either: [to_bits] raises. *)
Theorem date_encode_keeps_the_day (m : libm) (n : Z) (d : datetime) :
  valid_datetime d ->
  let days := toordinal d - toordinal epoch in
  (0 < n -> 0 <= days < 2 ^ n ->
   exists b,
     to_bits m (mkElement Date n (VDatetime d)) = Ok (Some b) /\
     Z.of_nat (length b) = n /\ lsb_value b = days /\
     from_bits m (DateTedsElement n) b
     = Ok (mkElement Date n (VDatetime (mkDatetime (toordinal d) 0))))
  /\ (0 < n -> days < 0 ->
      exists msg,
        to_bits m (mkElement Date n (VDatetime d)) = Raise (ValueError msg))
  /\ (0 < n -> 2 ^ n <= days ->
      exists err, to_bits m (mkElement Date n (VDatetime d)) = Raise err).
Proof.
  intros [Ho Hu] days.
  assert (Hs : datetime_sub_days d epoch = days).
  { unfold datetime_sub_days, days. change (microsecond_of_day epoch) with 0.
    rewrite Z.sub_0_r, Z.add_comm, Z.div_add by lia.
    rewrite Z.div_small by lia. lia. }
  assert (Ht : to_bits m (mkElement Date n (VDatetime d))
               = (b <- to_bitstream (mkElement Date n (VDatetime d)) (VInt days) ;;
                  Ok (Some b))).
  { unfold to_bits, super_to_bits. cbn [cls val bind py_sub]. now rewrite Hs. }
  split; [|split].
  - intros Hn Hd. exists (rev (uint_bits (Z.to_nat n) days)).
    rewrite Ht, to_bitstream_value by (cbn [len]; lia). cbn [bind len].
    assert (Hv : lsb_value (rev (uint_bits (Z.to_nat n) days)) = days).
    { rewrite lsb_value_uint_bits, Z2Nat.id by lia. apply Z.mod_small. lia. }
    split; [reflexivity|]. split; [rewrite length_rev, uint_bits_length; lia|].
    split; [exact Hv|].
    unfold DateTedsElement. rewrite from_bits_Date.
    + rewrite Hv. unfold days. do 4 f_equal. lia.
    + rewrite Hv. unfold last_day_code, days. lia.
  - intros Hn Hd. rewrite Ht. unfold to_bitstream, Bits_uint. cbn [len py_int bind].
    destruct (Z.leb_spec n 0) as [Hn'|_]; [lia|].
    destruct (Z.ltb_spec days 0) as [_|Hd']; [|lia].
    eexists. reflexivity.
  - intros Hn Hd. rewrite Ht. unfold to_bitstream, Bits_uint. cbn [len py_int bind].
    destruct (Z.leb_spec n 0) as [Hn'|_]; [lia|].
    assert (Hpos : 0 < 2 ^ n) by (apply Z.pow_pos_nonneg; lia).
    destruct (Z.ltb_spec days 0) as [Hd'|_]; [lia|].
    destruct (Z.leb_spec (2 ^ n) days) as [_|He]; [|lia].
    eexists. reflexivity.
Qed.

Lemma date_encode_sample :
  valid_datetime (mkDatetime 737390 3600000000) /\
  (exists b,
     to_bits ref_libm (mkElement Date 16 (VDatetime (mkDatetime 737390 3600000000)))
     = Ok (Some b) /\
     Z.of_nat (length b) = 16 /\ lsb_value b = 737390 - toordinal epoch /\
     from_bits ref_libm (DateTedsElement 16) b
     = Ok (mkElement Date 16 (VDatetime (mkDatetime 737390 0))))
  /\ valid_datetime (mkDatetime 729000 0)
  /\ (exists msg,
        to_bits ref_libm (mkElement Date 16 (VDatetime (mkDatetime 729000 0)))
        = Raise (ValueError msg)).
Proof.
  assert (H : valid_datetime (mkDatetime 737390 3600000000)).
  { unfold valid_datetime. cbn [toordinal microsecond_of_day].
    change max_ordinal with 3652059. lia. }
  assert (H' : valid_datetime (mkDatetime 729000 0)).
  { unfold valid_datetime. cbn [toordinal microsecond_of_day].
    change max_ordinal with 3652059. lia. }
  split; [exact H|]. split; [|split; [exact H'|]].
  - apply (date_encode_keeps_the_day ref_libm 16 _ H).
    + lia.
    + cbn [toordinal]. rewrite epoch_ordinal. lia.
  - apply (date_encode_keeps_the_day ref_libm 16 _ H').
    + lia.
    + cbn [toordinal]. rewrite epoch_ordinal. lia.
Defined.


(** ** Integers too large for a float *)

Lemma digits2_pos_bounds (p : positive) :
  2 ^ (Zpos (digits2_pos p) - 1) <= Zpos p < 2 ^ Zpos (digits2_pos p).
Proof.
  induction p as [p IH|p IH|]; cbn [digits2_pos].
  - rewrite Pos2Z.inj_succ. replace (Z.succ (Zpos (digits2_pos p)) - 1)
      with (Z.succ (Zpos (digits2_pos p) - 1)) by lia.
    rewrite !Z.pow_succ_r by lia. lia.
  - rewrite Pos2Z.inj_succ. replace (Z.succ (Zpos (digits2_pos p)) - 1)
      with (Z.succ (Zpos (digits2_pos p) - 1)) by lia.
    rewrite !Z.pow_succ_r by lia. lia.
  - cbn. lia.
Qed.

Lemma shr_1_half (mrs : shr_record) :
  0 <= shr_m mrs -> shr_m (shr_1 mrs) = shr_m mrs / 2.
Proof.
  destruct mrs as [mm r s]. cbn [shr_m]. intros H.
  rewrite <- Z.div2_div.
  destruct mm as [|[p|p|]|p]; try reflexivity; lia.
Qed.

Lemma iter_shr_1 (n : positive) :
  forall mrs : shr_record,
    0 <= shr_m mrs ->
    shr_m (iter_pos shr_1 n mrs) = shr_m mrs / 2 ^ Zpos n.
Proof.
  assert (Hnn : forall mrs, 0 <= shr_m mrs -> 0 <= shr_m (shr_1 mrs)).
  { intros mrs H. rewrite shr_1_half by assumption. apply Z.div_pos; lia. }
  induction n as [n IH|n IH|]; intros mrs H; cbn [iter_pos].
  - rewrite IH, IH, shr_1_half; auto.
    + rewrite !Z.div_div by lia. f_equal.
      replace (Zpos n~1) with (1 + Zpos n + Zpos n) by lia.
      rewrite !Z.pow_add_r by lia. change (2 ^ 1) with 2. lia.
    + rewrite IH by auto. apply Z.div_pos; [auto|lia].
  - rewrite IH, IH; auto.
    + rewrite !Z.div_div by lia. f_equal.
      replace (Zpos n~0) with (Zpos n + Zpos n) by lia.
      rewrite !Z.pow_add_r by lia. lia.
    + rewrite IH by auto. apply Z.div_pos; [auto|lia].
  - rewrite shr_1_half by assumption. reflexivity.
Qed.

Lemma shr_shift (mrs : shr_record) (e n : Z) :
  0 <= shr_m mrs ->
  shr_m (fst (shr mrs e n)) = shr_m mrs / 2 ^ Z.max 0 n /\
  snd (shr mrs e n) = e + Z.max 0 n.
Proof.
  intros H. destruct n as [|n|n]; cbn [shr fst snd].
  - cbn. rewrite Z.div_1_r. lia.
  - rewrite iter_shr_1 by assumption. rewrite Z.max_r by lia. split; reflexivity.
  - cbn. rewrite Z.div_1_r. lia.
Qed.

Lemma shr_record_of_loc_m (z : Z) (l : location) : shr_m (shr_record_of_loc z l) = z.
Proof. destruct l as [|[]]; reflexivity. Qed.

(** Rounding a mantissa of more than 1024 bits at exponent 0 overflows. *)
Lemma round_overflows (p : positive) (l : location) :
  2 ^ 1024 <= Zpos p ->
  binary_round_aux prec emax false (Zpos p) 0 l = S754_infinity false.
Proof.
  intros Hp. unfold binary_round_aux, shr_fexp.
  pose proof (digits2_pos_bounds p) as Hd.
  set (d := Zpos (digits2_pos p)) in *.
  assert (Hd' : 1025 <= d).
  { destruct (Z_lt_le_dec d 1025) as [Hlt|]; [|assumption].
    assert (2 ^ d <= 2 ^ 1024) by (apply Z.pow_le_mono_r; lia). lia. }
  cbn [Zdigits2]. fold d.
  assert (Hf : fexp prec emax (d + 0) - 0 = d - 53).
  { unfold fexp, emin, prec, emax. lia. }
  rewrite Hf.
  destruct (shr (shr_record_of_loc (Zpos p) l) 0 (d - 53)) as [mrs' e'] eqn:E1.
  pose proof (shr_shift (shr_record_of_loc (Zpos p) l) 0 (d - 53)) as S1.
  rewrite shr_record_of_loc_m, E1 in S1. cbn [fst snd] in S1.
  specialize (S1 ltac:(lia)). destruct S1 as [M1 X1].
  rewrite Z.max_r in M1, X1 by lia.
  assert (Hm1 : 2 ^ 52 <= shr_m mrs').
  { rewrite M1. apply Z.div_le_lower_bound; [apply Z.pow_pos_nonneg; lia|].
    rewrite Z.mul_comm, <- Z.pow_add_r by lia.
    replace (52 + (d - 53)) with (d - 1) by lia. lia. }
  set (m2 := round_nearest_even (shr_m mrs') (loc_of_shr_record mrs')).
  assert (Hm2 : 2 ^ 52 <= m2).
  { unfold m2, round_nearest_even.
    destruct (loc_of_shr_record mrs') as [|[]]; try lia.
    destruct (Z.even (shr_m mrs')); lia. }
  assert (Hpos : 0 < 2 ^ 52) by reflexivity.
  destruct m2 as [|p2|p2] eqn:Em2; try lia.
  pose proof (digits2_pos_bounds p2) as Hd2.
  cbn [Zdigits2]. set (d2 := Zpos (digits2_pos p2)) in *.
  assert (Hf2 : fexp prec emax (d2 + e') - e' = d2 - 53).
  { unfold fexp, emin, prec, emax. lia. }
  rewrite Hf2.
  destruct (shr (shr_record_of_loc (Zpos p2) loc_Exact) e' (d2 - 53)) as [mrs'' e''] eqn:E2.
  pose proof (shr_shift (shr_record_of_loc (Zpos p2) loc_Exact) e' (d2 - 53)) as S2.
  rewrite shr_record_of_loc_m, E2 in S2. cbn [fst snd] in S2.
  specialize (S2 ltac:(lia)). destruct S2 as [M2 X2].
  assert (Hm3 : 0 < shr_m mrs'').
  { rewrite M2. destruct (Z.max_spec 0 (d2 - 53)) as [[Hc ->]|[Hc ->]].
    - apply Z.div_str_pos. split; [apply Z.pow_pos_nonneg; lia|].
      apply Z.le_trans with (2 ^ (d2 - 1)); [|lia].
      apply Z.pow_le_mono_r; lia.
    - rewrite Z.div_1_r. lia. }
  destruct (shr_m mrs'') as [|p3|p3]; try lia.
  destruct (Z.leb_spec e'' (emax - prec)) as [Hle|]; [|reflexivity].
  unfold emax, prec in Hle. lia.
Qed.

Lemma float_of_int_overflows (z : Z) :
  2 ^ 1024 <= z -> float_of_int z = Raise OverflowError.
Proof.
  intros H. unfold float_of_int.
  destruct z as [|p|p]; try (exfalso; assert (0 < 2 ^ 1024) by reflexivity; lia).
  assert (E : binary_normalize prec emax (Zpos p) 0 false = S754_infinity false).
  { unfold binary_normalize, binary_round, shl_align.
    pose proof (digits2_pos_bounds p) as Hd.
    set (d := Zpos (digits2_pos p)) in *.
    assert (Hd' : 1025 <= d).
    { destruct (Z_lt_le_dec d 1025) as [Hlt|]; [|assumption].
      assert (2 ^ d <= 2 ^ 1024) by (apply Z.pow_le_mono_r; lia). lia. }
    assert (Hf : fexp prec emax (d + 0) - 0 = d - 53).
    { unfold fexp, emin, prec, emax. lia. }
    rewrite Hf. destruct (d - 53) eqn:Ed; try lia.
    now apply round_overflows. }
  rewrite E. reflexivity.
Qed.

Lemma int_truediv_overflows (z : Z) :
  2 ^ 1024 <= z -> int_truediv z 1 = Raise OverflowError.
Proof.
  intros H. unfold int_truediv. cbn [Z.eqb].
  destruct z as [|p|p]; try (exfalso; assert (0 < 2 ^ 1024) by reflexivity; lia).
  assert (E : SFdiv prec emax (SF_of_int (Zpos p)) (SF_of_int 1) = S754_infinity false).
  { cbn [SF_of_int SFdiv]. unfold SFdiv_core_binary.
    pose proof (digits2_pos_bounds p) as Hd.
    cbn [Zdigits2 digits2_pos].
    set (d := Zpos (digits2_pos p)) in *.
    assert (Hd' : 1025 <= d).
    { destruct (Z_lt_le_dec d 1025) as [Hlt|]; [|assumption].
      assert (2 ^ d <= 2 ^ 1024) by (apply Z.pow_le_mono_r; lia). lia. }
    assert (Hf : Z.min (fexp prec emax (d + 0 - (1 + 0))) (0 - 0) = 0).
    { unfold fexp, emin, prec, emax. lia. }
    rewrite Hf. cbn [Z.sub Z.add Z.opp].
    assert (Hq : Z.div_eucl (Zpos p) 1 = (Zpos p, 0)).
    { pose proof (Z.div_1_r (Zpos p)) as Q. pose proof (Z.mod_1_r (Zpos p)) as R.
      unfold Z.div, Z.modulo in Q, R.
      destruct (Z.div_eucl (Zpos p) 1) as [q r]. now subst. }
    rewrite Hq. cbn [xorb]. now apply round_overflows. }
  rewrite E. reflexivity.
Qed.

Lemma pow3_overflows (raw : Z) : 647 <= raw -> 2 ^ 1024 <= 3 ^ raw.
Proof.
  intros H. apply Z.le_trans with (3 ^ 647).
  - vm_compute. discriminate.
  - apply Z.pow_le_mono_r; lia.
Qed.


(** ** Fields checked on every window *)

Lemma all_windows_complete (n : nat) :
  forall w : bits, length w = n -> In w (all_windows n).
Proof.
  induction n as [|n IH]; intros w H.
  - destruct w; [now left|discriminate H].
  - destruct w as [|x w]; [discriminate H|].
    cbn [all_windows]. apply in_flat_map. exists w.
    split; [apply IH; now inversion H|].
    destruct x; cbn; auto.
Qed.

Lemma checked_on_all_windows (p : bits -> bool) (n : nat) (w : bits) :
  forallb p (all_windows n) = true -> length w = n -> p w = true.
Proof.
  intros H Hw. rewrite forallb_forall in H. apply H.
  now apply all_windows_complete.
Qed.

Lemma encodes_back_reencodes (m : libm) (e : element) (w : bits) :
  encodes_back m e w = true -> reencodes m e w.
Proof.
  unfold encodes_back, reencodes. intros H.
  destruct (e' <- from_bits m e w ;; to_bits m e') as [[b|]|]; try discriminate H.
  now rewrite (bits_eqb_eq _ _ H).
Qed.

Lemma temperature_checked (m : libm) :
  forallb (encodes_back m temperature) (all_windows 11) = true.
Proof. vm_compute. reflexivity. Qed.

Lemma electrical_output_checked (m : libm) :
  forallb (fun w => match (e' <- from_bits m electrical_output w ;; to_bits m e') with
                    | Ok (Some b) => Nat.eqb (length b) 7
                    | _ => false
                    end) (all_windows 7) = true.
Proof. vm_compute. reflexivity. Qed.

Lemma response_time_checked (m : libm) :
  forallb (fun w => match from_bits m sensor_response_time w with
                    | Ok _ => true
                    | Raise _ => false
                    end) (all_windows 6) = true.
Proof. vm_compute. reflexivity. Qed.

Lemma from_bits_temperature (m : libm) (w : bits) :
  from_bits m temperature w = Ok (set_val temperature (VInt (lsb_value w - 273))).
Proof.
  unfold from_bits, temperature, ConResTedsElement.
  cbn [cls py_mul py_add arith bind]. rewrite raw_of_bits_lsb.
  do 3 f_equal. lia.
Qed.

Lemma from_bits_resistance (m : libm) (w : bits) :
  from_bits m thermocouple_resistance w
  = Ok (set_val thermocouple_resistance (VInt (3 ^ lsb_value w))).
Proof.
  unfold from_bits, thermocouple_resistance, ConRelResTedsElement.
  cbn [cls py_mul py_add arith bind py_pow]. rewrite raw_of_bits_lsb.
  pose proof (lsb_value_bounds w) as H.
  destruct (Z.leb_spec 0 (lsb_value w)); [|lia].
  cbn [bind arith]. do 3 f_equal.
  change (1 + 2 * 1) with 3. lia.
Qed.


(** ** Thermocouples (template 36) *)

Section Thermocouple.
Variable m : libm.
Variable b : bits.
Variables e1 e2 e3 e4 e5 e6 : element.
Hypothesis Hlen : (190 <= length b)%nat.
Hypothesis Htid : lsb_value (window b 66 8) = 36.
Hypothesis H1 : from_bits m temperature (window b 74 11) = Ok e1.
Hypothesis H2 : from_bits m temperature (window b 85 11) = Ok e2.
Hypothesis H3 : from_bits m electrical_output (window b 96 7) = Ok e3.
Hypothesis H4 : from_bits m electrical_output (window b 103 7) = Ok e4.
Hypothesis H5 : from_bits m thermocouple_resistance (window b 115 12) = Ok e5.
Hypothesis H6 : from_bits m sensor_response_time (window b 127 6) = Ok e6.

Lemma decode_thermocouple :
  decode m b false = Ok (thermocouple_doc b e1 e2 e3 e4 e5 e6).
Proof.
  rewrite decode_from_header by lia. rewrite Htid.
  unfold load_template. cbn [val_eq_int Z.eqb Pos.eqb].
  unfold thermocouple_template, after_header.
  rewrite process_fixed by (try reflexivity; enough_bits).
  cbn [fields_decode bitstream data pos teds stdout].
  unfold UnIntTedsElement. cbn [len].
  change (len (ConResTedsElement 11 _ _)) with 11.
  change (len (ConResTedsElement 7 _ _)) with 7.
  change (len (ConRelResTedsElement 12 _ _)) with 12.
  change (len (ConRelResTedsElement 6 _ _)) with 6.
  change (len (ConstantTedsElement 0 _)) with 0.
  windows. rewrite !from_bits_UnInt, !from_bits_Constant.
  fold temperature electrical_output thermocouple_resistance sensor_response_time.
  rewrite H1, H2, H3, H4, H5, H6. cbn [bind].
  rewrite trailer_ok by enough_bits.
  cbn [bind teds bitstream data pos]. reflexivity.
Qed.
End Thermocouple.

Lemma thermocouple_temperature_fits (m : libm) (w : bits) :
  length w = 11%nat ->
  to_bits m (set_val temperature (VInt (lsb_value w - 273))) = Ok (Some w).
Proof.
  intros Hw.
  pose proof (checked_on_all_windows _ 11 w (temperature_checked m) Hw) as H.
  apply encodes_back_reencodes in H. unfold reencodes in H.
  now rewrite from_bits_temperature in H.
Qed.

Lemma unit_tolerance_resistance (m : libm) (w : bits) :
  647 <= lsb_value w ->
  to_bits m (set_val thermocouple_resistance (VInt (3 ^ lsb_value w)))
  = Raise OverflowError.
Proof.
  intros H. pose proof (pow3_overflows _ H) as Hp.
  unfold to_bits, super_to_bits, thermocouple_resistance, set_val, ConRelResTedsElement.
  cbn [cls val bind py_truediv arith].
  now rewrite int_truediv_overflows.
Qed.

Lemma from_bits_unit_tolerance_float (m : libm) (n : Z) (x : float) (w : bits) :
  647 <= lsb_value w ->
  from_bits m (ConRelResTedsElement n (VFloat x) (VInt 1)) w = Raise OverflowError.
Proof.
  intros H. pose proof (pow3_overflows _ H) as Hp.
  assert (Hraw : (0 <=? lsb_value w) = true) by (apply Z.leb_le; lia).
  unfold from_bits, ConRelResTedsElement.
  cbn [cls py_mul py_add arith bind py_pow]. rewrite raw_of_bits_lsb, Hraw.
  cbn [bind arith]. change (1 + 2 * 1) with 3.
  now rewrite float_of_int_overflows.
Qed.

(** X5: the two temperature fields of the thermocouple template (11 bits,
    start -273, step 1) are exact: a window decodes to the integer
    [raw - 273], and encoding that value gives the window back, for each of
    the 2048 windows. *)
Theorem thermocouple_temperature_round_trips (m : libm) (w : bits) :
  length w = 11%nat ->
  from_bits m temperature w = Ok (set_val temperature (VInt (lsb_value w - 273))) /\
  to_bits m (set_val temperature (VInt (lsb_value w - 273))) = Ok (Some w).
Proof.
  intros Hw. split; [apply from_bits_temperature|].
  now apply thermocouple_temperature_fits.
Qed.

Lemma thermocouple_temperature_sample :
  length (field 11 293) = 11%nat /\
  from_bits ref_libm temperature (field 11 293)
  = Ok (set_val temperature (VInt (lsb_value (field 11 293) - 273))) /\
  to_bits ref_libm (set_val temperature (VInt (lsb_value (field 11 293) - 273)))
  = Ok (Some (field 11 293)).
Proof.
  split; [reflexivity|].
  apply (thermocouple_temperature_round_trips ref_libm (field 11 293)). reflexivity.
Defined.

(** X6: a field declared with tolerance 1, as [thermocouple_resistance] and
    the sensitivities of the extended accelerometer are, has the base
    [1 + 2 * 1 = 3], and [3 ** raw] does not fit a float from [raw = 647]
    on. With an integer start the field decodes to the exact integer
    [3 ** raw] and cannot be encoded again; with a float start it cannot
    even be decoded. Both raise [OverflowError]. *)
Theorem unit_tolerance_field_overflows (m : libm) (n : Z) (x : float) (w : bits) :
  647 <= lsb_value w ->
  from_bits m (ConRelResTedsElement n (VInt 1) (VInt 1)) w
  = Ok (mkElement (ConRelRes (VInt 1) (VInt 1)) n (VInt (3 ^ lsb_value w))) /\
  to_bits m (mkElement (ConRelRes (VInt 1) (VInt 1)) n (VInt (3 ^ lsb_value w)))
  = Raise OverflowError /\
  from_bits m (ConRelResTedsElement n (VFloat x) (VInt 1)) w = Raise OverflowError.
Proof.
  intros H. pose proof (pow3_overflows _ H) as Hp.
  assert (Hraw : (0 <=? lsb_value w) = true) by (apply Z.leb_le; lia).
  repeat split.
  - unfold from_bits, ConRelResTedsElement.
    cbn [cls py_mul py_add arith bind py_pow]. rewrite raw_of_bits_lsb, Hraw.
    cbn [bind arith]. unfold set_val. cbn [cls len].
    change (1 + 2 * 1) with 3. now rewrite Z.mul_1_l.
  - unfold to_bits, super_to_bits. cbn [cls val bind py_truediv arith].
    now rewrite int_truediv_overflows.
  - now apply from_bits_unit_tolerance_float.
Qed.

Lemma unit_tolerance_field_sample :
  647 <= lsb_value (field 12 647) /\
  to_bits ref_libm
    (mkElement (ConRelRes (VInt 1) (VInt 1)) 12 (VInt (3 ^ lsb_value (field 12 647))))
  = Raise OverflowError /\
  from_bits ref_libm (ConRelResTedsElement 16 (VFloat 5e-7) (VInt 1)) (field 12 647)
  = Raise OverflowError.
Proof.
  assert (H : 647 <= lsb_value (field 12 647)) by (vm_compute; discriminate).
  split; [exact H|].
  split; apply (unit_tolerance_field_overflows ref_libm _ 5e-7 (field 12 647) H).
Defined.

Lemma write_loop_raises (m : libm) (d1 : dict) :
  forall (ws : list bits) (key : string) (e : element) (d2 : dict) (err : exn) (acc : bits),
    fields_encode_to m d1 ws ->
    cls e <> Constant ->
    to_bits m e = Raise err ->
    write_loop m (d1 ++ (key, e) :: d2) acc = Raise err.
Proof.
  induction d1 as [|[k0 e0] d1 IH]; intros [|w ws] key e d2 err acc H Hc He;
    cbn [fields_encode_to] in H; try contradiction.
  - cbn [app write_loop]. rewrite He. cbn [bind].
    destruct (cls e); try reflexivity. contradiction.
  - destruct H as [[[Hc0 ->]|[Hc0 Hw]] H]; cbn [app write_loop].
    + rewrite Hc0. now apply IH with (ws := ws).
    + rewrite Hw. cbn [bind].
      rewrite (IH ws key e d2 err (acc ++ w) H Hc He).
      destruct (cls e0); try reflexivity. contradiction.
Qed.

Lemma electrical_output_decodes (m : libm) (w : bits) :
  length w = 7%nat ->
  exists e w', from_bits m electrical_output w = Ok e /\
               cls e = cls electrical_output /\
               to_bits m e = Ok (Some w') /\ length w' = 7%nat.
Proof.
  intros Hw.
  pose proof (checked_on_all_windows _ 7 w (electrical_output_checked m) Hw) as H.
  cbv beta in H.
  destruct (from_bits m electrical_output w) as [e|] eqn:E; [|discriminate H].
  cbn [bind] in H. destruct (to_bits m e) as [[w'|]|] eqn:E'; try discriminate H.
  exists e, w'. repeat split; auto.
  - now apply from_bits_shape in E.
  - now apply Nat.eqb_eq.
Qed.

Lemma response_time_decodes (m : libm) (w : bits) :
  length w = 6%nat -> exists e, from_bits m sensor_response_time w = Ok e.
Proof.
  intros Hw.
  pose proof (checked_on_all_windows _ 6 w (response_time_checked m) Hw) as H.
  cbv beta in H.
  destruct (from_bits m sensor_response_time w) as [e|]; [now exists e|discriminate H].
Qed.

(** X7: a stream with template id 36 and at least 190 bits is always
    decoded: no field of the thermocouple template can fail. The
    temperatures are the integers [raw - 273] and the resistance is the
    integer [3 ** raw]. *)
Theorem thermocouple_stream_decodes (m : libm) (b : bits) :
  (190 <= length b)%nat ->
  lsb_value (window b 66 8) = 36 ->
  exists e3 e4 e6,
    from_bits m electrical_output (window b 96 7) = Ok e3 /\
    from_bits m electrical_output (window b 103 7) = Ok e4 /\
    from_bits m sensor_response_time (window b 127 6) = Ok e6 /\
    decode m b false
    = Ok (thermocouple_doc b
            (set_val temperature (VInt (lsb_value (window b 74 11) - 273)))
            (set_val temperature (VInt (lsb_value (window b 85 11) - 273)))
            e3 e4
            (set_val thermocouple_resistance (VInt (3 ^ lsb_value (window b 115 12))))
            e6).
Proof.
  intros Hlen Htid.
  destruct (electrical_output_decodes m (window b 96 7)) as (e3 & _ & H3 & _);
    [apply window_bits; lia|].
  destruct (electrical_output_decodes m (window b 103 7)) as (e4 & _ & H4 & _);
    [apply window_bits; lia|].
  destruct (response_time_decodes m (window b 127 6)) as (e6 & H6);
    [apply window_bits; lia|].
  exists e3, e4, e6. repeat split; try assumption.
  apply decode_thermocouple; auto using from_bits_temperature, from_bits_resistance.
Qed.

(** X8: the document decoded from a thermocouple stream whose resistance
    code is 647 or more cannot be written: [write_teds_to_file] raises
    [OverflowError] when it reaches [thermocouple_resistance]. *)
Theorem thermocouple_document_is_not_written (m : libm) (b : bits) :
  (190 <= length b)%nat ->
  lsb_value (window b 66 8) = 36 ->
  647 <= lsb_value (window b 115 12) ->
  exists d,
    decode m b false = Ok d /\
    write_teds_bitstream m d = Raise OverflowError /\
    write_teds_to_file m d = Raise OverflowError.
Proof.
  intros Hlen Htid Hres.
  destruct (electrical_output_decodes m (window b 96 7)) as (e3 & w3 & H3 & C3 & T3 & _);
    [apply window_bits; lia|].
  destruct (electrical_output_decodes m (window b 103 7)) as (e4 & w4 & H4 & C4 & T4 & _);
    [apply window_bits; lia|].
  destruct (response_time_decodes m (window b 127 6)) as (e6 & H6);
    [apply window_bits; lia|].
  exists (thermocouple_doc b
            (set_val temperature (VInt (lsb_value (window b 74 11) - 273)))
            (set_val temperature (VInt (lsb_value (window b 85 11) - 273)))
            e3 e4
            (set_val thermocouple_resistance (VInt (3 ^ lsb_value (window b 115 12))))
            e6).
  split.
  { apply decode_thermocouple; auto using from_bits_temperature, from_bits_resistance. }
  assert (W : write_teds_bitstream m
                (thermocouple_doc b
                   (set_val temperature (VInt (lsb_value (window b 74 11) - 273)))
                   (set_val temperature (VInt (lsb_value (window b 85 11) - 273)))
                   e3 e4
                   (set_val thermocouple_resistance
                      (VInt (3 ^ lsb_value (window b 115 12))))
                   e6) = Raise OverflowError).
  { unfold write_teds_bitstream, thermocouple_doc, thermocouple_body, header_fields.
    cbn [app].
    match goal with
    | |- write_loop m ?l _ = _ =>
        change l with
          (firstn 15 l ++ ("thermocouple_resistance",
                           set_val thermocouple_resistance
                             (VInt (3 ^ lsb_value (window b 115 12))))
                          :: skipn 16 l)
    end.
    apply write_loop_raises with
      (ws := [ window b 0 14; window b 14 15; window b 29 5; window b 34 6;
               window b 40 24; window b 64 2; window b 66 8;
               []; window b 74 11; window b 85 11; w3; w4; [];
               window b 110 4; window b 114 1 ]).
    - cbn [firstn fields_encode_to].
      repeat match goal with
             | |- _ /\ _ => split
             | |- True => exact I
             | |- (cls (ConstantTedsElement _ _) = Constant /\ _) \/ _ =>
                 left; split; reflexivity
             | |- _ \/ (_ /\ to_bits m (uint_field _ _) = _) =>
                 right; split; [discriminate|];
                 apply to_bits_uint_field; [lia|rewrite window_bits; lia]
             | |- _ \/ (_ /\ to_bits m (set_val temperature _) = _) =>
                 right; split; [discriminate|];
                 apply thermocouple_temperature_fits; apply window_bits; lia
             | |- _ \/ (_ /\ to_bits m ?e = Ok (Some _)) =>
                 right; split; [|eassumption]
             end.
      + rewrite C3. discriminate.
      + rewrite C4. discriminate.
    - discriminate.
    - apply unit_tolerance_resistance. exact Hres. }
  split; [exact W|]. unfold write_teds_to_file. now rewrite W.
Qed.

Lemma thermocouple_sample_decodes :
  (190 <= length sample_thermocouple)%nat /\
  lsb_value (window sample_thermocouple 66 8) = 36 /\
  exists e3 e4 e6,
    from_bits ref_libm electrical_output (window sample_thermocouple 96 7) = Ok e3 /\
    from_bits ref_libm electrical_output (window sample_thermocouple 103 7) = Ok e4 /\
    from_bits ref_libm sensor_response_time (window sample_thermocouple 127 6) = Ok e6 /\
    decode ref_libm sample_thermocouple false
    = Ok (thermocouple_doc sample_thermocouple
            (set_val temperature (VInt (lsb_value (window sample_thermocouple 74 11) - 273)))
            (set_val temperature (VInt (lsb_value (window sample_thermocouple 85 11) - 273)))
            e3 e4
            (set_val thermocouple_resistance
               (VInt (3 ^ lsb_value (window sample_thermocouple 115 12))))
            e6).
Proof.
  split; [vm_compute; lia|]. split; [reflexivity|].
  apply thermocouple_stream_decodes; [vm_compute; lia|reflexivity].
Defined.

Lemma thermocouple_sample_is_not_written :
  (190 <= length sample_thermocouple)%nat /\
  lsb_value (window sample_thermocouple 66 8) = 36 /\
  647 <= lsb_value (window sample_thermocouple 115 12) /\
  exists d,
    decode ref_libm sample_thermocouple false = Ok d /\
    write_teds_bitstream ref_libm d = Raise OverflowError /\
    write_teds_to_file ref_libm d = Raise OverflowError.
Proof.
  split; [vm_compute; lia|]. split; [reflexivity|].
  split; [vm_compute; discriminate|].
  apply thermocouple_document_is_not_written;
    [vm_compute; lia|reflexivity|vm_compute; discriminate].
Defined.


(** ** Linear fields with float parameters *)

Lemma reencodes_as_spec (m : libm) (e : element) (n : nat) (lost : list Z) (w : bits) :
  forallb (reencodes_as m e n lost) (all_windows n) = true ->
  length w = n ->
  (e' <- from_bits m e w ;; to_bits m e')
  = Ok (Some (field n (reencoded_code lost (lsb_value w)))).
Proof.
  intros H Hw. pose proof (checked_on_all_windows _ n w H Hw) as C.
  unfold reencodes_as in C.
  destruct (e' <- from_bits m e w ;; to_bits m e') as [[b|]|]; try discriminate C.
  now rewrite (bits_eqb_eq _ _ C).
Qed.

(** X21: the linear fields with float parameters lose a known set of
    codes, whatever the mathematics library: decoding a window and encoding
    the value gives the same code back, except for 18 of the 128 codes of
    the electrical outputs, 9 of the 128 codes of [tf_sl] and 5 of the 64
    codes of [temp_coef], which come back one lower because the quotient
    [(val - start) / step] falls just below the integer and is
    truncated. *)
Theorem linear_fields_lose_known_codes (m : libm) :
  (forall w, length w = 7%nat ->
     (e <- from_bits m electrical_output w ;; to_bits m e)
     = Ok (Some (field 7 (reencoded_code lost_electrical_output (lsb_value w)))))
  /\ (forall w, length w = 7%nat ->
        (e <- from_bits m tf_sl w ;; to_bits m e)
        = Ok (Some (field 7 (reencoded_code lost_tf_sl (lsb_value w)))))
  /\ (forall w, length w = 6%nat ->
        (e <- from_bits m temp_coef w ;; to_bits m e)
        = Ok (Some (field 6 (reencoded_code lost_temp_coef (lsb_value w)))))
  /\ reencoded_code lost_tf_sl 1 = 0
  /\ reencoded_code lost_tf_sl 2 = 2.
Proof.
  split; [|split; [|split; [|split]]].
  - intros w Hw. apply reencodes_as_spec; [|exact Hw]. vm_compute. reflexivity.
  - intros w Hw. apply reencodes_as_spec; [|exact Hw]. vm_compute. reflexivity.
  - intros w Hw. apply reencodes_as_spec; [|exact Hw]. vm_compute. reflexivity.
  - reflexivity.
  - reflexivity.
Qed.


(** ** Extended accelerometers *)

Lemma process_loop_raises (m : libm) (td1 : dict) (key : string) (e : element)
      (rest : dict) (d : bits) (p : nat) (err : exn) :
  fixed_width td1 = true ->
  0 <= len e ->
  fields_bits td1 + len e <= remaining (mkBitStream d p) ->
  (exists td1', fields_decode m td1 (skipn p d) = Ok td1') ->
  from_bits m e (window d (p + Z.to_nat (fields_bits td1)) (Z.to_nat (len e))) = Raise err ->
  len e <> -1 ->
  process_loop m (td1 ++ (key, e) :: rest) (mkBitStream d p) = Raise err.
Proof.
  intros Hf He Hr (td1' & Hd) Hraise Hn.
  pose proof (fields_bits_nonneg _ Hf) as H0.
  rewrite process_loop_app, process_loop_fixed by (auto; lia).
  rewrite Hd. cbn [bind process_loop].
  destruct (Z.eqb_spec (len e) (-1)) as [E|_]; [contradiction|].
  rewrite read_ok.
  - cbn [bind data pos]. unfold window in Hraise. now rewrite Hraise.
  - rewrite remaining_eq in *. lia.
Qed.

(** X9: an extended accelerometer stream (template 25 with the
    [extended_functionality] bit set) whose [sens_ref_01] code is 647 or
    more is not decoded: the template gives the field the tolerance 1, and
    the constructor raises [OverflowError]. *)
Theorem extended_accelerometer_overflows (m : libm) (b : bits) :
  (95 <= length b)%nat ->
  lsb_value (window b 66 8) = 25 ->
  nth 74 b false = false ->
  nth 75 b false = true ->
  647 <= lsb_value (window b 79 16) ->
  decode m b false = Raise OverflowError.
Proof.
  intros Hlen Htid Hforce Hext Hcode.
  rewrite decode_from_header by lia. rewrite Htid.
  unfold load_template. cbn [val_eq_int Z.eqb Pos.eqb].
  unfold accelerometer_force_template.
  rewrite selectors_read by lia. cbn [bind teds].
  rewrite Hforce, Hext.
  match goal with
  | |- context [if ?c then accelerometer_no_ext_template _ _ else _] =>
      replace c with false by reflexivity
  end.
  match goal with
  | |- context [if ?c then force_no_ext_template _ else _] =>
      replace c with false by reflexivity
  end.
  match goal with
  | |- context [if ?c then accelerometer_ext_template _ _ else _] =>
      replace c with true by reflexivity
  end.
  unfold accelerometer_ext_template, process. cbn [bitstream].
  match goal with
  | |- context [process_loop m ?td _] =>
      change td with (firstn 13 td ++ ("sens_ref_01",
                        ConRelResTedsElement 16 (VFloat 5e-7) (VInt 1)) :: skipn 14 td)
  end.
  rewrite process_loop_raises with (err := OverflowError); try reflexivity.
  - cbn [len ConRelResTedsElement]. lia.
  - cbn [firstn len ConRelResTedsElement]. enough_bits.
  - cbn [firstn fields_decode]. unfold UnIntTedsElement. cbn [len].
    change (len (ConstantTedsElement 0 _)) with 0.
    rewrite !from_bits_UnInt, !from_bits_Constant. cbn [bind]. eexists. reflexivity.
  - apply from_bits_unit_tolerance_float. exact Hcode.
  - discriminate.
Qed.

Lemma extended_sample_overflows :
  (95 <= length sample_extended)%nat /\
  lsb_value (window sample_extended 66 8) = 25 /\
  nth 74 sample_extended false = false /\
  nth 75 sample_extended false = true /\
  647 <= lsb_value (window sample_extended 79 16) /\
  decode ref_libm sample_extended false = Raise OverflowError.
Proof.
  split; [vm_compute; lia|]. do 3 (split; [reflexivity|]).
  split; [vm_compute; discriminate|].
  apply extended_accelerometer_overflows;
    [vm_compute; lia|reflexivity|reflexivity|reflexivity|vm_compute; discriminate].
Defined.


(** ** The stream of a constructed object *)

Lemma read_inv (s s' : BitStream) (n : Z) (w : bits) :
  read s n = Ok (w, s') ->
  0 <= n <= remaining s /\
  w = firstn (Z.to_nat n) (skipn (pos s) (data s)) /\
  s' = mkBitStream (data s) (pos s + Z.to_nat n).
Proof.
  unfold read. intros H.
  destruct (Z.ltb_spec n 0); [discriminate H|].
  destruct (Z.gtb_spec n (remaining s)); [discriminate H|].
  inversion H. repeat split; lia.
Qed.

Lemma process_loop_stream (m : libm) (td : dict) :
  forall s td' s',
    process_loop m td s = Ok (td', s') ->
    data s' = data s /\ (pos s <= pos s')%nat.
Proof.
  induction td as [|[key e] td IH]; intros s td' s' H; cbn [process_loop] in H.
  - inversion H; subst. split; [reflexivity|lia].
  - apply bind_ok_inv in H as ([w s1] & Hr & H).
    apply bind_ok_inv in H as (e' & _ & H).
    apply bind_ok_inv in H as ([r s2] & Hl & H).
    inversion H; subst. apply IH in Hl as [Hd Hp].
    assert (data s1 = data s /\ (pos s <= pos s1)%nat) as [Hd1 Hp1].
    { destruct (len e =? -1); apply read_inv in Hr as (_ & _ & ->); cbn [data pos];
        split; try reflexivity; lia. }
    split; [congruence|lia].
Qed.

Lemma process_stream (m : libm) (td : dict) (self self' : StandardTeds) :
  process m td self = Ok self' ->
  data (bitstream self') = data (bitstream self).
Proof.
  unfold process. intros H. apply bind_ok_inv in H as ([td' s'] & Hl & H).
  inversion H; subst. cbn [bitstream]. now apply process_loop_stream in Hl.
Qed.

Lemma process_to_the_end (m : libm) (td : dict) (key : string) (e : element)
      (self self' : StandardTeds) :
  len e = -1 ->
  process m (td ++ [(key, e)]) self = Ok self' ->
  remaining (bitstream self') = 0.
Proof.
  unfold process. intros He H. apply bind_ok_inv in H as ([td' s'] & Hl & H).
  inversion H; subst. cbn [bitstream]. clear H.
  rewrite process_loop_app in Hl.
  apply bind_ok_inv in Hl as ([r1 s1] & _ & Hl).
  apply bind_ok_inv in Hl as ([r2 s2] & Hl & H). inversion H; subst. clear H.
  cbn [process_loop] in Hl. rewrite He in Hl. cbn [Z.eqb Pos.eqb] in Hl.
  apply bind_ok_inv in Hl as ([w s3] & Hr & Hl).
  apply bind_ok_inv in Hl as (e' & _ & Hl). cbn [bind] in Hl. inversion Hl; subst.
  apply read_inv in Hr as (_ & _ & ->).
  unfold remaining. cbn [data pos]. lia.
Qed.

Ltac stream_tac :=
  repeat match goal with
         | H : bind _ _ = Ok _ |- _ =>
             let s := fresh "s" in
             let Hs := fresh "Hs" in
             apply bind_ok_inv in H as (s & Hs & H)
         | H : (if ?c then _ else _) = Ok _ |- _ => destruct c
         | H : Raise _ = Ok _ |- _ => discriminate H
         | H : Ok _ = Ok _ |- _ => inversion H; subst; clear H
         | H : process _ _ _ = Ok _ |- _ => apply process_stream in H
         end.

(** X10: when [StandardTeds.__init__] returns, the stream has been read to
    its end, and its bits are the ones it was given: decoding moves the
    read position only. *)
Theorem constructor_reads_to_the_end (m : libm) (bs : BitStream) (has_preamble : bool)
        (self : StandardTeds) :
  StandardTeds_init m bs has_preamble = Ok self ->
  data (bitstream self) = data bs /\
  remaining (bitstream self) = 0 /\
  (length (data bs) <= pos (bitstream self))%nat.
Proof.
  intros H.
  assert (Hend : remaining (bitstream self) = 0).
  { rewrite init_then_trailer in H. apply bind_ok_inv in H as (s & _ & H).
    unfold end_template in H.
    match type of H with
    | process m ?td _ = _ =>
        change td with (firstn 6 td ++ [("user_data", AsciiTedsElement (-1))]) in H
    end.
    now apply process_to_the_end in H. }
  assert (Hdata : data (bitstream self) = data bs).
  { unfold StandardTeds_init, init_body, check_basic_teds, load_template, end_template,
      thermocouple_template, accelerometer_force_template,
      accelerometer_no_ext_template, accelerometer_ext_template,
      transfer_function_template, force_no_ext_template, force_ext_template in H.
    destruct has_preamble.
    - apply bind_ok_inv in H as (s0 & H0 & H).
      apply bind_ok_inv in H0 as ([w s'] & Hr & H0).
      apply read_inv in Hr as (_ & _ & ->).
      destruct (negb (bits_eqb w ni_preamble_bits)); [discriminate H0|].
      inversion H0; subst s0; clear H0.
      stream_tac; cbn [bitstream data] in *; congruence.
    - cbn [bind] in H. stream_tac; cbn [bitstream data] in *; congruence. }
  repeat split; try assumption.
  unfold remaining in Hend. rewrite Hdata in Hend. lia.
Qed.

Lemma sample_is_read_to_the_end :
  exists self,
    StandardTeds_init ref_libm (stream sample_accelerometer) false = Ok self /\
    data (bitstream self) = data (stream sample_accelerometer) /\
    remaining (bitstream self) = 0 /\
    (length (data (stream sample_accelerometer)) <= pos (bitstream self))%nat.
Proof.
  eexists. split; [vm_compute; reflexivity|].
  apply (constructor_reads_to_the_end ref_libm (stream sample_accelerometer) false).
  vm_compute. reflexivity.
Defined.


(** ** The exceptions of a decode *)

Lemma tame_ok {A : Type} (a : A) : tame (Ok a).
Proof. intros e H. discriminate H. Qed.

Lemma tame_bind {A B : Type} (r : result A) (k : A -> result B) :
  tame r -> (forall a, r = Ok a -> tame (k a)) -> tame (bind r k).
Proof.
  intros Hr Hk e H. destruct r as [a|e0]; cbn [bind] in H.
  - now apply (Hk a eq_refl).
  - apply Hr. congruence.
Qed.

Lemma tame_read (s : BitStream) (n : Z) : 0 <= n -> tame (read s n).
Proof.
  intros Hn e H. unfold read in H.
  destruct (Z.ltb_spec n 0); [lia|].
  destruct (n >? remaining s); inversion H. now left.
Qed.

Lemma tame_float_of_int (z : Z) : tame (float_of_int z).
Proof.
  intros e H. unfold float_of_int in H.
  destruct (is_infinity _); inversion H. right. now right.
Qed.

Lemma arith_num (fi : Z -> Z -> result value) (ff : float -> float -> result value)
      (a b : value) :
  is_num a = true -> is_num b = true ->
  (forall x y, tame (fi x y)) -> (forall x y, tame (ff x y)) ->
  (forall x y v, fi x y = Ok v -> is_num v = true) ->
  (forall x y v, ff x y = Ok v -> is_num v = true) ->
  tame (arith fi ff a b) /\ (forall v, arith fi ff a b = Ok v -> is_num v = true).
Proof.
  intros Ha Hb Hfi Hff Ni Nf.
  destruct a; try discriminate Ha; destruct b; try discriminate Hb; cbn [arith].
  - split; [apply Hfi|apply Ni].
  - split.
    + apply tame_bind; [apply tame_float_of_int|intros; apply Hff].
    + intros v H. apply bind_ok_inv in H as (x & _ & H). eapply Nf; eassumption.
  - split.
    + apply tame_bind; [apply tame_float_of_int|intros; apply Hff].
    + intros v H. apply bind_ok_inv in H as (x & _ & H). eapply Nf; eassumption.
  - split; [apply Hff|apply Nf].
Qed.

Lemma py_add_num (a b : value) :
  is_num a = true -> is_num b = true ->
  tame (py_add a b) /\ (forall v, py_add a b = Ok v -> is_num v = true).
Proof.
  intros Ha Hb. apply arith_num; auto; intros; try apply tame_ok;
    match goal with H : Ok _ = Ok _ |- _ => now inversion H end.
Qed.

Lemma py_mul_num (a b : value) :
  is_num a = true -> is_num b = true ->
  tame (py_mul a b) /\ (forall v, py_mul a b = Ok v -> is_num v = true).
Proof.
  intros Ha Hb. apply arith_num; auto; intros; try apply tame_ok;
    match goal with H : Ok _ = Ok _ |- _ => now inversion H end.
Qed.

Lemma float_pow_num (m : libm) (x : float) (n : Z) :
  0 <= n ->
  tame (float_pow m x n) /\ (forall v, float_pow m x n = Ok v -> is_num v = true).
Proof.
  intros Hn. unfold float_pow.
  destruct (n =? 0); [split; [apply tame_ok|intros v H; now inversion H]|].
  destruct (Z.ltb_spec n 0) as [Hlt|_]; [lia|]. rewrite andb_false_r.
  split.
  - apply tame_bind; [apply tame_float_of_int|]. intros y _ e He.
    destruct (is_infinity _ && is_finite x); inversion He. right. now right.
  - intros v Hv. apply bind_ok_inv in Hv as (y & _ & Hv).
    destruct (is_infinity _ && is_finite x); inversion Hv. reflexivity.
Qed.

Lemma py_pow_num (m : libm) (base : value) (n : Z) :
  is_num base = true -> 0 <= n ->
  tame (py_pow m base n) /\ (forall v, py_pow m base n = Ok v -> is_num v = true).
Proof.
  intros Hb Hn. destruct base; try discriminate Hb; cbn [py_pow].
  - destruct (Z.leb_spec 0 n) as [_|Hlt]; [|lia].
    split; [apply tame_ok|intros v Hv; now inversion Hv].
  - now apply float_pow_num.
Qed.

Lemma tame_chr5_loop (idx : list Z) :
  forall s acc, tame (chr5_loop idx s acc).
Proof.
  induction idx as [|i idx IH]; intros s acc; cbn [chr5_loop]; [apply tame_ok|].
  apply tame_bind; [apply tame_read; lia|]. intros [w s'] Hr.
  apply read_inv in Hr as (_ & -> & _).
  change (int_from_bits (reverse_bitstream (zero_pad_bitstream ?w)))
    with (raw_of_bits w).
  change (Z.to_nat 5) with 5%nat.
  destruct (group_value (data s) (pos s) 5) as [-> Hb].
  change (ord "`") with 96. change (2 ^ Z.of_nat 5) with 32 in Hb.
  rewrite chr_small by lia. cbn [bind]. apply IH.
Qed.

Lemma tame_ascii_loop (idx : list Z) :
  forall s acc, tame (ascii_loop idx s acc).
Proof.
  induction idx as [|i idx IH]; intros s acc; cbn [ascii_loop]; [apply tame_ok|].
  destruct (remaining s >=? 7); [|apply IH].
  apply tame_bind; [apply tame_read; lia|]. intros [w s'] Hr.
  apply read_inv in Hr as (_ & -> & _).
  change (int_from_bits (reverse_bitstream (zero_pad_bitstream ?w)))
    with (raw_of_bits w).
  change (Z.to_nat 7) with 7%nat.
  destruct (group_value (data s) (pos s) 7) as [-> Hb].
  change (2 ^ Z.of_nat 7) with 128 in Hb.
  rewrite chr_small by lia. cbn [bind]. apply IH.
Qed.

Lemma tame_datetime_add_days (d : datetime) (n : Z) : tame (datetime_add_days d n).
Proof.
  intros e H. unfold datetime_add_days in H.
  destruct (Z.abs n >? max_delta_days); [inversion H; right; now right|].
  destruct ((1 <=? toordinal d + n) && (toordinal d + n <=? max_ordinal));
    inversion H. right. now right.
Qed.

Lemma tame_from_bits (m : libm) (e : element) (w : bits) :
  declared_field e = true -> tame (from_bits m e w).
Proof.
  unfold declared_field, from_bits. intros H. apply andb_prop in H as [_ H].
  pose proof (lsb_value_bounds w) as Hraw. rewrite <- raw_of_bits_lsb in Hraw.
  destruct (cls e) as [| | | | |start step|start step| |].
  - apply tame_ok.
  - apply tame_bind; [apply tame_chr5_loop|intros; apply tame_ok].
  - apply tame_bind; [apply tame_ascii_loop|intros; apply tame_ok].
  - apply tame_bind; [apply tame_datetime_add_days|intros; apply tame_ok].
  - intros x Hx. inversion Hx. right. now left.
  - apply andb_prop in H as [Hs Ht].
    destruct (py_mul_num (VInt (raw_of_bits w)) step eq_refl Ht) as [T1 N1].
    apply tame_bind; [exact T1|]. intros t Et.
    destruct (py_add_num start t Hs (N1 t Et)) as [T2 _].
    apply tame_bind; [exact T2|intros; apply tame_ok].
  - apply andb_prop in H as [Hs Ht].
    destruct (py_mul_num (VInt 2) step eq_refl Ht) as [T1 N1].
    apply tame_bind; [exact T1|]. intros t Et.
    destruct (py_add_num (VInt 1) t eq_refl (N1 t Et)) as [T2 N2].
    apply tame_bind; [exact T2|]. intros base Eb.
    destruct (py_pow_num m base (raw_of_bits w) (N2 base Eb) ltac:(lia)) as [T3 N3].
    apply tame_bind; [exact T3|]. intros p Ep.
    destruct (py_mul_num start p Hs (N3 p Ep)) as [T4 _].
    apply tame_bind; [exact T4|intros; apply tame_ok].
  - intros x Hx. inversion Hx. right. now left.
  - apply tame_ok.
Qed.

Lemma tame_process_loop (m : libm) (td : dict) :
  forallb (fun kv => declared_field (snd kv)) td = true ->
  forall s, tame (process_loop m td s).
Proof.
  induction td as [|[key e] td IH]; intros H s; cbn [process_loop]; [apply tame_ok|].
  cbn [forallb snd] in H. apply andb_prop in H as [He H].
  apply tame_bind.
  - destruct (Z.eqb_spec (len e) (-1)).
    + apply tame_read. unfold remaining. lia.
    + apply tame_read. unfold declared_field in He.
      apply andb_prop in He as [Hl _]. apply Z.leb_le in Hl. lia.
  - intros [w s1] _. apply tame_bind; [now apply tame_from_bits|]. intros e' _.
    apply tame_bind; [now apply IH|]. intros [r s2] _. apply tame_ok.
Qed.

Lemma tame_process (m : libm) (td : dict) (self : StandardTeds) :
  forallb (fun kv => declared_field (snd kv)) td = true ->
  tame (process m td self).
Proof.
  intros H. unfold process.
  apply tame_bind; [now apply tame_process_loop|]. intros [r s] _. apply tame_ok.
Qed.

Lemma one_bit_value (l : bits) : exists x : bool, lsb_value (firstn 1 l) = Z.b2z x.
Proof.
  destruct l as [|x l]; [now exists false|].
  exists x. cbn [firstn lsb_value]. lia.
Qed.

(** The two selectors of template 25 are single bits. *)
Lemma selectors_are_bits (m : libm) (self s1 : StandardTeds) :
  process m
    [ ("acceleration_force", UnIntTedsElement 1);
      ("extended_functionality", UnIntTedsElement 1) ] self = Ok s1 ->
  exists x y : bool,
    field_val (teds s1) "acceleration_force" = VInt (Z.b2z x) /\
    field_val (teds s1) "extended_functionality" = VInt (Z.b2z y).
Proof.
  unfold process. intros H. apply bind_ok_inv in H as ([td' s'] & Hl & H).
  inversion H; subst; clear H. cbn [teds].
  cbn [process_loop] in Hl. unfold UnIntTedsElement in Hl. cbn [len] in Hl.
  change (1 =? -1) with false in Hl. cbv iota in Hl.
  apply bind_ok_inv in Hl as ([w1 t1] & R1 & Hl). rewrite from_bits_UnInt in Hl.
  cbn [bind] in Hl.
  apply bind_ok_inv in Hl as ([r t2] & Hl & H). inversion H; subst; clear H.
  apply bind_ok_inv in Hl as ([w2 t3] & R2 & Hl). rewrite from_bits_UnInt in Hl.
  cbn [bind] in Hl. inversion Hl; subst; clear Hl.
  apply read_inv in R1 as (_ & -> & _). apply read_inv in R2 as (_ & -> & _).
  change (Z.to_nat 1) with 1%nat.
  destruct (one_bit_value (skipn (pos (bitstream self)) (data (bitstream self))))
    as [x ->].
  destruct (one_bit_value (skipn (pos t1) (data t1))) as [y ->].
  exists x, y. unfold field_val, dict_update. cbn [fold_left fst snd].
  rewrite dict_get_set_other by discriminate.
  rewrite !dict_get_set_same. split; reflexivity.
Qed.

Lemma tame_not_implemented {A : Type} : tame (@Raise A NotImplementedError).
Proof. intros e H. inversion H. right. now left. Qed.

Ltac decide_conditions :=
  repeat match goal with
         | |- context [if ?c then _ else _] =>
             let v := eval vm_compute in c in
             match v with
             | true => change c with true
             | false => change c with false
             end; cbv iota
         end.

Lemma tame_accelerometer_force_template (m : libm) (self : StandardTeds) :
  tame (accelerometer_force_template m self).
Proof.
  unfold accelerometer_force_template.
  apply tame_bind; [apply tame_process; reflexivity|]. intros s1 E1.
  destruct (selectors_are_bits m self s1 E1) as (x & y & -> & ->).
  apply tame_bind.
  { destruct x, y; decide_conditions;
      try apply tame_not_implemented; apply tame_process; reflexivity. }
  intros s2 _. apply tame_bind; [apply tame_process; reflexivity|].
  intros s3 _. apply tame_bind.
  { destruct (val_eq_int _ 1); [apply tame_process; reflexivity|apply tame_ok]. }
  intros s4 _. apply tame_process. reflexivity.
Qed.

Lemma tame_init_body (m : libm) (self : StandardTeds) : tame (init_body m self).
Proof.
  unfold init_body.
  apply tame_bind; [apply tame_process; reflexivity|]. intros s1 _.
  apply tame_bind; [apply tame_ok|]. intros s2 _.
  apply tame_bind.
  { unfold load_template.
    destruct (val_eq_int _ 25); [apply tame_accelerometer_force_template|].
    destruct (val_eq_int _ 36); [apply tame_process; reflexivity|apply tame_ok]. }
  intros s3 _. apply tame_process. reflexivity.
Qed.

(** X11: a decode lets through four exceptions only: [ReadError] (the
    stream is too short), [NotImplementedError] (a force sensor),
    [OverflowError] (a date or a scaled value out of range) and, with
    [has_preamble = True], the preamble [ValueError]. The bare [ValueError]
    that ends the dispatch on the two selectors of template 25 is never
    raised, no more than [TypeError], [ZeroDivisionError], [CreationError]
    or the [ValueError] of [chr]. *)
Theorem decode_raises_only (m : libm) (b : bits) (has_preamble : bool) (e : exn) :
  decode m b has_preamble = Raise e ->
  e = ReadError \/ e = NotImplementedError \/ e = OverflowError \/
  (has_preamble = true /\ e = InvalidPreamble).
Proof.
  intros H.
  assert (T : tame (StandardTeds_init m (stream b) has_preamble)
              \/ (has_preamble = true /\ e = InvalidPreamble)).
  { unfold decode, StandardTeds_init in *. destruct has_preamble.
    - cbn [bitstream] in *.
      destruct (read (stream b) 40) as [[w s]|e0] eqn:R; cbn [bind] in *.
      + destruct (negb (bits_eqb w ni_preamble_bits)); cbn [bind] in *.
        * right. split; [reflexivity|]. now inversion H.
        * left. apply tame_init_body.
      + left. intros e1 H1. apply (tame_read (stream b) 40); [lia|].
        rewrite R. congruence.
    - left. cbn [bind]. apply tame_init_body. }
  destruct T as [T|T]; [|tauto].
  unfold decode in H.
  destruct (StandardTeds_init m (stream b) has_preamble) as [s|e0] eqn:E;
    [discriminate H|].
  cbn [bind] in H. inversion H; subst e0.
  destruct (T e eq_refl) as [?|[?|?]]; tauto.
Qed.

Lemma short_sample_raises_a_read_error :
  decode ref_libm (sample_header 25) false = Raise ReadError /\
  (ReadError = ReadError \/ ReadError = NotImplementedError \/ ReadError = OverflowError \/
   (false = true /\ ReadError = InvalidPreamble)).
Proof.
  assert (H : decode ref_libm (sample_header 25) false = Raise ReadError)
    by (vm_compute; reflexivity).
  split; [exact H|].
  exact (decode_raises_only ref_libm (sample_header 25) false ReadError H).
Defined.


(** ** Streams that are too short *)

Lemma process_loop_needs (m : libm) (td : dict) :
  forall s td' s',
    fixed_width td = true ->
    process_loop m td s = Ok (td', s') ->
    fields_bits td <= remaining s /\ remaining s' = remaining s - fields_bits td.
Proof.
  induction td as [|[key e] td IH]; intros s td' s' Hf H; cbn [process_loop] in H.
  - inversion H; subst. cbn [fields_bits]. unfold remaining. lia.
  - cbn [fixed_width forallb snd] in Hf. apply andb_prop in Hf as [He Hf].
    apply Z.leb_le in He.
    destruct (Z.eqb_spec (len e) (-1)) as [E|_]; [lia|].
    apply bind_ok_inv in H as ([w s1] & Hr & H).
    apply bind_ok_inv in H as (e' & _ & H).
    apply bind_ok_inv in H as ([r s2] & Hl & H).
    inversion H; subst. apply (IH _ _ _ Hf) in Hl as [Hn Hrem].
    apply read_inv in Hr as (Hr & _ & ->).
    pose proof (fields_bits_nonneg td Hf) as H0.
    unfold remaining in *. cbn [data pos fields_bits] in *. lia.
Qed.

Lemma process_needs (m : libm) (td : dict) (self self' : StandardTeds) :
  fixed_width td = true ->
  process m td self = Ok self' ->
  remaining (bitstream self') = remaining (bitstream self) - fields_bits td /\
  0 <= fields_bits td <= remaining (bitstream self).
Proof.
  unfold process. intros Hf H. apply bind_ok_inv in H as ([td' s'] & Hl & H).
  inversion H; subst. cbn [bitstream].
  pose proof (fields_bits_nonneg td Hf).
  apply process_loop_needs in Hl; [lia|assumption].
Qed.

Lemma process_loop_too_short (m : libm) (td : dict) :
  forall s,
    fixed_width td = true ->
    forallb (fun kv => is_UnInt (snd kv)) td = true ->
    remaining s < fields_bits td ->
    process_loop m td s = Raise ReadError.
Proof.
  induction td as [|[key e] td IH]; intros s Hf Hu Hs.
  - cbn [fields_bits] in Hs. unfold remaining in Hs. lia.
  - cbn [fixed_width forallb snd] in Hf, Hu.
    apply andb_prop in Hf as [He Hf]. apply andb_prop in Hu as [Hc Hu].
    apply Z.leb_le in He. cbn [process_loop fields_bits] in *.
    destruct (Z.eqb_spec (len e) (-1)) as [E|_]; [lia|].
    destruct (Z_lt_le_dec (remaining s) (len e)) as [Hlt|Hge].
    + rewrite read_short by lia. reflexivity.
    + rewrite read_ok by lia. cbn [bind].
      assert (Hd : exists e', from_bits m e
                     (firstn (Z.to_nat (len e)) (skipn (pos s) (data s))) = Ok e').
      { unfold is_UnInt in Hc. unfold from_bits.
        destruct (cls e); try discriminate Hc. eauto. }
      destruct Hd as [e' ->]. cbn [bind].
      rewrite IH; [reflexivity|assumption|assumption|].
      unfold remaining in *. cbn [data pos]. lia.
Qed.

Lemma process_remaining (m : libm) (td : dict) (self self' : StandardTeds) :
  process m td self = Ok self' ->
  remaining (bitstream self') <= remaining (bitstream self).
Proof.
  unfold process. intros H. apply bind_ok_inv in H as ([td' s'] & Hl & H).
  inversion H; subst. cbn [bitstream].
  apply process_loop_stream in Hl as [Hd Hp]. unfold remaining. rewrite Hd. lia.
Qed.

Ltac remaining_tac :=
  repeat match goal with
         | H : bind _ _ = Ok _ |- _ =>
             let s := fresh "s" in
             let Hs := fresh "Hs" in
             apply bind_ok_inv in H as (s & Hs & H)
         | H : (if ?c then _ else _) = Ok _ |- _ => destruct c
         | H : Raise _ = Ok _ |- _ => discriminate H
         | H : Ok _ = Ok _ |- _ => inversion H; subst; clear H
         | H : process _ _ _ = Ok _ |- _ => apply process_remaining in H
         end.

Lemma load_template_remaining (m : libm) (v : value) (self self' : StandardTeds) :
  load_template m v self = Ok self' ->
  remaining (bitstream self') <= remaining (bitstream self).
Proof.
  unfold load_template, thermocouple_template,
    accelerometer_force_template, accelerometer_no_ext_template,
    accelerometer_ext_template, transfer_function_template,
    force_no_ext_template, force_ext_template.
  intros H. remaining_tac; lia.
Qed.

Lemma decode_needs_131_bits (m : libm) (b : bits) (d : dict) :
  decode m b false = Ok d -> (131 <= length b)%nat.
Proof.
  unfold decode, StandardTeds_init, init_body, check_basic_teds. cbn [bind].
  intros H.
  apply bind_ok_inv in H as (s4 & H & _).
  apply bind_ok_inv in H as (s1 & H1 & H).
  cbn [bind] in H.
  apply bind_ok_inv in H as (s3 & H3 & H4). cbn [teds] in H3.
  apply process_needs in H1 as [R1 B1]; [|reflexivity].
  apply load_template_remaining in H3. cbn [bitstream] in *.
  unfold end_template, process in H4.
  apply bind_ok_inv in H4 as ([td' s'] & Hl & _).
  match type of Hl with
  | process_loop m ?td _ = _ =>
      change td with (firstn 6 td ++ [("user_data", AsciiTedsElement (-1))]) in Hl
  end.
  rewrite process_loop_app in Hl.
  apply bind_ok_inv in Hl as ([r1 t1] & Hl & _).
  apply process_loop_needs in Hl as [B4 _]; [|reflexivity].
  change (fields_bits basic_teds) with 74 in *.
  match type of B4 with
  | fields_bits ?td <= _ => change (fields_bits td) with 57 in B4
  end.
  unfold remaining, stream in *. cbn [data pos] in *. lia.
Qed.

(** X12: a stream shorter than the 74-bit header makes the constructor
    raise [ReadError]; a decode that returns has been given at least 131
    bits (header and trailer), and 171 with a preamble. *)
Theorem short_streams_are_rejected (m : libm) (b : bits) :
  ((length b < 74)%nat -> decode m b false = Raise ReadError)
  /\ (forall d, decode m b false = Ok d -> (131 <= length b)%nat)
  /\ (forall d, decode m b true = Ok d -> (171 <= length b)%nat).
Proof.
  repeat apply conj.
  - intros H. unfold decode, StandardTeds_init, init_body, process. cbn [bind bitstream].
    rewrite process_loop_too_short; try reflexivity.
    change (fields_bits basic_teds) with 74.
    unfold remaining, stream. cbn [data pos]. lia.
  - apply decode_needs_131_bits.
  - intros d H.
    assert (Hp : (40 <= length b)%nat /\ firstn 40 b = ni_preamble_bits).
    { unfold decode, StandardTeds_init in H. cbn [bitstream] in H.
      apply bind_ok_inv in H as (s4 & H & _).
      apply bind_ok_inv in H as (s0 & H & _).
      apply bind_ok_inv in H as ([w s] & Hr & H).
      apply read_inv in Hr as (Hr & -> & _).
      unfold remaining, stream in Hr. cbn [data pos skipn] in *.
      split; [lia|].
      destruct (bits_eqb _ ni_preamble_bits) eqn:E; [|discriminate H].
      now apply bits_eqb_eq in E. }
    destruct Hp as [H40 Hpre].
    rewrite <- (firstn_skipn 40 b), Hpre, decode_after_preamble in H.
    apply decode_needs_131_bits in H. rewrite length_skipn in H. lia.
Qed.


(** ** The bit budget of a stream *)

Ltac decide_conditions_in H :=
  repeat match type of H with
         | context [if ?c then _ else _] =>
             let v := eval vm_compute in c in
             match v with
             | true => change c with true in H
             | false => change c with false in H
             end; cbv iota in H
         end.

Ltac keep key H N :=
  pose proof H as N; apply (process_keeps _ _ key) in N; [|reflexivity].

Ltac count_bits H :=
  apply process_needs in H; [|reflexivity];
  match type of H with
  | context [fields_bits ?td] =>
      let v := eval vm_compute in (fields_bits td) in
      change (fields_bits td) with v in H
  end.

Lemma accelerometer_force_template_budget (m : libm) (self s' : StandardTeds) :
  accelerometer_force_template m self = Ok s' ->
  field_val (teds s') "template_id" = field_val (teds self) "template_id" /\
  remaining (bitstream s')
  = remaining (bitstream self)
    - (2 + (if val_eq_int (field_val (teds s') "extended_functionality") 1
            then 51 else 24)
       + 10 + (if val_eq_int (field_val (teds s') "transfer_function") 1
               then 38 else 0) + 13).
Proof.
  unfold accelerometer_force_template. intros H.
  apply bind_ok_inv in H as (s1 & H1 & H).
  destruct (selectors_are_bits m self s1 H1) as (x & y & Hx & Hy).
  rewrite Hx, Hy in H.
  apply bind_ok_inv in H as (s2 & H2 & H).
  apply bind_ok_inv in H as (s3 & H3 & H).
  apply bind_ok_inv in H as (s4 & H4 & H5).
  keep "template_id" H1 T1.
  keep "template_id" H3 T3.
  keep "template_id" H5 T5.
  keep "extended_functionality" H3 E3.
  keep "extended_functionality" H5 E5.
  keep "transfer_function" H5 F5.
  count_bits H1. count_bits H3. count_bits H5.
  assert (B2 : field_val (teds s2) "template_id" = field_val (teds s1) "template_id" /\
               field_val (teds s2) "extended_functionality" = VInt (Z.b2z y) /\
               remaining (bitstream s2)
               = remaining (bitstream s1) - (if y then 51 else 24)).
  { rewrite <- Hy. destruct x; [exfalso; destruct y; vm_compute in H2; discriminate H2|].
    destruct y; decide_conditions_in H2;
      unfold accelerometer_no_ext_template, accelerometer_ext_template in H2;
      keep "template_id" H2 T2;
      keep "extended_functionality" H2 E2;
      count_bits H2; repeat split; try assumption; lia. }
  destruct B2 as (T2 & E2 & R2).
  assert (B4 : field_val (teds s4) "template_id" = field_val (teds s3) "template_id" /\
               field_val (teds s4) "extended_functionality"
               = field_val (teds s3) "extended_functionality" /\
               field_val (teds s4) "transfer_function"
               = field_val (teds s3) "transfer_function" /\
               remaining (bitstream s4)
               = remaining (bitstream s3)
                 - (if val_eq_int (field_val (teds s3) "transfer_function") 1
                    then 38 else 0)).
  { destruct (val_eq_int (field_val (teds s3) "transfer_function") 1).
    - unfold transfer_function_template in H4.
      keep "template_id" H4 T4.
      keep "extended_functionality" H4 E4.
      keep "transfer_function" H4 F4.
      count_bits H4. repeat split; try assumption; lia.
    - inversion H4; subst. repeat split; lia. }
  destruct B4 as (T4 & E4 & F4 & R4).
  split; [congruence|].
  rewrite F5, F4, E5, E4, E3, E2.
  replace (val_eq_int (VInt (Z.b2z y)) 1) with y by (now destruct y).
  lia.
Qed.

Lemma load_template_budget (m : libm) (self s' : StandardTeds) :
  load_template m (field_val (teds self) "template_id") self = Ok s' ->
  field_val (teds s') "template_id" = field_val (teds self) "template_id" /\
  remaining (bitstream s') = remaining (bitstream self) - template_bits (teds s').
Proof.
  unfold load_template, template_bits. intros H.
  destruct (val_eq_int (field_val (teds self) "template_id") 25) eqn:E25.
  - apply accelerometer_force_template_budget in H as [T R].
    rewrite T, E25. split; [reflexivity|exact R].
  - destruct (val_eq_int (field_val (teds self) "template_id") 36) eqn:E36.
    + unfold thermocouple_template in H. keep "template_id" H T. count_bits H.
      rewrite T, E25, E36. split; [reflexivity|lia].
    + inversion H; subst. rewrite E25, E36. split; [reflexivity|lia].
Qed.

(** X22: the length of a stream fixes the length of its user data. A
    decode that returns has read 74 header bits, the bits of the template
    (for template 25: 2 selector bits, 24 or 51 bits of sensitivity block,
    10 common bits, 38 more with a transfer function, 13 reference bits;
    for template 36: 59 bits; for any other id: none) and 57 trailer bits;
    [user_data] has one character for every seven of the remaining bits. *)
Theorem stream_length_fixes_user_data (m : libm) (b : bits) (d : dict) :
  decode m b false = Ok d ->
  exists s,
    field_val d "user_data" = VStr s /\
    131 + template_bits d <= Z.of_nat (length b) /\
    Z.of_nat (String.length s) = (Z.of_nat (length b) - (131 + template_bits d)) / 7.
Proof.
  unfold decode, StandardTeds_init, init_body, check_basic_teds. cbn [bind].
  intros H.
  apply bind_ok_inv in H as (st & H & Hd). inversion Hd; subst d; clear Hd.
  apply bind_ok_inv in H as (s1 & H1 & H). cbn [bind] in H.
  apply bind_ok_inv in H as (s3 & H3 & H4).
  count_bits H1. cbn [bitstream] in H1.
  change (field_val (teds s1) "template_id")
    with (field_val (teds (mkStandardTeds (teds s1) (bitstream s1)
                             (stdout s1 ++ ["Sensor utilizes legacy teds format!"])))
                    "template_id") in H3.
  apply load_template_budget in H3 as [T3 R3]. cbn [teds bitstream] in T3, R3.
  assert (H57 : 57 <= remaining (bitstream s3)).
  { unfold end_template, process in H4.
    apply bind_ok_inv in H4 as ([td' s'] & Hl & _).
    match type of Hl with
    | process_loop m ?td _ = _ =>
        change td with (firstn 6 td ++ [("user_data", AsciiTedsElement (-1))]) in Hl
    end.
    rewrite process_loop_app in Hl.
    apply bind_ok_inv in Hl as ([r1 t1] & Hl & _).
    apply process_loop_needs in Hl as [B4 _]; [|reflexivity].
    match type of B4 with
    | fields_bits ?td <= _ => change (fields_bits td) with 57 in B4
    end.
    exact B4. }
  rewrite trailer_ok in H4 by exact H57.
  pose proof (f_equal (fun r => match r with Ok s => teds s | Raise _ => [] end) H4)
    as Hst.
  change (dict_update (teds s3)
            (trailer_fields (skipn (pos (bitstream s3)) (data (bitstream s3))))
          = teds st) in Hst.
  rewrite <- Hst. clear H4 Hst.
  assert (Ht : template_bits
                 (dict_update (teds s3)
                    (trailer_fields (skipn (pos (bitstream s3)) (data (bitstream s3)))))
               = template_bits (teds s3)).
  { unfold template_bits, field_val. now rewrite !dict_update_other by reflexivity. }
  rewrite Ht, trailer_user_data. eexists. split; [reflexivity|].
  rewrite ascii_chars_length.
  pose proof (remaining_rest (bitstream s3)) as Hr.
  set (rest := skipn (pos (bitstream s3)) (data (bitstream s3))) in *.
  assert (Hlen : remaining (stream b) = Z.of_nat (length b)).
  { unfold remaining, stream. cbn [data pos]. lia. }
  split; [lia|].
  rewrite Nat2Z.inj_div, Nat2Z.inj_sub by lia. f_equal. cbn [Z.of_nat]. lia.
Qed.

Lemma sample_length_fixes_user_data :
  exists d s,
    decode ref_libm sample_accelerometer false = Ok d /\
    field_val d "user_data" = VStr s /\
    131 + template_bits d <= Z.of_nat (length sample_accelerometer) /\
    Z.of_nat (String.length s)
    = (Z.of_nat (length sample_accelerometer) - (131 + template_bits d)) / 7.
Proof.
  destruct (decode ref_libm sample_accelerometer false) as [d|e] eqn:E.
  - destruct (stream_length_fixes_user_data ref_libm sample_accelerometer d E)
      as (s & H1 & H2 & H3).
    exists d, s. split; [reflexivity|]. split; [exact H1|]. split; [exact H2|exact H3].
  - vm_compute in E. discriminate E.
Defined.


(** ** Documents that survive a write *)

Lemma window_firstn (b : bits) (k off n : nat) :
  (off + n <= k)%nat -> window (firstn k b) off n = window b off n.
Proof.
  intros H. unfold window. rewrite skipn_firstn_comm, firstn_firstn.
  f_equal. lia.
Qed.

Lemma header_fields_firstn (b : bits) (k : nat) :
  (74 <= k)%nat -> header_fields (firstn k b) = header_fields b.
Proof.
  intros H. unfold header_fields. now rewrite !window_firstn by lia.
Qed.

Lemma trailer_fields_firstn (t : bits) :
  (57 <= length t)%nat ->
  trailer_fields (firstn (57 + 7 * ((length t - 57) / 7)) t) = trailer_fields t.
Proof.
  intros H. unfold trailer_fields.
  set (k := ((length t - 57) / 7)%nat).
  assert (Hk : (7 * k <= length t - 57)%nat) by apply Nat.Div0.mul_div_le.
  rewrite !window_firstn by lia.
  rewrite length_firstn, Nat.min_l by lia.
  replace (57 + 7 * k - 57)%nat with (7 * k)%nat by lia.
  rewrite Nat.mul_comm, Nat.div_mul by lia.
  rewrite skipn_firstn_comm.
  replace (57 + k * 7 - 57)%nat with (k * 7)%nat by lia.
  rewrite ascii_chars_firstn by lia. reflexivity.
Qed.

Lemma window_join (b : bits) (off n off' n' : nat) :
  off' = (off + n)%nat ->
  window b off n ++ window b off' n' = window b off (n + n').
Proof.
  intros ->. unfold window. rewrite <- skipn_skipn_add.
  generalize (skipn off b). clear. intros l. revert l.
  induction n as [|n IH]; intros [|x l]; cbn [firstn skipn app Nat.add];
    try reflexivity.
  - now rewrite firstn_nil.
  - now rewrite IH.
Qed.

(** X20: a document made of header and trailer survives a write, whatever
    the mathematics library: for a stream whose template id is neither 25
    nor 36 (so that the header is followed by the trailer), writing the
    decoded document gives the preamble and the stream cut after its last
    whole seven-bit group of user data (the whole stream, when the user
    data is a whole number of groups), and decoding that with its preamble
    gives the same document again. *)
Theorem decoded_document_survives_a_write (m : libm) (b : bits) :
  (131 <= length b)%nat ->
  lsb_value (window b 66 8) <> 25 ->
  lsb_value (window b 66 8) <> 36 ->
  exists d out,
    decode m b false = Ok d /\
    write_teds_bitstream m d = Ok out /\
    out = ni_preamble_bits ++ firstn (131 + 7 * ((length b - 131) / 7)) b /\
    (((length b - 131) mod 7 = 0)%nat -> out = ni_preamble_bits ++ b) /\
    decode m out true = Ok d.
Proof.
  intros Hlen H25 H36.
  assert (Hdec : forall c : bits,
             (131 <= length c)%nat ->
             lsb_value (window c 66 8) = lsb_value (window b 66 8) ->
             decode m c false = Ok (header_fields c ++ trailer_fields (skipn 74 c))).
  { intros c Hc Hid. rewrite decode_from_header by lia. rewrite Hid.
    unfold load_template. cbn [val_eq_int].
    destruct (Z.eqb_spec (lsb_value (window b 66 8)) 25); [contradiction|].
    destruct (Z.eqb_spec (lsb_value (window b 66 8)) 36); [contradiction|].
    cbn [bind]. unfold after_header.
    rewrite trailer_ok by enough_bits.
    cbn [bind teds bitstream data pos]. now rewrite header_then_trailer. }
  set (t := skipn 74 b).
  assert (Ht : length t = (length b - 74)%nat) by (subst t; apply length_skipn).
  set (k := ((length b - 131) / 7)%nat).
  assert (Hk : (7 * k <= length b - 131)%nat) by apply Nat.Div0.mul_div_le.
  assert (Hkt : ((length t - 57) / 7 = k)%nat).
  { unfold k. f_equal. lia. }
  exists (header_fields b ++ trailer_fields t),
         (ni_preamble_bits ++ firstn (131 + 7 * k) b).
  split; [now apply Hdec|]. split; [|split; [reflexivity|split]].
  - unfold write_teds_bitstream.
    rewrite write_loop_concat with
      (ws := [ window b 0 14; window b 14 15; window b 29 5;
               window b 34 6; window b 40 24; window b 64 2;
               window b 66 8;
               window t 0 16; window t 16 15; window t 31 12; window t 43 11;
               window t 54 2; window t 56 1; firstn (7 * k) (skipn 57 t) ]).
    + cbn [concat app]. rewrite app_nil_r.
      subst t. rewrite !window_skipn, skipn_skipn_add. cbn [Nat.add].
      change (firstn (7 * k) (skipn 131 b)) with (window b 131 (7 * k)).
      repeat rewrite window_join by reflexivity.
      unfold window. cbn [skipn].
      match goal with
      | |- Ok (_ ++ firstn ?x _) = Ok (_ ++ firstn ?y _) => replace x with y by lia
      end.
      reflexivity.
    + unfold header_fields, trailer_fields.
      cbn [app fields_encode_to].
      repeat match goal with
             | |- _ /\ _ => split
             | |- True => exact I
             | |- _ \/ (_ /\ to_bits m (uint_field _ _) = _) =>
                 right; split; [discriminate|];
                 apply to_bits_uint_field; [lia|rewrite window_bits; lia]
             | |- _ \/ (_ /\ to_bits m (mkElement Date _ _) = _) =>
                 right; split; [discriminate|];
                 apply to_bits_date_field; [lia|rewrite window_bits; lia]
             | |- _ \/ (_ /\ to_bits m (mkElement Chr5 _ _) = _) =>
                 right; split; [discriminate|];
                 apply to_bits_chr5_field with (k := 3%nat); rewrite window_bits; lia
             end.
      right. split; [discriminate|]. rewrite Hkt.
      unfold to_bits, Bits_bin. cbn [cls val super_to_bits bind].
      rewrite ascii_digits_of_chars; [reflexivity|].
      rewrite length_skipn. lia.
  - intros Hal. f_equal. apply firstn_all2.
    pose proof (Nat.div_mod_eq (length b - 131) 7) as E. fold k in E. lia.
  - rewrite decode_after_preamble.
    assert (Hl : length (firstn (131 + 7 * k) b) = (131 + 7 * k)%nat)
      by (rewrite length_firstn; lia).
    rewrite Hdec by (try rewrite window_firstn; lia).
    rewrite header_fields_firstn by lia.
    rewrite skipn_firstn_comm.
    replace (131 + 7 * k - 74)%nat with (57 + 7 * ((length t - 57) / 7))%nat
      by (rewrite Hkt; lia).
    fold t. rewrite trailer_fields_firstn by lia. reflexivity.
Qed.

Lemma sample_document_survives_a_write :
  (131 <= length (sample_unknown ++ [true; true; false]))%nat /\
  lsb_value (window (sample_unknown ++ [true; true; false]) 66 8) <> 25 /\
  lsb_value (window (sample_unknown ++ [true; true; false]) 66 8) <> 36 /\
  exists d out,
    decode ref_libm (sample_unknown ++ [true; true; false]) false = Ok d /\
    write_teds_bitstream ref_libm d = Ok out /\
    out = ni_preamble_bits
          ++ firstn (131 + 7 * ((length (sample_unknown ++ [true; true; false]) - 131) / 7))
                    (sample_unknown ++ [true; true; false]) /\
    (((length (sample_unknown ++ [true; true; false]) - 131) mod 7 = 0)%nat ->
     out = ni_preamble_bits ++ sample_unknown ++ [true; true; false]) /\
    decode ref_libm out true = Ok d.
Proof.
  assert (H1 : (131 <= length (sample_unknown ++ [true; true; false]))%nat)
    by (vm_compute; lia).
  assert (H2 : lsb_value (window (sample_unknown ++ [true; true; false]) 66 8) <> 25)
    by (vm_compute; discriminate).
  assert (H3 : lsb_value (window (sample_unknown ++ [true; true; false]) 66 8) <> 36)
    by (vm_compute; discriminate).
  split; [exact H1|]. split; [exact H2|]. split; [exact H3|].
  exact (decoded_document_survives_a_write ref_libm _ H1 H2 H3).
Defined.


(** ** Virtual TEDS files *)

Lemma no_quote_among_bits (q : Z) (b : bits) :
  2 <= q -> existsb (Z.eqb q) (map Z.b2z b) = false.
Proof.
  intros Hq. induction b as [|x b IH]; [reflexivity|].
  cbn [map existsb]. rewrite IH, orb_false_r.
  destruct x; cbn [Z.b2z]; apply Z.eqb_neq; lia.
Qed.

Lemma bit_bytes_repr (b : bits) (tail : string) :
  str_step 3 4
    (String.append (String.concat "" (map (byte_repr 39) (map Z.b2z b))) tail)
  = String.append (bin_string b) (str_step 3 4 tail).
Proof.
  induction b as [|x b IH]; [reflexivity|].
  cbn [map bin_string].
  assert (E : forall l, String.concat "" (byte_repr 39 (Z.b2z x) :: l)
                        = String.append (byte_repr 39 (Z.b2z x)) (String.concat "" l)).
  { intros [|y l]; [|reflexivity]. cbn [String.concat].
    induction (byte_repr 39 (Z.b2z x)); cbn; congruence. }
  rewrite E. destruct x; cbn -[String.concat str_step];
    cbn [str_step Nat.sub]; rewrite IH; reflexivity.
Qed.

Lemma virtual_teds_literal_of_bits (b : bits) :
  virtual_teds_literal (map Z.b2z b) = String.append "0b" (bin_string b).
Proof.
  unfold virtual_teds_literal, bytes_str.
  rewrite !no_quote_among_bits by lia. cbn [andb str_from].
  rewrite bit_bytes_repr. cbn [str_step]. f_equal.
  induction (bin_string b); cbn; congruence.
Qed.

(** X13: a file written by [write_teds_to_file] holds one byte 0 or 1 per
    bit, so that [str] shows each byte as a backslash, an x and two digits,
    and [read_bitstream_from_file] builds from it the binary literal of
    exactly the bits written, preamble first. [BitStream] then gives those
    bits back, provided it reads a binary literal as its digits. *)
Theorem written_file_is_read_back (m : libm) (file_bytes : string -> option bytes)
        (BitStream_of_str : string -> result bits) (d : dict) (file : bytes)
        (file_path : string) :
  write_teds_to_file m d = Ok file ->
  file_bytes file_path = Some file ->
  exists b rest,
    write_teds_bitstream m d = Ok b /\
    b = ni_preamble_bits ++ rest /\
    virtual_teds_literal file = String.append "0b" (bin_string b) /\
    (BitStream_of_str (String.append "0b" (bin_string b)) = Ok b ->
     read_bitstream_from_file file_bytes BitStream_of_str file_path = inl (stream b)).
Proof.
  intros Hw Hf. unfold write_teds_to_file in Hw.
  apply bind_ok_inv in Hw as (b & Hb & Hw). inversion Hw; subst file; clear Hw.
  destruct (write_loop_extends m d _ _ Hb) as [rest Hrest].
  exists b, rest. repeat split; try assumption.
  - apply virtual_teds_literal_of_bits.
  - intros Hp. unfold read_bitstream_from_file.
    now rewrite Hf, virtual_teds_literal_of_bits, Hp.
Qed.

Lemma sample_file_is_read_back :
  exists b rest,
    write_teds_bitstream ref_libm [("template_id", mkElement UnInt 8 (VInt 25))] = Ok b /\
    b = ni_preamble_bits ++ rest /\
    virtual_teds_literal (map Z.b2z (ni_preamble_bits ++ field 8 25))
    = String.append "0b" (bin_string b) /\
    (bin_literal_bits (String.append "0b" (bin_string b)) = Ok b ->
     read_bitstream_from_file
       (fun _ => Some (map Z.b2z (ni_preamble_bits ++ field 8 25)))
       bin_literal_bits "sensor.ted" = inl (stream b)).
Proof.
  apply (written_file_is_read_back ref_libm
           (fun _ => Some (map Z.b2z (ni_preamble_bits ++ field 8 25)))
           bin_literal_bits [("template_id", mkElement UnInt 8 (VInt 25))]
           (map Z.b2z (ni_preamble_bits ++ field 8 25)) "sensor.ted").
  - vm_compute. reflexivity.
  - reflexivity.
Defined.


(** ** The sensor kind of a channel *)

Lemma process_keeps_entry (m : libm) (td : dict) (key : string)
      (self self' : StandardTeds) :
  has_key key td = false ->
  process m td self = Ok self' ->
  dict_get (teds self') key = dict_get (teds self) key.
Proof.
  intros Hkey H. unfold process in H.
  apply bind_ok_inv in H as ([td' s'] & Hl & H). inversion H; subst. cbn [teds].
  rewrite dict_update_other; [reflexivity|].
  unfold has_key in *. now rewrite (process_loop_keys m td _ _ _ Hl).
Qed.

Ltac entry_tac key :=
  repeat match goal with
         | H : bind _ _ = Ok _ |- _ =>
             let s := fresh "s" in
             let Hs := fresh "Hs" in
             apply bind_ok_inv in H as (s & Hs & H)
         | H : (if ?c then _ else _) = Ok _ |- _ => destruct c
         | H : Raise _ = Ok _ |- _ => discriminate H
         | H : Ok _ = Ok _ |- _ => inversion H; subst; clear H
         | H : process _ ?td _ = Ok _ |- _ =>
             apply (process_keeps_entry _ td key) in H; [|reflexivity]
         end.

Lemma selectors_present (m : libm) (self s1 : StandardTeds) :
  process m
    [ ("acceleration_force", UnIntTedsElement 1);
      ("extended_functionality", UnIntTedsElement 1) ] self = Ok s1 ->
  exists e, dict_get (teds s1) "acceleration_force" = Some e /\
            val e = field_val (teds s1) "acceleration_force".
Proof.
  unfold process. intros H. apply bind_ok_inv in H as ([td' s'] & Hl & H).
  inversion H; subst; clear H. cbn [teds].
  pose proof (process_loop_keys m _ _ _ _ Hl) as Hk.
  destruct td' as [|[k1 e1] [|[k2 e2] [|]]]; try discriminate Hk.
  cbn [map fst] in Hk. inversion Hk; subst.
  unfold field_val, dict_update. cbn [fold_left fst snd].
  rewrite dict_get_set_other by discriminate.
  rewrite dict_get_set_same. eauto.
Qed.

(** After template 25 has been loaded, the document says that the sensor
    is an accelerometer: the other branches raise. *)
Lemma accelerometer_force_template_entry (m : libm) (self s' : StandardTeds) :
  accelerometer_force_template m self = Ok s' ->
  exists e, dict_get (teds s') "acceleration_force" = Some e /\ val e = VInt 0.
Proof.
  unfold accelerometer_force_template. intros H.
  apply bind_ok_inv in H as (s1 & H1 & H).
  destruct (selectors_present m self s1 H1) as (e & He & Hv).
  destruct (selectors_are_bits m self s1 H1) as (x & y & Hx & Hy).
  rewrite Hx, Hy in H. rewrite Hx in Hv.
  assert (x = false) as ->.
  { destruct x; [|reflexivity]. exfalso.
    apply bind_ok_inv in H as (s2 & H2 & _).
    destruct y; vm_compute in H2; discriminate H2. }
  exists e. split; [|exact Hv]. rewrite <- He.
  unfold accelerometer_no_ext_template, accelerometer_ext_template,
    transfer_function_template, force_no_ext_template, force_ext_template in H.
  entry_tac "acceleration_force"; congruence.
Qed.

Lemma init_body_entry (m : libm) (self st : StandardTeds) :
  teds self = [] ->
  init_body m self = Ok st ->
  let tid := field_val (teds st) "template_id" in
  (val_eq_int tid 25 = true ->
   exists e, dict_get (teds st) "acceleration_force" = Some e /\ val e = VInt 0)
  /\ (val_eq_int tid 25 = false -> dict_get (teds st) "acceleration_force" = None).
Proof.
  intros Hempty H. unfold init_body, check_basic_teds in H.
  apply bind_ok_inv in H as (s1 & H1 & H). cbn [bind teds] in H.
  apply bind_ok_inv in H as (s3 & H3 & H4). unfold end_template in H4.
  assert (Ht : field_val (teds st) "template_id" = field_val (teds s1) "template_id").
  { transitivity (field_val (teds s3) "template_id").
    - eapply process_keeps; [|exact H4]. reflexivity.
    - clear H4. unfold load_template, thermocouple_template,
        accelerometer_force_template, accelerometer_no_ext_template,
        accelerometer_ext_template, transfer_function_template,
        force_no_ext_template, force_ext_template in H3.
      keeps_tac "template_id"; cbn [teds] in *; congruence. }
  assert (Ha : dict_get (teds s1) "acceleration_force" = None).
  { transitivity (dict_get (teds self) "acceleration_force"); [|now rewrite Hempty].
    eapply process_keeps_entry; [|exact H1]. reflexivity. }
  assert (H5 : dict_get (teds st) "acceleration_force"
               = dict_get (teds s3) "acceleration_force").
  { eapply process_keeps_entry; [|exact H4]. reflexivity. }
  cbv zeta. rewrite Ht, H5. unfold load_template in H3.
  destruct (val_eq_int (field_val (teds s1) "template_id") 25).
  - split; [|discriminate]. intros _.
    now apply accelerometer_force_template_entry in H3.
  - split; [discriminate|]. intros _.
    unfold thermocouple_template in H3.
    entry_tac "acceleration_force"; cbn [teds] in *; congruence.
Qed.

Lemma constructor_entry (m : libm) (bs : BitStream) (has_preamble : bool)
      (st : StandardTeds) :
  StandardTeds_init m bs has_preamble = Ok st ->
  let tid := field_val (teds st) "template_id" in
  (val_eq_int tid 25 = true ->
   exists e, dict_get (teds st) "acceleration_force" = Some e /\ val e = VInt 0)
  /\ (val_eq_int tid 25 = false -> dict_get (teds st) "acceleration_force" = None).
Proof.
  unfold StandardTeds_init. intros H. apply bind_ok_inv in H as (s0 & H0 & H).
  apply (init_body_entry m s0); [|exact H].
  destruct has_preamble.
  - apply bind_ok_inv in H0 as ([w s] & _ & H0).
    destruct (negb _); inversion H0. reflexivity.
  - inversion H0. reflexivity.
Qed.

Lemma set_teds_info_result (m : libm) (self self' : SDLMAChannel) (bs : BitStream)
      (has_preamble : bool) (err : option error) :
  set_teds_info m self bs has_preamble = (self', err) ->
  match err with
  | None =>
      is_resp self' = true /\
      exists d, channel_info self' = TedsInfo d /\
                val_eq_int (field_val d "template_id") 25 = true /\
                field_val d "acceleration_force" = VInt 0
  | Some (KeyError key) =>
      key = "acceleration_force" /\ is_resp self' = is_resp self /\
      exists d, channel_info self' = TedsInfo d /\
                val_eq_int (field_val d "template_id") 25 = false
  | Some _ => self' = self
  end.
Proof.
  unfold set_teds_info. intros H.
  destruct (StandardTeds_init m bs has_preamble) as [st|e] eqn:E;
    [|inversion H; reflexivity].
  destruct (constructor_entry m bs has_preamble st E) as [H25 Hother].
  destruct (val_eq_int (field_val (teds st) "template_id") 25) eqn:Et.
  - destruct (H25 eq_refl) as (e & He & Hv). rewrite He in H.
    inversion H; subst. cbn [is_resp channel_info set_is_resp set_info].
    rewrite Hv. split; [reflexivity|]. exists (teds st).
    repeat split; [exact Et|]. unfold field_val. now rewrite He.
  - rewrite (Hother eq_refl) in H. inversion H; subst.
    cbn [is_resp channel_info set_info]. repeat split. now exists (teds st).
Qed.

(** X14: [set_channel_info] with a TEDS list or a TEDS file returns only
    for an accelerometer of template 25, and then sets [is_resp] to [True]:
    a force sensor makes the decoder raise, and for any other template the
    lookup of [acceleration_force] raises [KeyError] after [channel_info]
    has been replaced. Every other exception leaves the channel as it
    was. *)
Theorem teds_channel_is_a_response_channel (m : libm)
        (file_bytes : string -> option bytes) (BitStream_of_str : string -> result bits)
        (self self' : SDLMAChannel) (teds_list : option (list Z))
        (teds_file_path : option string) (teds_info : option (list (string * value)))
        (err : option error) :
  (exists item rest, teds_list = Some (item :: rest)) \/
  (exists c path, teds_file_path = Some (String c path)) ->
  set_channel_info m file_bytes BitStream_of_str self teds_list teds_file_path teds_info
  = (self', err) ->
  match err with
  | None =>
      is_resp self' = true /\
      exists d, channel_info self' = TedsInfo d /\
                val_eq_int (field_val d "template_id") 25 = true /\
                field_val d "acceleration_force" = VInt 0
  | Some (KeyError key) =>
      key = "acceleration_force" /\ is_resp self' = is_resp self /\
      exists d, channel_info self' = TedsInfo d /\
                val_eq_int (field_val d "template_id") 25 = false
  | Some _ => self' = self
  end.
Proof.
  intros Hbranch H. unfold set_channel_info in H.
  destruct teds_list as [[|item rest]|].
  - destruct Hbranch as [(i & r & Hl)|(c & p & ->)]; [discriminate Hl|].
    unfold read_bitstream_from_file in H.
    destruct (file_bytes (String c p)); [|inversion H; reflexivity].
    destruct (BitStream_of_str _); [|inversion H; reflexivity].
    now apply set_teds_info_result in H.
  - destruct (convert_nidaqmax_list_to_bitstream (item :: rest));
      [|inversion H; reflexivity].
    now apply set_teds_info_result in H.
  - destruct Hbranch as [(i & r & Hl)|(c & p & ->)]; [discriminate Hl|].
    unfold read_bitstream_from_file in H.
    destruct (file_bytes (String c p)); [|inversion H; reflexivity].
    destruct (BitStream_of_str _); [|inversion H; reflexivity].
    now apply set_teds_info_result in H.
Qed.

Lemma sample_channel_is_a_response_channel :
  exists self',
    set_channel_info ref_libm
      (fun _ => Some (map Z.b2z (ni_preamble_bits ++ sample_accelerometer)))
      bin_literal_bits
      (SDLMAChannel_init "Dev1/ai0" true (VInt (-5), VInt 5))
      None (Some "sensor.ted") None
    = (self', None) /\
    is_resp self' = true /\
    exists d, channel_info self' = TedsInfo d /\
              val_eq_int (field_val d "template_id") 25 = true /\
              field_val d "acceleration_force" = VInt 0.
Proof.
  eexists. split; [vm_compute; reflexivity|].
  apply (teds_channel_is_a_response_channel ref_libm
           (fun _ => Some (map Z.b2z (ni_preamble_bits ++ sample_accelerometer)))
           bin_literal_bits
           (SDLMAChannel_init "Dev1/ai0" true (VInt (-5), VInt 5))
           _ None (Some "sensor.ted") None None).
  - right. exists "s"%char, "ensor.ted". reflexivity.
  - vm_compute. reflexivity.
Defined.


(** ** The list read from the hardware *)

Lemma byte_chunks_checked :
  forallb (fun x => bits_eqb (nidaqmax_chunk x) (field 8 x))
          (map Z.of_nat (seq 0 256)) = true.
Proof. vm_compute. reflexivity. Qed.

Lemma byte_chunk (x : Z) : 0 <= x < 256 -> nidaqmax_chunk x = field 8 x.
Proof.
  intros H. apply bits_eqb_eq.
  pose proof byte_chunks_checked as C. rewrite forallb_forall in C.
  apply C. apply in_map_iff. exists (Z.to_nat x). split; [lia|].
  apply in_seq. lia.
Qed.

Lemma nidaqmax_loop_chunks (l : list Z) :
  forall acc, Forall (fun x => 0 <= x) l ->
    nidaqmax_loop l acc = Ok (acc ++ concat (map nidaqmax_chunk l)).
Proof.
  induction l as [|x l IH]; intros acc H; cbn [nidaqmax_loop map concat].
  - now rewrite app_nil_r.
  - inversion H; subst.
    destruct (Z.ltb_spec x 0); [lia|].
    rewrite IH by assumption. now rewrite <- app_assoc.
Qed.

Lemma nidaqmax_loop_negative (l1 : list Z) :
  forall acc x l2, Forall (fun x => 0 <= x) l1 -> x < 0 ->
    exists msg, nidaqmax_loop (l1 ++ x :: l2) acc = Raise (ValueError msg).
Proof.
  induction l1 as [|y l1 IH]; intros acc x l2 H Hx; cbn [app nidaqmax_loop].
  - destruct (Z.ltb_spec x 0); [eexists; reflexivity|lia].
  - inversion H; subst. destruct (Z.ltb_spec y 0); [lia|]. now apply IH.
Qed.

Lemma chunks_length (l : list Z) :
  exists k, length (concat (map nidaqmax_chunk l)) = (8 * k)%nat.
Proof.
  induction l as [|x l [k IH]]; [now exists 0%nat|].
  cbn [map concat]. rewrite length_app, IH.
  destruct (zero_pad_length (reverse_bitstream (Bits_bin (bin_digits x)))) as [j Hj].
  unfold nidaqmax_chunk. rewrite Hj. exists (j + k)%nat. lia.
Qed.

(** X15: [convert_nidaqmax_list_to_bitstream] turns a list of bytes (0 to
    255) into eight bits per byte, least significant bit first, in list
    order, at position 0; a negative integer anywhere in the list raises
    [ValueError] ([bin] gives it a sign, which [BitStream] does not read);
    and whatever non-negative integers the list holds, the stream is a
    whole number of bytes. *)
Theorem nidaqmx_list_is_read_byte_by_byte (l : list Z) :
  (Forall (fun x => 0 <= x < 256) l ->
   convert_nidaqmax_list_to_bitstream l = Ok (stream (concat (map (field 8) l))) /\
   length (concat (map (field 8) l)) = (8 * length l)%nat)
  /\ (forall l1 x l2, l = l1 ++ x :: l2 -> Forall (fun x => 0 <= x) l1 -> x < 0 ->
        exists msg, convert_nidaqmax_list_to_bitstream l = Raise (ValueError msg))
  /\ (Forall (fun x => 0 <= x) l ->
      exists b k, convert_nidaqmax_list_to_bitstream l = Ok (stream b) /\
                  length b = (8 * k)%nat).
Proof.
  unfold convert_nidaqmax_list_to_bitstream. repeat apply conj.
  - intros H.
    assert (E : map nidaqmax_chunk l = map (field 8) l).
    { apply map_ext_in. intros x Hx. apply byte_chunk.
      rewrite Forall_forall in H. now apply H. }
    rewrite nidaqmax_loop_chunks.
    + cbn [bind app]. rewrite E. split; [reflexivity|].
      clear. induction l as [|x l IH]; [reflexivity|].
      cbn [map concat length]. rewrite length_app, IH.
      unfold field. rewrite length_rev, uint_bits_length. lia.
    + eapply Forall_impl; [|exact H]. cbv beta. intros; lia.
  - intros l1 x l2 -> H Hx.
    destruct (nidaqmax_loop_negative l1 [] x l2 H Hx) as [msg ->].
    exists msg. reflexivity.
  - intros H. rewrite nidaqmax_loop_chunks by assumption. cbn [bind app].
    destruct (chunks_length l) as [k Hk]. eauto.
Qed.

(** ** The callback interval *)

Lemma min_by_first_least (key : Z -> Z) (l : list Z) :
  forall x,
    ascending (x :: l) ->
    let r := fold_left (fun best y => if key y <? key best then y else best) l x in
    In r (x :: l) /\
    forall y, In y (x :: l) -> key r <= key y /\ (key y = key r -> r <= y).
Proof.
  induction l as [|y l IH]; intros x Ha; cbn [fold_left].
  - split; [now left|]. intros y [<-|[]]. lia.
  - destruct Ha as [Hx [Hy Ha]].
    destruct (Z.ltb_spec (key y) (key x)) as [Hlt|Hge].
    + destruct (IH y (conj Hy Ha)) as [Hin Hmin]. cbv zeta in Hin, Hmin.
      split; [now right|]. intros z [<-|Hz].
      * specialize (Hmin y (or_introl eq_refl)). lia.
      * now apply Hmin.
    + assert (Ha' : ascending (x :: l)).
      { split; [|exact Ha]. intros z Hz. apply Hx. now right. }
      destruct (IH x Ha') as [Hin Hmin]. cbv zeta in Hin, Hmin.
      split; [destruct Hin as [<-|Hin]; [now left|right; now right]|].
      intros z [<-|[<-|Hz]].
      * now apply Hmin; left.
      * pose proof (Hmin x (or_introl eq_refl)) as [H1 H2].
        split; [lia|]. intros E.
        assert (x < y) by (apply Hx; now left). lia.
      * apply Hmin. now right.
Qed.

Lemma ascending_filter (p : Z -> bool) (l : list Z) :
  ascending l -> ascending (filter p l).
Proof.
  induction l as [|x l IH]; intros H; [exact I|].
  destruct H as [Hx H]. cbn [filter]. destruct (p x); [|now apply IH].
  split; [|now apply IH]. intros y Hy. apply Hx.
  now apply filter_In in Hy.
Qed.

Lemma ascending_range (n : nat) : forall a, ascending (map Z.of_nat (seq a n)).
Proof.
  induction n as [|n IH]; intros a; [exact I|].
  cbn [seq map]. split; [|apply IH].
  intros y Hy. apply in_map_iff in Hy as (k & <- & Hk). apply in_seq in Hk. lia.
Qed.

Lemma divisors_spec (n d : Z) :
  In d (filter (fun i => n mod i =? 0) (range_from_1 n))
  <-> 1 <= d <= n /\ n mod d = 0.
Proof.
  unfold range_from_1. rewrite filter_In, in_map_iff, Z.eqb_eq. split.
  - intros [(k & <- & Hk) Hm]. apply in_seq in Hk. split; [lia|exact Hm].
  - intros [Hd Hm]. split; [|exact Hm]. exists (Z.to_nat d). split; [lia|].
    apply in_seq. lia.
Qed.

(** X16: for [n >= 1], [nearest_even_divisor] returns a divisor of [n]
    between 1 and [n] that is as close to [target] as a divisor of [n] can
    be, the smaller one when two are equally close; so the buffer is a
    whole number of callback intervals. The result is not an even number
    in general: it is odd whenever [n] is. For [n <= 0] there is no
    divisor to choose from and [min] raises [ValueError]. *)
Theorem nearest_even_divisor_is_the_nearest_divisor (n target : Z) :
  (1 <= n ->
   exists d,
     nearest_even_divisor n target = Ok d /\
     1 <= d <= n /\ n mod d = 0 /\
     (forall d', 1 <= d' <= n -> n mod d' = 0 ->
        Z.abs (d - target) <= Z.abs (d' - target) /\
        (Z.abs (d' - target) = Z.abs (d - target) -> d <= d')) /\
     (Z.odd n = true -> Z.odd d = true))
  /\ (n <= 0 -> exists msg, nearest_even_divisor n target = Raise (ValueError msg)).
Proof.
  unfold nearest_even_divisor. split.
  - intros Hn.
    pose proof (divisors_spec n) as Hspec.
    assert (Ha : ascending (filter (fun i => n mod i =? 0) (range_from_1 n))).
    { apply ascending_filter, ascending_range. }
    destruct (filter (fun i => n mod i =? 0) (range_from_1 n)) as [|x l] eqn:E.
    { exfalso. apply (proj2 (Hspec 1)). split; [lia|apply Z.mod_1_r]. }
    cbn [min_by bind].
    destruct (min_by_first_least (fun x => Z.abs (x - target)) l x Ha) as [Hin Hmin].
    cbv zeta beta in Hin, Hmin.
    set (r := fold_left _ l x) in *.
    exists r. apply Hspec in Hin as [Hr Hm].
    repeat split; try lia; try assumption.
    + now apply Hmin, Hspec.
    + apply Hmin. now apply Hspec.
    + intros Ho. apply Z.mod_divide in Hm; [|lia]. destruct Hm as [q Hq].
      rewrite Hq, Z.odd_mul in Ho. now apply andb_prop in Ho.
  - intros Hn. unfold range_from_1.
    replace (Z.to_nat n) with 0%nat by lia. cbn. eauto.
Qed.

Lemma callback_interval_of_a_second_at_51200_hertz :
  exists d,
    nearest_even_divisor 51200 2000 = Ok d /\
    1 <= d <= 51200 /\ 51200 mod d = 0 /\
    (forall d', 1 <= d' <= 51200 -> 51200 mod d' = 0 ->
       Z.abs (d - 2000) <= Z.abs (d' - 2000) /\
       (Z.abs (d' - 2000) = Z.abs (d - 2000) -> d <= d')) /\
    (Z.odd 51200 = true -> Z.odd d = true).
Proof.
  apply (proj1 (nearest_even_divisor_is_the_nearest_divisor 51200 2000)). lia.
Defined.


(** ** Directions *)

(** X17: [direction_to_int] never raises: it maps the seven known
    directions to distinct integers between -3 and 3, a direction and its
    opposite to opposite integers, and returns [None] for every other
    string, the [ValueError] of its last branch being built and dropped. *)
Theorem direction_to_int_returns_none_for_unknown :
  (forall s, direction_to_int s = None <-> ~ In s known_directions)
  /\ (forall s s' z,
        direction_to_int s = Some z -> direction_to_int s' = Some z -> s = s')
  /\ (forall s z, direction_to_int s = Some z -> -3 <= z <= 3)
  /\ (forall axis z, direction_to_int (String "+" axis) = Some z ->
        direction_to_int (String "-" axis) = Some (- z)).
Proof.
  assert (Hknown : forall t z, direction_to_int t = Some z ->
            In (t, z) [("Scalar", 0); ("+X", 1); ("-X", -1); ("+Y", 2); ("-Y", -2);
                       ("+Z", 3); ("-Z", -3)]).
  { intros t z. unfold direction_to_int.
    repeat match goal with
           | |- context [String.eqb t ?k] =>
               destruct (String.eqb_spec t k) as [->|?]
           end; intros H; inversion H; subst; cbn; tauto. }
  split; [|split; [|split]].
  - intros s. split.
    + intros H Hin. unfold known_directions in Hin. cbn [In] in Hin.
      repeat (destruct Hin as [<-|Hin]; [discriminate H|]). exact Hin.
    + intros H. unfold direction_to_int.
      repeat match goal with
             | |- context [String.eqb s ?k] =>
                 destruct (String.eqb_spec s k) as [->|?]
             end; try reflexivity; exfalso; apply H; cbn; tauto.
  - intros s s' z H H'. apply Hknown in H, H'. cbn [In] in H, H'.
    repeat (destruct H as [H|H]; [inversion H; subst; clear H|]); try contradiction;
      repeat (destruct H' as [H'|H']; [inversion H'; subst; clear H'|]);
      try contradiction; reflexivity.
  - intros s z H. apply Hknown in H. cbn [In] in H.
    repeat (destruct H as [H|H]; [inversion H; subst; lia|]). contradiction.
  - intros axis z H. apply Hknown in H. cbn [In] in H.
    repeat (destruct H as [H|H]; [inversion H; subst; reflexivity|]). contradiction.
Qed.

(** ** Signal names *)

Lemma filter_filter (A : Type) (p q : A -> bool) (l : list A) :
  filter p (filter q l) = filter (fun x => q x && p x) l.
Proof.
  induction l as [|x l IH]; [reflexivity|]. cbn [filter].
  destruct (q x); cbn [filter andb]; [destruct (p x)|]; now rewrite IH.
Qed.

Lemma add_names_spec (names : list string) :
  forall unique_names,
    Measurement.add_names unique_names names
    = unique_names
      ++ filter (fun y => negb (existsb (String.eqb y) unique_names))
                (first_occurrences names).
Proof.
  unfold Measurement.add_names.
  induction names as [|x names IH]; intros u; cbn [fold_left first_occurrences filter].
  - now rewrite app_nil_r.
  - rewrite IH. destruct (existsb (String.eqb x) u) eqn:E; cbn [negb].
    + f_equal. rewrite filter_filter. apply filter_ext. intros y.
      destruct (String.eqb_spec x y) as [<-|Hn]; cbn [negb andb]; [|reflexivity].
      now rewrite E.
    + rewrite <- app_assoc. cbn [app]. do 2 f_equal.
      rewrite filter_filter. apply filter_ext. intros y.
      rewrite existsb_app. cbn [existsb]. rewrite orb_false_r, negb_orb.
      rewrite (String.eqb_sym y x). apply andb_comm.
Qed.

Lemma add_names_app (a b : list string) :
  forall u, Measurement.add_names u (a ++ b)
            = Measurement.add_names (Measurement.add_names u a) b.
Proof. intros u. unfold Measurement.add_names. apply fold_left_app. Qed.

Lemma get_unique_names_from (measurements : list Measurement.SDLMAMeasurement) :
  forall u,
    fold_left
      (fun unique_names measurement =>
         let '(exc_names, resp_names) := Measurement.get_names measurement in
         Measurement.add_names unique_names (exc_names ++ resp_names))
      measurements u
    = Measurement.add_names u (all_names measurements).
Proof.
  unfold all_names.
  induction measurements as [|ms l IH]; intros u; [reflexivity|].
  cbn [fold_left flat_map]. rewrite IH, add_names_app. reflexivity.
Qed.

Lemma first_occurrences_In (l : list string) (x : string) :
  In x (first_occurrences l) <-> In x l.
Proof.
  induction l as [|y l IH]; [tauto|]. cbn [first_occurrences In].
  rewrite filter_In, IH. destruct (String.eqb_spec y x) as [->|Hn]; cbn [negb].
  - tauto.
  - split; [tauto|]. intros [H|H]; [contradiction|tauto].
Qed.

Lemma first_occurrences_NoDup (l : list string) : NoDup (first_occurrences l).
Proof.
  induction l as [|y l IH]; [constructor|]. cbn [first_occurrences]. constructor.
  - rewrite filter_In. intros [_ H]. now rewrite String.eqb_refl in H.
  - now apply NoDup_filter.
Qed.

(** X18: [get_unique_names] returns every signal name of the measurements
    exactly once, in the order of first occurrence (excitations before
    responses within a measurement); adding measurements only appends to
    the list. *)
Theorem unique_names_are_the_first_occurrences
        (measurements : list Measurement.SDLMAMeasurement) :
  Measurement.get_unique_names measurements = first_occurrences (all_names measurements)
  /\ NoDup (Measurement.get_unique_names measurements)
  /\ (forall x, In x (Measurement.get_unique_names measurements)
                <-> In x (all_names measurements))
  /\ (forall more, exists tail,
        Measurement.get_unique_names (measurements ++ more)
        = Measurement.get_unique_names measurements ++ tail).
Proof.
  assert (E : forall l, Measurement.get_unique_names l = first_occurrences (all_names l)).
  { intros l. unfold Measurement.get_unique_names.
    rewrite get_unique_names_from, add_names_spec. cbn [app existsb negb].
    clear. induction (first_occurrences (all_names l)) as [|x t IH]; [reflexivity|].
    cbn [filter]. now rewrite IH. }
  split; [apply E|]. split; [rewrite E; apply first_occurrences_NoDup|].
  split; [intros x; rewrite E; apply first_occurrences_In|].
  intros more. unfold Measurement.get_unique_names.
  rewrite fold_left_app, !get_unique_names_from, add_names_spec.
  eexists. reflexivity.
Qed.

Lemma skipn_nth_error (A : Type) (l : list A) :
  forall (i : nat) (x : A), nth_error l i = Some x -> skipn i l = x :: skipn (S i) l.
Proof.
  induction l as [|y l IH]; intros [|i] x H; try discriminate H.
  - inversion H. reflexivity.
  - cbn [nth_error] in H. cbn [skipn]. now apply IH.
Qed.

Lemma from_array_loop_spec (rows : list (list float)) (unit_str : string) (fs : Z)
      (quantity : string) (names directions : list string) :
  forall i,
    match Measurement.from_array_loop rows i unit_str fs quantity names directions with
    | Some l =>
        map Measurement.data l = rows /\
        map Measurement.name l = firstn (length rows) (skipn i names) /\
        map Measurement.direction l = firstn (length rows) (skipn i directions) /\
        (rows = [] \/ (i + length rows <= length names)%nat /\
                      (i + length rows <= length directions)%nat)
    | None =>
        (length names < i + length rows)%nat \/ (length directions < i + length rows)%nat
    end.
Proof.
  induction rows as [|row rows IH]; intros i; cbn [Measurement.from_array_loop length].
  - cbn [map firstn]. repeat split. now left.
  - destruct (nth_error names i) as [n|] eqn:En.
    + destruct (nth_error directions i) as [d|] eqn:Ed.
      * specialize (IH (S i)).
        destruct (Measurement.from_array_loop rows (S i) unit_str fs quantity
                    names directions) as [l|].
        -- destruct IH as (H1 & H2 & H3 & H4).
           cbn [map Measurement.data Measurement.name Measurement.direction].
           rewrite H1, H2, H3, (skipn_nth_error _ _ _ _ En), (skipn_nth_error _ _ _ _ Ed).
           cbn [firstn]. repeat split. right.
           assert (i < length names)%nat by (apply nth_error_Some; congruence).
           assert (i < length directions)%nat by (apply nth_error_Some; congruence).
           destruct H4 as [->|H4]; cbn [length]; lia.
        -- destruct IH as [IH|IH]; [left|right]; lia.
      * right. apply nth_error_None in Ed. lia.
    + left. apply nth_error_None in En. lia.
Qed.

(** X19: [SDLMATimeSeriesSEP005.from_array] builds one time series per
    row of the array, with the row as data and the [i]-th name and
    direction; names and directions beyond the number of rows are ignored,
    and a list of names or directions shorter than the array raises
    [IndexError]. [get_names] then gives the names back. *)
Theorem from_array_pairs_rows_with_names (arr : list (list float)) (unit_str : string)
        (fs : Z) (quantity : string) (names directions : list string) :
  match Measurement.from_array arr unit_str fs quantity names directions with
  | Some l =>
      (length arr <= length names)%nat /\ (length arr <= length directions)%nat /\
      map Measurement.data l = arr /\
      map Measurement.direction l = firstn (length arr) directions /\
      Measurement.get_names (Measurement.mkMeasurement l [])
      = (firstn (length arr) names, [])
  | None =>
      (length names < length arr)%nat \/ (length directions < length arr)%nat
  end.
Proof.
  unfold Measurement.from_array.
  pose proof (from_array_loop_spec arr unit_str fs quantity names directions 0) as H.
  destruct (Measurement.from_array_loop arr 0 unit_str fs quantity names directions)
    as [l|].
  - destruct H as (H1 & H2 & H3 & H4). cbn [skipn] in H2, H3.
    unfold Measurement.get_names. cbn [Measurement.exc Measurement.resp map].
    rewrite H2. repeat split; try assumption;
      destruct H4 as [->|H4]; cbn [length]; lia.
  - exact H.
Qed.

